(** * findbeacons: beacon detection in Squid access logs

    A shallow embedding of [findbeacons.py] and the properties of its
    beacon-detection pass.

    Conventions of the model.
    - Python [int] is [Z]; list indices and lengths are [nat].
    - Python [str] is [string]; a character is a code point below 256.
    - A timestamp is the rational number denoted by its decimal text, and
      [timestamp - timestamps[next_index]] is the exact difference: binary
      rounding of [float] values is outside the model, and so are the
      infinite value that [float] gives for a text above about 1.8e308 and
      the [ValueError] of [int] on the difference of two such values.  The
      properties below are stated on the computed values
      ([int_of_float] of a difference, a count) or on the course of a run
      that returns; where one needs the value of a difference, it asks for
      timestamps that a binary64 float holds exactly ([is_double]).
    - A Python exception is a [Raise] result. *)

From Stdlib Require Import String Ascii DecimalString.
From Stdlib Require Import ZArith QArith Qround List Sorted Bool Arith Lia.
From Stdlib Require Import Permutation Lqa.
Import ListNotations.

Local Open Scope Z_scope.

(** ** Results of fallible code *)

Inductive exn : Type :=
| ReError        (* re.compile refused the pattern *)
| ValueError     (* float() refused its argument *)
| KeyError       (* a dictionary has no such key *)
| TypeError      (* len() of a count, or a list under the format {:5} *)
| AttributeError (* append on a value that is not a list *)
| IndexError.    (* a list index out of range *)

Inductive result (A : Type) : Type :=
| Ok (a : A)
| Raise (e : exn).

Arguments Ok {A} a.
Arguments Raise {A} e.

Definition bind {A B : Type} (m : result A) (f : A -> result B) : result B :=
  match m with
  | Ok a => f a
  | Raise e => Raise e
  end.

Notation "x <- m ;; k" := (bind m (fun x => k))
  (at level 61, m at next level, right associativity).

(** ** The interval detector (lines 224-241 of findbeacons.py) *)

Module Detector.

(** [int(x)] on a float: truncation toward zero. *)
Definition int_of_float (x : Q) : Z := Z.quot (Qnum x) (Z.pos (Qden x)).

(** [range(a, b)] *)
Definition range (a b : nat) : list nat := seq a (b - a).

(** [enumerate(l)] *)
Definition enumerate {A : Type} (l : list A) : list (nat * A) :=
  combine (seq 0 (length l)) l.

(** [l.sort(reverse=True)]: a stable sort into non-increasing order. *)
Fixpoint insert_desc (x : Q) (l : list Q) : list Q :=
  match l with
  | [] => [x]
  | y :: l' => if Qle_bool y x then x :: y :: l' else y :: insert_desc x l'
  end.

Definition sort_reverse (l : list Q) : list Q := fold_right insert_desc [] l.

(** The inner [for next_index in range(cur_index, timestamp_count - 1)]
    loop, as a function of the indices still to visit.  Both [break]s end
    the recursion.  [timestamps[next_index]] is read with [nth]: every index
    of the range is below [timestamp_count - 1]. *)
Fixpoint inner_loop (interval : Z) (timestamps : list Q) (timestamp : Q)
    (next_indices : list nat) (beacon_count : Z) : Z :=
  match next_indices with
  | [] => beacon_count
  | next_index :: rest =>
      let delta := int_of_float (timestamp - nth next_index timestamps 0%Q) in
      if delta =? interval then beacon_count + 1
      else if delta >? interval then beacon_count
      else inner_loop interval timestamps timestamp rest beacon_count
  end.

(** The outer [for cur_index, timestamp in enumerate(timestamps[:-1])]
    loop, starting from [beacon_count = 0]. *)
Definition count_beacons (interval : Z) (timestamps : list Q) : Z :=
  let timestamp_count := length timestamps in
  fold_left
    (fun beacon_count '(cur_index, timestamp) =>
       inner_loop interval timestamps timestamp
         (range cur_index (timestamp_count - 1)) beacon_count)
    (enumerate (removelast timestamps)) 0.

(** Two views of the loops by the elements they visit, used in the proofs:
    [scan] is the inner loop over the window [timestamps[cur_index :
    timestamp_count - 1]], [count_from] the outer loop over the suffixes of
    [timestamps[:-1]]. *)
Fixpoint scan (interval : Z) (timestamp : Q) (window : list Q)
    (beacon_count : Z) : Z :=
  match window with
  | [] => beacon_count
  | x :: w =>
      let delta := int_of_float (timestamp - x) in
      if delta =? interval then beacon_count + 1
      else if delta >? interval then beacon_count
      else scan interval timestamp w beacon_count
  end.

Fixpoint count_from (interval : Z) (body : list Q) (beacon_count : Z) : Z :=
  match body with
  | [] => beacon_count
  | t :: rest =>
      count_from interval rest (scan interval t (t :: rest) beacon_count)
  end.

(** A series in newest-to-oldest order whose neighbours are exactly
    [interval] seconds apart. *)
Fixpoint chain (interval : Z) (l : list Q) : Prop :=
  match l with
  | x :: l' =>
      match l' with
      | y :: _ => (x - y == inject_Z interval)%Q /\ chain interval l'
      | [] => True
      end
  | [] => True
  end.

(** Newest first. *)
Definition descending (l : list Q) : Prop :=
  StronglySorted (fun a b => (b <= a)%Q) l.

End Detector.

(** ** Regular expressions: the fragment of Python's [re] the program uses

    The pattern of [find_beacons] is a sequence of single-character classes
    ([\d], [\s], [.], literal characters), each repeated by at most one
    quantifier ([+], [*], [?], greedy or lazy), with capturing and
    non-capturing groups around sub-sequences.  [compile] refuses the
    patterns that Python refuses within this fragment (a parenthesis
    without its partner, a quantifier with nothing to repeat), and it
    refuses as well a pattern outside the fragment (a bracket class, an
    alternation, a quantified group, an anchor), which Python accepts: of
    a target that needs one the model says nothing, and the properties of
    a run ask that the pattern compiles or that the run returns. *)

Module Re.

Inductive cclass : Type :=
| CDigit                (* \d *)
| CSpace                (* \s *)
| CAny                  (* .  *)
| CLit (c : ascii).     (* a literal character *)

Inductive quant : Type :=
| One                   (* no quantifier *)
| Plus | PlusLazy       (* +  +? *)
| Star | StarLazy       (* *  *? *)
| Opt | OptLazy.        (* ?  ?? *)

Inductive instr : Type :=
| IChar (c : cclass) (q : quant)
| IOpen (g : nat)       (* start of capturing group g *)
| IClose (g : nat).     (* end of capturing group g *)

Record regex : Type := { prog : list instr; ngroups : nat }.

Definition newline : ascii := "010"%char.

Definition is_digit (a : ascii) : bool :=
  let n := nat_of_ascii a in ((48 <=? n) && (n <=? 57))%nat.

(** The characters [str.isspace] accepts below code point 256. *)
Definition is_space (a : ascii) : bool :=
  let n := nat_of_ascii a in
  (((9 <=? n) && (n <=? 13)) || ((28 <=? n) && (n <=? 32))
   || (n =? 133) || (n =? 160))%nat.

Definition test (c : cclass) (a : ascii) : bool :=
  match c with
  | CDigit => is_digit a
  | CSpace => is_space a
  | CAny => negb (Ascii.eqb a newline)
  | CLit b => Ascii.eqb a b
  end.

(** *** Parsing a pattern *)

(** The item read last, which a following quantifier may still change. *)
Inductive pending : Type :=
| PNone
| PAtom (c : cclass)
| PQuant (c : cclass) (q : quant).

Definition flush (p : pending) : list instr :=
  match p with
  | PNone => []
  | PAtom c => [IChar c One]
  | PQuant c q => [IChar c q]
  end.

Definition lazy_of (q : quant) : quant :=
  match q with
  | Plus => PlusLazy
  | Star => StarLazy
  | Opt => OptLazy
  | q' => q'
  end.

(** Characters with a meaning of their own in a pattern. *)
Definition is_special (a : ascii) : bool :=
  existsb (Ascii.eqb a)
    ["\"; "."; "("; ")"; "+"; "*"; "?"; "["; "]"; "{"; "}"; "|"; "^"; "$"]%char.

(** Characters that a backslash turns into a literal. *)
Definition is_escapable (a : ascii) : bool :=
  is_special a || existsb (Ascii.eqb a) ["/"; "-"; ":"; "_"]%char.

(** [parse s p stack n]: [p] is the pending item, [stack] the groups
    still open ([None] for a non-capturing one) and [n] the number of
    capturing groups opened so far. *)
Fixpoint parse (s : list ascii) (p : pending) (stack : list (option nat))
    (n : nat) : option (list instr) :=
  match s with
  | [] => match stack with [] => Some (flush p) | _ :: _ => None end
  | a :: s' =>
      if Ascii.eqb a "+" then
        match p with PAtom c => parse s' (PQuant c Plus) stack n | _ => None end
      else if Ascii.eqb a "*" then
        match p with PAtom c => parse s' (PQuant c Star) stack n | _ => None end
      else if Ascii.eqb a "?" then
        match p with
        | PAtom c => parse s' (PQuant c Opt) stack n
        | PQuant c q =>
            option_map (cons (IChar c (lazy_of q))) (parse s' PNone stack n)
        | PNone => None
        end
      else if Ascii.eqb a "\" then
        match s' with
        | b :: s'' =>
            if Ascii.eqb b "d" then
              option_map (app (flush p)) (parse s'' (PAtom CDigit) stack n)
            else if Ascii.eqb b "s" then
              option_map (app (flush p)) (parse s'' (PAtom CSpace) stack n)
            else if is_escapable b then
              option_map (app (flush p)) (parse s'' (PAtom (CLit b)) stack n)
            else None
        | [] => None
        end
      else if Ascii.eqb a "(" then
        match s' with
        | q :: s'' =>
            if Ascii.eqb q "?" then
              match s'' with
              | c :: s3 =>
                  if Ascii.eqb c ":" then
                    option_map (app (flush p))
                      (parse s3 PNone (None :: stack) n)
                  else None
              | [] => None
              end
            else
              option_map (fun r => flush p ++ IOpen (S n) :: r)
                (parse s' PNone (Some (S n) :: stack) (S n))
        | [] => None
        end
      else if Ascii.eqb a ")" then
        match stack with
        | Some g :: stack' =>
            option_map (fun r => flush p ++ IClose g :: r)
              (parse s' PNone stack' n)
        | None :: stack' =>
            option_map (app (flush p)) (parse s' PNone stack' n)
        | [] => None
        end
      else if Ascii.eqb a "." then
        option_map (app (flush p)) (parse s' (PAtom CAny) stack n)
      else if is_special a then None
      else option_map (app (flush p)) (parse s' (PAtom (CLit a)) stack n)
  end.

Definition count_groups (l : list instr) : nat :=
  List.length (filter (fun i => match i with IOpen _ => true | _ => false end) l).

(** [re.compile(pattern)] *)
Definition compile (pattern : string) : result regex :=
  match parse (list_ascii_of_string pattern) PNone [] 0 with
  | Some l => Ok {| prog := l; ngroups := count_groups l |}
  | None => Raise ReError
  end.

(** *** Matching

    A backtracking matcher in continuation-passing style: [k] is what
    still has to match after the item at hand, and the first alternative
    that lets [k] succeed wins, as in Python's engine. *)

Section Loops.
Context {R : Type} (c : ascii -> bool) (k : list ascii -> option R).

Fixpoint star_greedy (s : list ascii) : option R :=
  match s with
  | a :: s' =>
      if c a then
        match star_greedy s' with Some r => Some r | None => k s end
      else k s
  | [] => k s
  end.

Fixpoint star_lazy (s : list ascii) : option R :=
  match k s with
  | Some r => Some r
  | None =>
      match s with
      | a :: s' => if c a then star_lazy s' else None
      | [] => None
      end
  end.

Definition one (s : list ascii) : option R :=
  match s with
  | a :: s' => if c a then k s' else None
  | [] => None
  end.

Definition opt_greedy (s : list ascii) : option R :=
  match one s with Some r => Some r | None => k s end.

Definition opt_lazy (s : list ascii) : option R :=
  match k s with Some r => Some r | None => one s end.
End Loops.

Definition repeat_char {R : Type} (c : ascii -> bool) (q : quant)
    (k : list ascii -> option R) : list ascii -> option R :=
  match q with
  | One => one c k
  | Plus => one c (star_greedy c k)
  | PlusLazy => one c (star_lazy c k)
  | Star => star_greedy c k
  | StarLazy => star_lazy c k
  | Opt => opt_greedy c k
  | OptLazy => opt_lazy c k
  end.

(** Where each group started, and the text of each group that closed. *)
Record mstate : Type :=
  { starts : list (nat * list ascii); groups : list (nat * list ascii) }.

Definition mstate0 : mstate := {| starts := []; groups := [] |}.

Fixpoint lookup {A : Type} (g : nat) (l : list (nat * A)) : option A :=
  match l with
  | [] => None
  | (h, x) :: l' => if (h =? g)%nat then Some x else lookup g l'
  end.

Definition open_group (g : nat) (s : list ascii) (st : mstate) : mstate :=
  {| starts := (g, s) :: starts st; groups := groups st |}.

Definition close_group (g : nat) (s : list ascii) (st : mstate) : mstate :=
  match lookup g (starts st) with
  | Some s0 =>
      {| starts := starts st;
         groups := (g, firstn (List.length s0 - List.length s) s0) :: groups st |}
  | None => st
  end.

(** [exec l st s]: match the items [l] at the start of [s]; the result is
    the final state and what is left of [s]. *)
Fixpoint exec (l : list instr) (st : mstate) (s : list ascii)
    : option (mstate * list ascii) :=
  match l with
  | [] => Some (st, s)
  | IChar c q :: l' => repeat_char (test c) q (exec l' st) s
  | IOpen g :: l' => exec l' (open_group g s st) s
  | IClose g :: l' => exec l' (close_group g s st) s
  end.

(** The text of group [g], [''] when it took no part in the match. *)
Definition group (st : mstate) (g : nat) : string :=
  match lookup g (groups st) with
  | Some t => string_of_list_ascii t
  | None => EmptyString
  end.

(** What [findall] returns for one match of a pattern with groups: the
    texts of groups 1, 2, ... *)
Definition fields_of (r : regex) (st : mstate) : list string :=
  map (group st) (seq 1 (ngroups r)).

(** [skip] is the number of characters the previous match still covers. *)
Fixpoint findall_from (r : regex) (s : list ascii) (skip : nat)
    : list (list string) :=
  match s with
  | [] =>
      match skip, exec (prog r) mstate0 [] with
      | O, Some (st, _) => [fields_of r st]
      | _, _ => []
      end
  | _ :: s' =>
      match skip with
      | S skip' => findall_from r s' skip'
      | O =>
          match exec (prog r) mstate0 s with
          | Some (st, rest) =>
              fields_of r st
              :: findall_from r s' (List.length s - List.length rest - 1)
          | None => findall_from r s' 0
          end
      end
  end.

(** [regex.findall(line)] for a pattern with at least two groups: the list
    of the matches from left to right, each a tuple of group texts. *)
Definition findall (r : regex) (line : string) : list (list string) :=
  findall_from r (list_ascii_of_string line) 0.

(** Quantifiers that take at least one character. *)
Definition at_least_one (q : quant) : bool :=
  match q with
  | One | Plus | PlusLazy => true
  | Star | StarLazy | Opt | OptLazy => false
  end.

(** The least number of white-space characters a match of [l] holds: one
    for each [\s] that cannot be empty. *)
Definition min_spaces (l : list instr) : nat :=
  List.length
    (filter (fun i => match i with
                      | IChar CSpace q => at_least_one q
                      | _ => false
                      end) l).

End Re.

(** ** Dictionaries

    A Python [dict] keeps its keys in insertion order, and the report is
    printed in that order: an association list without repeated keys. *)

Module Dict.

Definition dict (V : Type) : Type := list (string * V).

Fixpoint get {V : Type} (d : dict V) (k : string) : option V :=
  match d with
  | [] => None
  | (k', v) :: d' => if String.eqb k' k then Some v else get d' k
  end.

(** [d[k]] *)
Definition item {V : Type} (d : dict V) (k : string) : result V :=
  match get d k with
  | Some v => Ok v
  | None => Raise KeyError
  end.

(** [k in d] *)
Definition mem {V : Type} (k : string) (d : dict V) : bool :=
  match get d k with
  | Some _ => true
  | None => false
  end.

(** [d[k] = v]: a key already present keeps its place. *)
Fixpoint set {V : Type} (d : dict V) (k : string) (v : V) : dict V :=
  match d with
  | [] => [(k, v)]
  | (k', v') :: d' =>
      if String.eqb k' k then (k, v) :: d' else (k', v') :: set d' k v
  end.

(** [del d[k]] for a key that is present. *)
Fixpoint del {V : Type} (d : dict V) (k : string) : dict V :=
  match d with
  | [] => []
  | (k', v') :: d' => if String.eqb k' k then d' else (k', v') :: del d' k
  end.

(** [list(d.keys())] *)
Definition keys {V : Type} (d : dict V) : list string := map fst d.

End Dict.

(** ** The program *)

Import Dict.

Local Open Scope string_scope.

(** The global [config] object. *)
Record Config : Type :=
  { client : option string;
    log_file : string;
    interval : Z;
    min_count : Z }.

Definition field_order : list string :=
  ["timestamp"; "duration"; "client"; "result_code"; "bytes"; "method";
   "url"; "user"; "hierarchy_code"; "type"].

(** [str.lower()] on code points below 256. *)
Definition lower_char (a : ascii) : ascii :=
  let n := nat_of_ascii a in
  if (((65 <=? n) && (n <=? 90))
      || ((192 <=? n) && (n <=? 222) && negb (n =? 215)))%nat
  then ascii_of_nat (n + 32) else a.

Fixpoint lower (s : string) : string :=
  match s with
  | EmptyString => EmptyString
  | String a s' => String (lower_char a) (lower s')
  end.

(** Truth value of [config["client"]]: [None] and [''] are false. *)
Definition truthy (c : option string) : bool :=
  match c with
  | Some (String _ _) => true
  | _ => false
  end.

(** A [for] loop over [l] whose body may raise: the exception ends it. *)
Fixpoint foldM {A B : Type} (f : A -> B -> result A) (l : list B) (a : A)
    : result A :=
  match l with
  | [] => Ok a
  | b :: l' => a' <- f a b ;; foldM f l' a'
  end.

Fixpoint mapM {A B : Type} (f : A -> result B) (l : list A)
    : result (list B) :=
  match l with
  | [] => Ok []
  | a :: l' => b <- f a ;; bs <- mapM f l' ;; Ok (b :: bs)
  end.

(** [build_regex_str(fields)] *)
Definition build_regex_str (config : Config) (fields : list string)
    : result string :=
  let regex_strs : dict string :=
    [("timestamp", "\d+\.\d+");
     ("duration", "\d+");
     ("client", ".*?");
     ("result_code", ".*?/.*?");
     ("bytes", "\d+?");
     ("method", ".*?");
     ("url", ".*?");
     ("user", ".*?");
     ("hierarchy_code", ".*?");
     ("type", ".*?")] in
  let fields := map lower fields in
  regex_strs <-
    foldM
      (fun regex_strs field =>
         if mem field regex_strs then
           regex_str <- item regex_strs field ;;
           Ok (set regex_strs field ("(" ++ regex_str ++ ")"))
         else Ok regex_strs)
      fields regex_strs ;;
  let regex_strs :=
    if truthy (client config) then
      let c := match client config with Some c => c | None => "" end in
      if existsb (String.eqb "client") fields
      then set regex_strs "client" ("(" ++ c ++ ")")
      else set regex_strs "client" ("(?:" ++ c ++ ")")
    else regex_strs in
  strs <- mapM (item regex_strs) field_order ;;
  Ok (String.concat "\s+" strs).

(** What a URL's entry of [time_data] holds: its timestamps during the
    scan, its beacon count in the end. *)
Inductive value : Type :=
| Timestamps (l : list Q)
| BeaconCount (n : Z).

Definition digit_value (a : ascii) : Z := Z.of_nat (nat_of_ascii a - 48).

(** The number that a run of decimal digits makes when read after the
    digits of [num], as an integer ([read_int]) and as the fraction over
    [den] that the digits past the dot make ([read_frac]); [None] when a
    character is not a digit. *)
Fixpoint read_int (s : list ascii) (num : Z) : option Z :=
  match s with
  | [] => Some num
  | a :: s' =>
      if Re.is_digit a then read_int s' (num * 10 + digit_value a) else None
  end.

Fixpoint read_frac (s : list ascii) (num : Z) (den : positive) : option Q :=
  match s with
  | [] => Some (Qmake num den)
  | a :: s' =>
      if Re.is_digit a
      then read_frac s' (num * 10 + digit_value a) (den * 10)
      else None
  end.

Fixpoint split_dot (s : list ascii) : list ascii * option (list ascii) :=
  match s with
  | [] => ([], None)
  | a :: s' =>
      if Ascii.eqb a "." then ([], Some s')
      else let '(i, f) := split_dot s' in (a :: i, f)
  end.

(** [float(s)] for the plain decimal texts [12], [12.5], [12.] and [.5];
    signs, exponents, blanks, underscores, [inf] and [nan] are not
    modelled, and any other text raises [ValueError]. *)
Definition float (s : string) : result Q :=
  let '(i, f) := split_dot (list_ascii_of_string s) in
  match i, f with
  | [], None | [], Some [] => Raise ValueError
  | _, None =>
      match read_int i 0 with
      | Some n => Ok (Qmake n 1)
      | None => Raise ValueError
      end
  | _, Some f' =>
      match read_int i 0 with
      | Some n =>
          match read_frac f' n 1 with
          | Some q => Ok q
          | None => Raise ValueError
          end
      | None => Raise ValueError
      end
  end.

(** [t[i]] on a tuple *)
Definition tuple_item (t : list string) (i : nat) : result string :=
  match nth_error t i with
  | Some x => Ok x
  | None => Raise IndexError
  end.

(** One turn of the first loop (lines 197-214): the line's timestamp is
    appended to the series of its URL. *)
Definition observe (regex : Re.regex) (time_data : dict value) (line : string)
    : result (dict value) :=
  match Re.findall regex line with
  | [] => Ok time_data
  | current_fields :: _ =>
      text <- tuple_item current_fields 0 ;;
      timestamp <- float text ;;
      url <- tuple_item current_fields 2 ;;
      if mem url time_data then
        v <- item time_data url ;;
        match v with
        | Timestamps l => Ok (set time_data url (Timestamps (l ++ [timestamp])))
        | BeaconCount _ => Raise AttributeError
        end
      else Ok (set time_data url (Timestamps [timestamp]))
  end.

(** One turn of the second loop (lines 217-248). *)
Definition analyse (interval min_count : Z) (time_data : dict value)
    (url : string) : result (dict value) :=
  v <- item time_data url ;;
  match v with
  | BeaconCount _ => Raise TypeError
  | Timestamps l =>
      if (List.length l =? 1)%nat then Ok (del time_data url)
      else
        let timestamps := Detector.sort_reverse l in
        let beacon_count := Detector.count_beacons interval timestamps in
        if (beacon_count >=? min_count)%Z
        then Ok (set time_data url (BeaconCount beacon_count))
        else Ok (del time_data url)
  end.

(** [str(n)] *)
Definition str (n : Z) : string := NilZero.string_of_int (Z.to_int n).

Fixpoint spaces (n : nat) : string :=
  match n with
  | O => ""
  | S n' => String " " (spaces n')
  end.

(** ["{:5}".format(n)]: right-aligned in a field of width 5. *)
Definition format5 (n : Z) : string :=
  let s := str n in spaces (5 - String.length s) ++ s.

(** The report (lines 250-263): the lines printed. *)
Definition report (interval min_count : Z) (time_data : dict value)
    : result (list string) :=
  match time_data with
  | _ :: _ =>
      rows <-
        mapM
          (fun url =>
             v <- item time_data url ;;
             match v with
             | BeaconCount n => Ok (format5 n ++ " - " ++ url)
             | Timestamps _ => Raise TypeError
             end)
          (keys time_data) ;;
      Ok (("Sites that had at least " ++ str min_count ++ " "
           ++ str interval ++ "-second intervals") :: rows)
  | [] =>
      Ok ["No sites with at least " ++ str min_count ++ " intervals at "
          ++ str interval ++ " seconds"]
  end.

(** The value of [time_data] when the first loop ends. *)
Definition aggregate (config : Config) (lines : list string)
    : result (dict value) :=
  pattern <- build_regex_str config ["timestamp"; "client"; "url"] ;;
  regex <- Re.compile pattern ;;
  foldM (observe regex) lines [].

(** The value of [time_data] when the second loop ends. *)
Definition detect (config : Config) (time_data : dict value)
    : result (dict value) :=
  foldM (analyse (interval config) (min_count config)) (keys time_data)
    time_data.

(** [find_beacons()], given the lines of the log file: the final
    [time_data] and the lines printed. *)
Definition find_beacons (config : Config) (lines : list string)
    : result (dict value * list string) :=
  time_data <- aggregate config lines ;;
  time_data <- detect config time_data ;;
  out <- report (interval config) (min_count config) time_data ;;
  Ok (time_data, out).

(** What the second loop makes of one entry of [time_data]: the count it
    stores, or [None] when it deletes the entry.  Used to state what
    [detect] returns. *)
Definition verdict (interval min_count : Z) (v : value) : option value :=
  match v with
  | Timestamps l =>
      if (List.length l =? 1)%nat then None
      else
        let beacon_count :=
          Detector.count_beacons interval (Detector.sort_reverse l) in
        if (beacon_count >=? min_count)%Z
        then Some (BeaconCount beacon_count) else None
  | BeaconCount _ => None
  end.

Fixpoint survivors (interval min_count : Z) (time_data : dict value)
    : dict value :=
  match time_data with
  | [] => []
  | (url, v) :: d =>
      match verdict interval min_count v with
      | Some v' => (url, v') :: survivors interval min_count d
      | None => survivors interval min_count d
      end
  end.

(** The state of [time_data] during and after the first loop: no key
    twice, and every value a non-empty list of timestamps. *)
Definition is_series (v : value) : Prop :=
  match v with
  | Timestamps (_ :: _) => True
  | _ => False
  end.

Definition scanned (d : dict value) : Prop :=
  NoDup (keys d) /\ Forall (fun kv => is_series (snd kv)) d.

(** The same configuration with another threshold. *)
Definition with_min_count (config : Config) (m : Z) : Config :=
  {| client := client config;
     log_file := log_file config;
     interval := interval config;
     min_count := m |}.

Definition nl : string := String Re.newline "".

Definition cfg5 : Config :=
  {| client := Some "10.0.0.5"; log_file := "access.log"; interval := 5; min_count := 3 |}.

(** The compiled line pattern of [cfg5]. *)
Definition regex5 : Re.regex :=
  Eval vm_compute in
    match build_regex_str cfg5 ["timestamp"; "client"; "url"] with
    | Ok pattern =>
        match Re.compile pattern with
        | Ok r => r
        | Raise _ => {| Re.prog := []; Re.ngroups := 0 |}
        end
    | Raise _ => {| Re.prog := []; Re.ngroups := 0 |}
    end.

(** A log line in Squid's native format. *)
Definition access (timestamp client url : string) : string :=
  timestamp ++ " 12 " ++ client ++ " TCP_MISS/200 512 GET " ++ url
  ++ " - DIRECT/1.2.3.4 text/html" ++ nl.

(** Client 10.0.0.5 requests /beacon every five seconds, four times. *)
Definition log4 : list string :=
  [access "100.0" "10.0.0.5" "/beacon";
   access "105.0" "10.0.0.5" "/beacon";
   access "110.0" "10.0.0.5" "/beacon";
   access "115.0" "10.0.0.5" "/beacon"].

(** Requests of /beacon at 50.0, 100.0 and 105.9. *)
Definition log59 : list string :=
  [access "50.0" "10.0.0.5" "/beacon";
   access "100.0" "10.0.0.5" "/beacon";
   access "105.9" "10.0.0.5" "/beacon"].

(** The same with a request of /page and a fifth and sixth beacon. *)
Definition log6 : list string :=
  log4 ++ [access "117.5" "10.0.0.5" "/page";
           access "120.0" "10.0.0.5" "/beacon";
           access "125.0" "10.0.0.5" "/beacon"].

(** ** Lines and patterns

    The definitions below serve to state what the line pattern does; the
    program does not use them. *)

(** The white-space-separated fields of a line ([line.split()]): the
    reading of a log line that the input format of the specification
    gives.  The program itself never splits a line. *)
Fixpoint split_aux (s cur : list ascii) : list (list ascii) :=
  match s with
  | [] => match cur with [] => [] | _ :: _ => [rev cur] end
  | a :: s' =>
      if Re.is_space a then
        match cur with
        | [] => split_aux s' []
        | _ :: _ => rev cur :: split_aux s' []
        end
      else split_aux s' (a :: cur)
  end.

Definition split_fields (line : string) : list string :=
  map string_of_list_ascii (split_aux (list_ascii_of_string line) []).

(** A target client made of literal characters and dots, and not empty. *)
Definition plain_char (a : ascii) : bool :=
  negb (Re.is_special a) || Ascii.eqb a ".".

Definition plain (c : string) : bool :=
  match c with
  | EmptyString => false
  | String _ _ => forallb plain_char (list_ascii_of_string c)
  end.

(** What one character of a plain target becomes in the pattern. *)
Definition atom_of (a : ascii) : Re.cclass :=
  if Ascii.eqb a "." then Re.CAny else Re.CLit a.

(** The text of the line pattern before and after the target client. *)
Definition pre_text : string := "(\d+\.\d+)\s+\d+\s+".

Definition post_text : string :=
  "\s+.*?/.*?\s+\d+?\s+.*?\s+(.*?)\s+.*?\s+.*?\s+.*?".

(** The compiled line pattern for a plain target client. *)
Definition line_prog (c : list ascii) : list Re.instr :=
  [Re.IOpen 1; Re.IChar Re.CDigit Re.Plus; Re.IChar (Re.CLit ".") Re.One;
   Re.IChar Re.CDigit Re.Plus; Re.IClose 1; Re.IChar Re.CSpace Re.Plus;
   Re.IChar Re.CDigit Re.Plus; Re.IChar Re.CSpace Re.Plus; Re.IOpen 2]
  ++ map (fun a => Re.IChar (atom_of a) Re.One) c
  ++ [Re.IClose 2; Re.IChar Re.CSpace Re.Plus; Re.IChar Re.CAny Re.StarLazy;
      Re.IChar (Re.CLit "/") Re.One; Re.IChar Re.CAny Re.StarLazy;
      Re.IChar Re.CSpace Re.Plus; Re.IChar Re.CDigit Re.PlusLazy;
      Re.IChar Re.CSpace Re.Plus; Re.IChar Re.CAny Re.StarLazy;
      Re.IChar Re.CSpace Re.Plus; Re.IOpen 3; Re.IChar Re.CAny Re.StarLazy;
      Re.IClose 3; Re.IChar Re.CSpace Re.Plus; Re.IChar Re.CAny Re.StarLazy;
      Re.IChar Re.CSpace Re.Plus; Re.IChar Re.CAny Re.StarLazy;
      Re.IChar Re.CSpace Re.Plus; Re.IChar Re.CAny Re.StarLazy].

Definition line_regex (c : string) : Re.regex :=
  {| Re.prog := line_prog (list_ascii_of_string c); Re.ngroups := 3 |}.

(** The number of white-space characters of a text. *)
Definition count_space (s : list ascii) : nat :=
  List.length (filter Re.is_space s).

(** [matches_here c s]: the plain target [c] matches at the start of [s],
    each dot standing for any character but a newline; the result is what
    follows the match. *)
Fixpoint matches_here (c s : list ascii) : option (list ascii) :=
  match c with
  | [] => Some s
  | a :: c' =>
      match s with
      | b :: s' => if Re.test (atom_of a) b then matches_here c' s' else None
      | [] => None
      end
  end.

(** The target matches a piece of the text that stands between two
    white-space characters. *)
Fixpoint client_occurs (c s : list ascii) : bool :=
  match s with
  | [] => false
  | a :: s' =>
      (Re.is_space a
       && match matches_here c s' with
          | Some (b :: _) => Re.is_space b
          | _ => false
          end)
      || client_occurs c s'
  end.

Fixpoint drop_while (f : ascii -> bool) (s : list ascii) : list ascii :=
  match s with
  | [] => []
  | a :: s' => if f a then drop_while f s' else s
  end.

(** The text starts as a record does: a digit, a dot and digits, then
    white space, then a digit. *)
Definition stamp_here (s : list ascii) : bool :=
  match s with
  | a :: b :: c :: r =>
      Re.is_digit a && Ascii.eqb b "." && Re.is_digit c
      && match drop_while Re.is_digit r with
         | x :: r' =>
             Re.is_space x
             && match drop_while Re.is_space r' with
                | y :: _ => Re.is_digit y
                | [] => false
                end
         | [] => false
         end
  | _ => false
  end.

(** Some place of the text starts as a record does. *)
Fixpoint has_stamp (s : list ascii) : bool :=
  match s with
  | [] => false
  | _ :: s' => stamp_here s || has_stamp s'
  end.

(** A line of another client, whose name the target 10.0.0.5 matches as a
    pattern. *)
Definition line_other_client : string :=
  access "100.0" "10-0-0-5" "/beacon".

(** The other client requests /beacon every five seconds, six times. *)
Definition log_other_client : list string :=
  [access "100.0" "10-0-0-5" "/beacon";
   access "105.0" "10-0-0-5" "/beacon";
   access "110.0" "10-0-0-5" "/beacon";
   access "115.0" "10-0-0-5" "/beacon";
   access "120.0" "10-0-0-5" "/beacon";
   access "125.0" "10-0-0-5" "/beacon"].

(** A line of nine fields: the content type is missing. *)
Definition line_nine_fields : string :=
  "100.0 12 10.0.0.5 TCP_MISS/200 512 GET /beacon - DIRECT/1.2.3.4" ++ nl.

(** A line whose first field is not a number. *)
Definition line_bad_timestamp : string :=
  access "x100.0" "10.0.0.5" "/beacon".

(** Lines the pattern does not match: cut after the result code, and with
    a word for a timestamp. *)
Definition line_cut : string :=
  "100.0 12 10.0.0.5 TCP_MISS/200" ++ nl.

Definition line_word_timestamp : string :=
  access "yesterday" "10.0.0.5" "/beacon".

(** Two clients with the same requests, five seconds apart. *)
Definition log_two_clients : list string :=
  [access "100.0" "10.0.0.5" "/beacon"; access "100.0" "10.0.0.6" "/other";
   access "105.0" "10.0.0.5" "/beacon"; access "105.0" "10.0.0.6" "/other";
   access "110.0" "10.0.0.5" "/beacon"; access "110.0" "10.0.0.6" "/other";
   access "115.0" "10.0.0.5" "/beacon"; access "115.0" "10.0.0.6" "/other";
   access "120.0" "10.0.0.5" "/beacon"; access "120.0" "10.0.0.6" "/other"].

(** ** Records, tables and lines

    The definitions below serve to state what the functions of the
    program do; the program does not use them. *)

(** The table of field patterns that [build_regex_str] starts from
    (lines 60-71). *)
Definition regex_strs0 : dict string :=
  [("timestamp", "\d+\.\d+"); ("duration", "\d+"); ("client", ".*?");
   ("result_code", ".*?/.*?"); ("bytes", "\d+?"); ("method", ".*?");
   ("url", ".*?"); ("user", ".*?"); ("hierarchy_code", ".*?");
   ("type", ".*?")].

(** What the loop of lines 79-91 does to the table for one field name: the
    pattern of that field, if there is one, gets parentheses. *)
Definition mark (field : string) (regex_strs : dict string) : dict string :=
  map (fun kv =>
         if String.eqb (fst kv) field
         then (fst kv, "(" ++ snd kv ++ ")")
         else kv)
      regex_strs.

(** What a turn of the first loop reads in a line (lines 198-207): the URL
    and the timestamp of the first match, [None] when the pattern finds no
    match. *)
Definition record_of (regex : Re.regex) (line : string)
    : result (option (string * Q)) :=
  match Re.findall regex line with
  | [] => Ok None
  | current_fields :: _ =>
      text <- tuple_item current_fields 0 ;;
      timestamp <- float text ;;
      url <- tuple_item current_fields 2 ;;
      Ok (Some (url, timestamp))
  end.

(** The records of a log, in file order. *)
Fixpoint records (regex : Re.regex) (lines : list string)
    : result (list (string * Q)) :=
  match lines with
  | [] => Ok []
  | line :: lines' =>
      r <- record_of regex line ;;
      rs <- records regex lines' ;;
      Ok match r with
         | Some x => x :: rs
         | None => rs
         end
  end.

(** The timestamps of the records of one URL, in the order of the
    records. *)
Definition series_of (url : string) (rs : list (string * Q)) : list Q :=
  map snd (filter (fun r => String.eqb (fst r) url) rs).

(** The strings of a list in the order of their first occurrence. *)
Fixpoint first_seen (l : list string) : list string :=
  match l with
  | [] => []
  | u :: l' => u :: filter (fun v => negb (String.eqb v u)) (first_seen l')
  end.

(** The series that a table holds for a URL, [[]] when it holds none. *)
Definition series (d : dict value) (url : string) : list Q :=
  match get d url with
  | Some (Timestamps l) => l
  | _ => []
  end.

(** Texts of one kind of character: a number, a blank between two fields,
    a field without white space. *)
Definition not_space (a : ascii) : bool := negb (Re.is_space a).

Definition not_slash (a : ascii) : bool := negb (Ascii.eqb a "/").

Definition digits (s : string) : bool :=
  match s with
  | EmptyString => false
  | String _ _ => forallb Re.is_digit (list_ascii_of_string s)
  end.

Definition blank (s : string) : bool :=
  match s with
  | EmptyString => false
  | String _ _ => forallb Re.is_space (list_ascii_of_string s)
  end.

Definition solid (s : string) : bool :=
  forallb not_space (list_ascii_of_string s).

Definition word (s : string) : bool :=
  match s with
  | EmptyString => false
  | String _ _ => solid s
  end.

Definition no_slash (s : string) : bool :=
  forallb not_slash (list_ascii_of_string s).

(** A run of characters of one kind that is not empty. *)
Definition run (f : ascii -> bool) (w : list ascii) : Prop :=
  w <> [] /\ forallb f w = true.

(** The text does not start with a character of the class. *)
Definition stops (c : ascii -> bool) (s : list ascii) : Prop :=
  match s with
  | [] => True
  | b :: _ => c b = false
  end.

(** A line of the log read as Squid writes it: the ten fields of
    [field_order], the blanks between them, and what follows the last
    field.  The timestamp is [seconds.millis] and the result code
    [result/code]. *)
Record squid_line : Type :=
  { f_seconds : string; f_millis : string; gap1 : string;
    f_duration : string; gap2 : string;
    f_client : string; gap3 : string;
    f_result : string; f_code : string; gap4 : string;
    f_bytes : string; gap5 : string;
    f_method : string; gap6 : string;
    f_url : string; gap7 : string;
    f_user : string; gap8 : string;
    f_hierarchy_code : string; gap9 : string;
    f_type : string; f_end : string }.

Definition f_timestamp (l : squid_line) : string :=
  f_seconds l ++ "." ++ f_millis l.

(** The text of the line. *)
Definition render (l : squid_line) : string :=
  f_timestamp l ++ gap1 l ++ f_duration l ++ gap2 l ++ f_client l ++ gap3 l
  ++ f_result l ++ "/" ++ f_code l ++ gap4 l ++ f_bytes l ++ gap5 l
  ++ f_method l ++ gap6 l ++ f_url l ++ gap7 l ++ f_user l ++ gap8 l
  ++ f_hierarchy_code l ++ gap9 l ++ f_type l ++ f_end l.

(** The plain target [c] matches the whole of the text [s]. *)
Definition matches_all (c s : string) : bool :=
  match matches_here (list_ascii_of_string c) (list_ascii_of_string s) with
  | Some [] => true
  | _ => false
  end.

(** The fields are what their names say. *)
Definition well_shaped (l : squid_line) : bool :=
  digits (f_seconds l) && digits (f_millis l) && blank (gap1 l)
  && digits (f_duration l) && blank (gap2 l)
  && word (f_client l) && blank (gap3 l)
  && solid (f_result l) && no_slash (f_result l) && solid (f_code l)
  && blank (gap4 l)
  && digits (f_bytes l) && blank (gap5 l)
  && word (f_method l) && blank (gap6 l)
  && word (f_url l) && blank (gap7 l)
  && word (f_user l) && blank (gap8 l)
  && word (f_hierarchy_code l) && blank (gap9 l)
  && word (f_type l).

(** The same, with a client field that the target [c] matches. *)
Definition well_formed (c : string) (l : squid_line) : bool :=
  well_shaped l && matches_all c (f_client l).

(** The pattern after the URL: a blank, and two more fields with the
    blanks before them. *)
Definition after_url : list Re.instr :=
  [Re.IChar Re.CSpace Re.Plus; Re.IChar Re.CAny Re.StarLazy;
   Re.IChar Re.CSpace Re.Plus; Re.IChar Re.CAny Re.StarLazy;
   Re.IChar Re.CSpace Re.Plus; Re.IChar Re.CAny Re.StarLazy].

(** The line pattern before and after the client: [line_prog c] is
    [before_client], the characters of [c] and [after_client]. *)
Definition before_client : list Re.instr :=
  [Re.IOpen 1; Re.IChar Re.CDigit Re.Plus; Re.IChar (Re.CLit ".") Re.One;
   Re.IChar Re.CDigit Re.Plus; Re.IClose 1; Re.IChar Re.CSpace Re.Plus;
   Re.IChar Re.CDigit Re.Plus; Re.IChar Re.CSpace Re.Plus; Re.IOpen 2].

Definition after_client : list Re.instr :=
  [Re.IClose 2; Re.IChar Re.CSpace Re.Plus; Re.IChar Re.CAny Re.StarLazy;
   Re.IChar (Re.CLit "/") Re.One; Re.IChar Re.CAny Re.StarLazy;
   Re.IChar Re.CSpace Re.Plus; Re.IChar Re.CDigit Re.PlusLazy;
   Re.IChar Re.CSpace Re.Plus; Re.IChar Re.CAny Re.StarLazy;
   Re.IChar Re.CSpace Re.Plus; Re.IOpen 3; Re.IChar Re.CAny Re.StarLazy;
   Re.IClose 3]
  ++ after_url.

(** The compiled line pattern when no target is set: the client is the
    [(.*?)] of the table. *)
Definition any_client_regex : Re.regex :=
  {| Re.prog := before_client ++ [Re.IChar Re.CAny Re.StarLazy] ++ after_client;
     Re.ngroups := 3 |}.

(** The numbers that a binary64 float holds: [m * 2^e] with [|m| < 2^53]
    and [-1074 <= e <= 971].  A fraction in lowest terms is one of them
    when its denominator is a power of two, not above [2^1074], the odd
    part of its numerator is below [2^53], and it is below [2^1024]. *)
Fixpoint twos (p : positive) : nat :=
  match p with
  | xO p' => S (twos p')
  | _ => O
  end.

Fixpoint odd_part (p : positive) : positive :=
  match p with
  | xO p' => odd_part p'
  | _ => p
  end.

Definition is_double (q : Q) : bool :=
  let r := Qred q in
  match Qnum r with
  | Z0 => true
  | Zpos n | Zneg n =>
      match odd_part (Qden r) with
      | xH =>
          Z.ltb (Z.pos (odd_part n)) (2 ^ 53)
          && Z.leb (-1074) (Z.of_nat (twos n) - Z.of_nat (twos (Qden r)))
          && Z.ltb (Z.log2 (Z.pos n) - Z.of_nat (twos (Qden r))) 1024
      | _ => false
      end
  end.

(** Requests of /beacon at 0.7, 5.7 and 10.7: no binary64 float holds one
    of these. *)
Definition log07 : list string :=
  [access "0.7" "10.0.0.5" "/beacon";
   access "5.7" "10.0.0.5" "/beacon";
   access "10.7" "10.0.0.5" "/beacon"].

(** The line that [access timestamp client url] writes, field by field. *)
Definition squid_access (secs ms client url : string) : squid_line :=
  {| f_seconds := secs; f_millis := ms; gap1 := " ";
     f_duration := "12"; gap2 := " ";
     f_client := client; gap3 := " ";
     f_result := "TCP_MISS"; f_code := "200"; gap4 := " ";
     f_bytes := "512"; gap5 := " ";
     f_method := "GET"; gap6 := " ";
     f_url := url; gap7 := " ";
     f_user := "-"; gap8 := " ";
     f_hierarchy_code := "DIRECT/1.2.3.4"; gap9 := " ";
     f_type := "text/html"; f_end := nl |}.

(** Two requests of /beacon, five seconds apart. *)
Definition log2 : list string :=
  [access "100.0" "10.0.0.5" "/beacon";
   access "105.0" "10.0.0.5" "/beacon"].

(** A configuration with an interval below zero. *)
Definition cfg_negative : Config :=
  {| client := Some "10.0.0.5"; log_file := "access.log";
     interval := -5; min_count := 1 |}.

(** A configuration with an empty target. *)
Definition cfg_any : Config :=
  {| client := Some ""; log_file := "access.log";
     interval := 5; min_count := 3 |}.

(** The same configuration with another target. *)
Definition with_target (config : Config) (c : string) : Config :=
  {| client := Some c;
     log_file := log_file config;
     interval := interval config;
     min_count := min_count config |}.

(** * Properties *)

Local Close Scope string_scope.
Local Open Scope list_scope.
Local Open Scope Z_scope.

(** ** The detector *)

Module DetectorFacts.
Import Detector.

(** *** Truncation *)

Lemma int_of_float_self (t : Q) : int_of_float (t - t) = 0.
Proof.
  unfold int_of_float; simpl.
  replace (Qnum t * Z.pos (Qden t) + - Qnum t * Z.pos (Qden t)) with 0 by ring.
  apply Z.quot_0_l. discriminate.
Qed.

Lemma int_of_float_floor (q : Q) : (0 <= q)%Q -> int_of_float q = Qfloor q.
Proof.
  destruct q as [n d]; unfold Qle, int_of_float, Qfloor; simpl; intros H.
  apply Z.quot_div_nonneg; lia.
Qed.

Lemma int_of_float_inject (q : Q) (z : Z) :
  (q == inject_Z z)%Q -> int_of_float q = z.
Proof.
  destruct q as [n d]; unfold Qeq, int_of_float; simpl; intros H.
  rewrite Z.mul_1_r in H; subst n. apply Z.quot_mul. discriminate.
Qed.

Lemma int_of_float_le (p q : Q) :
  (0 <= p)%Q -> (p <= q)%Q -> int_of_float p <= int_of_float q.
Proof.
  intros Hp Hpq.
  rewrite !int_of_float_floor by (try assumption; eapply Qle_trans; eassumption).
  apply Qfloor_resp_le; assumption.
Qed.

(** A value in [[z, z+1)] truncates to [z]. *)
Lemma int_of_float_between (q : Q) (z : Z) :
  0 <= z -> (inject_Z z <= q)%Q -> (q < inject_Z (z + 1))%Q ->
  int_of_float q = z.
Proof.
  intros Hz Hlo Hhi.
  assert (H0 : (0 <= q)%Q).
  { eapply Qle_trans; [|exact Hlo]. unfold Qle; simpl; lia. }
  rewrite int_of_float_floor by assumption.
  pose proof (Qfloor_resp_le _ _ Hlo) as L. rewrite Qfloor_Z in L.
  assert (U : (Qfloor q < z + 1)%Z).
  { apply Z.lt_nge; intros C. apply Qlt_not_le in Hhi; apply Hhi.
    eapply Qle_trans; [|apply Qfloor_le].
    rewrite <- Zle_Qle. exact C. }
  lia.
Qed.

Section Loops.
Variable interval : Z.

Lemma inner_loop_scan (w pre tail : list Q) (t : Q) (c : Z) :
  inner_loop interval (pre ++ w ++ tail) t
    (seq (List.length pre) (List.length w)) c
  = scan interval t w c.
Proof.
  revert pre; induction w as [|x w IH]; intros pre; simpl; [reflexivity|].
  rewrite app_nth2, Nat.sub_diag by lia; simpl.
  destruct (_ =? interval); [reflexivity|].
  destruct (_ >? interval); [reflexivity|].
  specialize (IH (pre ++ [x])).
  rewrite <- app_assoc, length_app, Nat.add_1_r in IH. exact IH.
Qed.

Lemma outer_loop_count_from (ts : list Q) (x : Q) (suf pre : list Q) (c : Z) :
  ts = pre ++ suf ++ [x] ->
  fold_left
    (fun beacon_count '(cur_index, timestamp) =>
       inner_loop interval ts timestamp
         (range cur_index (List.length ts - 1)) beacon_count)
    (combine (seq (List.length pre) (List.length suf)) suf) c
  = count_from interval suf c.
Proof.
  revert pre c; induction suf as [|t suf IH]; intros pre c E; [reflexivity|].
  cbn [List.length seq combine fold_left count_from].
  assert (R : range (List.length pre) (List.length ts - 1)
              = seq (List.length pre) (List.length (t :: suf))).
  { unfold range; f_equal. subst ts. rewrite !length_app. simpl. lia. }
  rewrite R. rewrite E at 1. rewrite inner_loop_scan.
  specialize (IH (pre ++ [t])).
  rewrite length_app, Nat.add_1_r in IH. apply IH.
  rewrite E, <- app_assoc. reflexivity.
Qed.

(** The count is the outer loop over the suffixes of [timestamps[:-1]]. *)
Lemma count_beacons_count_from (ts : list Q) :
  count_beacons interval ts = count_from interval (removelast ts) 0.
Proof.
  assert (D : ts = [] \/ ts <> []) by (destruct ts; [left|right]; easy).
  destruct D as [->|N]; [reflexivity|].
  pose proof (app_removelast_last 0%Q N) as E.
  unfold count_beacons, enumerate.
  exact (outer_loop_count_from ts _ (removelast ts) [] 0 E).
Qed.

(** Each starting timestamp adds at most one match. *)
Lemma scan_bounds (t : Q) (w : list Q) (c : Z) :
  c <= scan interval t w c <= c + 1.
Proof.
  induction w as [|x w IH]; simpl; [lia|].
  destruct (_ =? interval); [lia|].
  destruct (_ >? interval); [lia|exact IH].
Qed.

(** A timestamp compared with itself alone adds nothing. *)
Lemma scan_self (t : Q) (c : Z) :
  interval <> 0 -> scan interval t [t] c = c.
Proof.
  intros H; simpl. rewrite int_of_float_self.
  destruct (0 =? interval) eqn:E; [apply Z.eqb_eq in E; lia|].
  destruct (0 >? interval); reflexivity.
Qed.

Lemma count_from_lower (body : list Q) (c : Z) :
  c <= count_from interval body c.
Proof.
  revert c; induction body as [|t rest IH]; intros c; simpl; [lia|].
  etransitivity; [|apply IH].
  pose proof (scan_bounds t (t :: rest) c) as B. simpl in B. lia.
Qed.

Lemma count_from_upper (body : list Q) (c : Z) :
  interval <> 0 -> body <> [] ->
  count_from interval body c <= c + Z.of_nat (List.length body) - 1.
Proof.
  intros HI; revert c; induction body as [|t rest IH]; intros c N; [easy|].
  destruct rest as [|t' rest'].
  - cbn [count_from]. rewrite scan_self by assumption. simpl. lia.
  - cbn [count_from] in *.
    etransitivity; [apply IH; discriminate|].
    pose proof (scan_bounds t (t :: t' :: rest') c) as B.
    cbn [List.length] in *. lia.
Qed.

Lemma count_beacons_nonneg (ts : list Q) : 0 <= count_beacons interval ts.
Proof. rewrite count_beacons_count_from. apply count_from_lower. Qed.

(** With a non-zero interval the count is at most the number of
    timestamps less two. *)
Lemma count_beacons_upper (ts : list Q) :
  interval <> 0 -> (2 <= List.length ts)%nat ->
  count_beacons interval ts <= Z.of_nat (List.length ts) - 2.
Proof.
  intros HI HL. rewrite count_beacons_count_from.
  assert (N : removelast ts <> []).
  { destruct ts as [|a [|b r]]; simpl in *; try lia; discriminate. }
  pose proof (count_from_upper (removelast ts) 0 HI N) as U.
  assert (L : List.length (removelast ts) = (List.length ts - 1)%nat).
  { destruct ts as [|a r]; [reflexivity|].
    rewrite (app_removelast_last 0%Q (l := a :: r)) at 2 by discriminate.
    rewrite length_app; simpl; lia. }
  rewrite L in U. lia.
Qed.

(** *** Chains *)

Lemma scan_chain (t y : Q) (w : list Q) (c : Z) :
  1 <= interval -> (t - y == inject_Z interval)%Q ->
  scan interval t (t :: y :: w) c = c + 1.
Proof.
  intros HI E. cbn [scan]. rewrite int_of_float_self.
  destruct (0 =? interval) eqn:E0; [apply Z.eqb_eq in E0; lia|].
  destruct (0 >? interval) eqn:E1; [apply Z.gtb_lt in E1; lia|].
  cbv zeta. rewrite (int_of_float_inject _ _ E), Z.eqb_refl. reflexivity.
Qed.

Lemma count_from_chain (body : list Q) (c : Z) :
  1 <= interval -> chain interval body -> body <> [] ->
  count_from interval body c = c + Z.of_nat (List.length body) - 1.
Proof.
  intros HI; revert c; induction body as [|t rest IH]; intros c HC N; [easy|].
  destruct rest as [|t' rest'].
  - cbn [count_from]. rewrite scan_self by lia. simpl. lia.
  - destruct HC as [E HC]. cbn [count_from] in *.
    rewrite (scan_chain t t' rest' c HI E).
    rewrite IH by (try assumption; discriminate).
    cbn [List.length]. lia.
Qed.

Lemma chain_removelast (l : list Q) :
  chain interval l -> chain interval (removelast l).
Proof.
  induction l as [|x l IH]; [easy|].
  destruct l as [|y l']; [easy|]. intros [E HC].
  specialize (IH HC).
  destruct l' as [|z l'']; [exact I|]. split; assumption.
Qed.

(** A chain of k timestamps counts k - 2 matches: the scan never reaches
    the oldest timestamp, so the last interval of the chain is missed. *)
Lemma count_beacons_chain (ts : list Q) :
  1 <= interval -> chain interval ts -> (2 <= List.length ts)%nat ->
  count_beacons interval ts = Z.of_nat (List.length ts) - 2.
Proof.
  intros HI HC HL. rewrite count_beacons_count_from.
  assert (N : removelast ts <> []).
  { destruct ts as [|a [|b r]]; simpl in *; try lia; discriminate. }
  rewrite (count_from_chain _ 0 HI (chain_removelast _ HC) N).
  assert (L : List.length (removelast ts) = (List.length ts - 1)%nat).
  { destruct ts as [|a r]; [reflexivity|].
    rewrite (app_removelast_last 0%Q (l := a :: r)) at 2 by discriminate.
    rewrite length_app; simpl; lia. }
  rewrite L. lia.
Qed.

(** The scan counts as soon as it meets a delta equal to the interval
    with no larger delta before it. *)
Lemma scan_first_match (t : Q) (w : list Q) (p : nat) (c : Z) :
  (p < List.length w)%nat ->
  int_of_float (t - nth p w 0%Q) = interval ->
  (forall q, (q < p)%nat -> int_of_float (t - nth q w 0%Q) <= interval) ->
  scan interval t w c = c + 1.
Proof.
  revert p; induction w as [|x w IH]; intros p L E B; simpl in L; [lia|].
  cbn [scan]. cbv zeta.
  destruct (int_of_float (t - x) =? interval) eqn:E0; [reflexivity|].
  destruct p as [|p]; [simpl in E; rewrite E, Z.eqb_refl in E0; discriminate|].
  pose proof (B 0%nat (Nat.lt_0_succ p)) as B0. simpl in B0.
  destruct (int_of_float (t - x) >? interval) eqn:E1;
    [apply Z.gtb_lt in E1; lia|].
  apply (IH p); [lia|exact E|].
  intros q Hq. apply (B (S q)). lia.
Qed.

(** The inner loop from [cur_index] is the scan of the window
    [timestamps[cur_index : timestamp_count - 1]]. *)
Lemma inner_loop_window (ts : list Q) (i : nat) (t : Q) (c : Z) :
  (i <= List.length ts - 1)%nat ->
  inner_loop interval ts t (range i (List.length ts - 1)) c
  = scan interval t (firstn (List.length ts - 1 - i) (skipn i ts)) c.
Proof.
  intros Hi.
  set (m := (List.length ts - 1 - i)%nat).
  set (pre := firstn i ts). set (w := firstn m (skipn i ts)).
  set (tail := skipn m (skipn i ts)).
  assert (E : pre ++ w ++ tail = ts).
  { unfold pre, w, tail. rewrite !firstn_skipn. reflexivity. }
  assert (Lp : List.length pre = i).
  { unfold pre. apply firstn_length_le. lia. }
  assert (Lw : List.length w = m).
  { unfold w. apply firstn_length_le. rewrite length_skipn. lia. }
  rewrite <- (inner_loop_scan w pre tail t c), E, Lp, Lw. reflexivity.
Qed.

End Loops.

(** *** Sorting *)

Lemma Forall_insert_desc (P : Q -> Prop) (x : Q) (l : list Q) :
  P x -> Forall P l -> Forall P (insert_desc x l).
Proof.
  intros Px F; induction F as [|y l Py F IH]; simpl.
  - constructor; [assumption|constructor].
  - destruct (Qle_bool y x); repeat constructor; assumption.
Qed.

Lemma insert_desc_descending (x : Q) (l : list Q) :
  descending l -> descending (insert_desc x l).
Proof.
  unfold descending. intros S; induction S as [|y l S IH F]; simpl.
  - constructor; constructor.
  - destruct (Qle_bool y x) eqn:E.
    + apply Qle_bool_iff in E. constructor; [constructor; assumption|].
      constructor; [exact E|].
      eapply Forall_impl; [|exact F]. intros b Hb. simpl in Hb.
      eapply Qle_trans; eassumption.
    + constructor; [exact IH|].
      apply Forall_insert_desc; [|exact F].
      destruct (Qlt_le_dec x y) as [H|H]; [apply Qlt_le_weak; exact H|].
      apply Qle_bool_iff in H. congruence.
Qed.

Lemma sort_reverse_descending (l : list Q) : descending (sort_reverse l).
Proof.
  induction l as [|x l IH]; simpl; [constructor|].
  apply insert_desc_descending; exact IH.
Qed.

Lemma descending_nth (l : list Q) (a b : nat) :
  descending l -> (a <= b)%nat -> (b < List.length l)%nat ->
  (nth b l 0 <= nth a l 0)%Q.
Proof.
  unfold descending. intros S; revert a b.
  induction S as [|x l S IH F]; intros a b Hab Hb; simpl in Hb; [lia|].
  destruct a as [|a], b as [|b]; simpl; try lia.
  - apply Qle_refl.
  - rewrite Forall_forall in F. apply F, nth_In. lia.
  - apply IH; lia.
Qed.

End DetectorFacts.

(** ** Dictionaries *)

Module DictFacts.
Import Dict.

Section Facts.
Context {V : Type}.
Implicit Types (d : dict V) (k : string) (v : V).

Lemma get_In d k v : get d k = Some v -> In (k, v) d.
Proof.
  induction d as [|[k' v'] d IH]; simpl; [discriminate|].
  destruct (String.eqb k' k) eqn:E.
  - apply String.eqb_eq in E. intros [= ->]. left; congruence.
  - intros H; right; auto.
Qed.

Lemma get_None d k : get d k = None <-> ~ In k (keys d).
Proof.
  induction d as [|[k' v'] d IH]; simpl; [tauto|].
  destruct (String.eqb k' k) eqn:E.
  - apply String.eqb_eq in E. split; [discriminate|]. intros H; exfalso; auto.
  - apply String.eqb_neq in E. rewrite IH. tauto.
Qed.

Lemma In_get d k v : NoDup (keys d) -> In (k, v) d -> get d k = Some v.
Proof.
  induction d as [|[k' v'] d IH]; simpl; [tauto|].
  intros ND [H|H].
  - injection H as -> ->. rewrite String.eqb_refl. reflexivity.
  - inversion ND as [|? ? N ND']; subst.
    destruct (String.eqb k' k) eqn:E; [|auto].
    apply String.eqb_eq in E; subst. exfalso; apply N.
    change k with (fst (k, v)). apply in_map. exact H.
Qed.

Lemma get_app_r d1 d2 k :
  ~ In k (keys d1) -> get (d1 ++ d2) k = get d2 k.
Proof.
  induction d1 as [|[k' v'] d1 IH]; simpl; [reflexivity|]. intros N.
  destruct (String.eqb k' k) eqn:E; [|tauto].
  apply String.eqb_eq in E. tauto.
Qed.

Lemma del_app_r d1 d2 k v :
  ~ In k (keys d1) -> del (d1 ++ (k, v) :: d2) k = d1 ++ d2.
Proof.
  induction d1 as [|[k' v'] d1 IH]; simpl; intros N.
  - rewrite String.eqb_refl. reflexivity.
  - destruct (String.eqb k' k) eqn:E.
    + apply String.eqb_eq in E. tauto.
    + f_equal. tauto.
Qed.

Lemma set_app_r d1 d2 k v v' :
  ~ In k (keys d1) -> set (d1 ++ (k, v) :: d2) k v' = d1 ++ (k, v') :: d2.
Proof.
  induction d1 as [|[k' w] d1 IH]; simpl; intros N.
  - rewrite String.eqb_refl. reflexivity.
  - destruct (String.eqb k' k) eqn:E.
    + apply String.eqb_eq in E. tauto.
    + f_equal. tauto.
Qed.

Lemma mem_false d k : mem k d = false <-> ~ In k (keys d).
Proof.
  unfold mem. rewrite <- get_None. destruct (get d k); split; congruence.
Qed.

Lemma set_fresh d k v : ~ In k (keys d) -> set d k v = d ++ [(k, v)].
Proof.
  induction d as [|[k' w] d IH]; simpl; intros N; [reflexivity|].
  destruct (String.eqb k' k) eqn:E.
  - apply String.eqb_eq in E. tauto.
  - f_equal. tauto.
Qed.

Lemma keys_set_present d k v : In k (keys d) -> keys (set d k v) = keys d.
Proof.
  induction d as [|[k' w] d IH]; simpl; [tauto|]. intros H.
  destruct (String.eqb k' k) eqn:E; simpl.
  - apply String.eqb_eq in E. congruence.
  - apply String.eqb_neq in E. f_equal. apply IH. tauto.
Qed.

Lemma Forall_set (P : string * V -> Prop) d k v :
  Forall P d -> P (k, v) -> Forall P (set d k v).
Proof.
  intros F H; induction F as [|[k' w] d Hx F IH]; simpl.
  - constructor; [assumption|constructor].
  - destruct (String.eqb k' k); constructor; assumption.
Qed.

End Facts.

End DictFacts.

(** ** The second loop *)

Module DetectFacts.
Import Dict DictFacts.

Section Detect.
Variables interval min_count : Z.

Lemma keys_app {V : Type} (d1 d2 : dict V) :
  keys (d1 ++ d2) = keys d1 ++ keys d2.
Proof. apply map_app. Qed.

(** One turn of the loop on the entry it is about to visit. *)
Lemma analyse_entry (done todo : dict value) (url : string) (l : list Q) :
  ~ In url (keys done) ->
  analyse interval min_count (done ++ (url, Timestamps l) :: todo) url
  = Ok match verdict interval min_count (Timestamps l) with
       | Some v' => done ++ (url, v') :: todo
       | None => done ++ todo
       end.
Proof.
  intros N. unfold analyse, item.
  rewrite get_app_r by assumption. simpl. rewrite String.eqb_refl. simpl.
  destruct (List.length l =? 1)%nat.
  - rewrite del_app_r by assumption. reflexivity.
  - destruct (_ >=? min_count).
    + rewrite set_app_r by assumption. reflexivity.
    + rewrite del_app_r by assumption. reflexivity.
Qed.

Lemma detect_loop (todo done : dict value) :
  NoDup (keys (done ++ todo)) ->
  Forall (fun kv => is_series (snd kv)) todo ->
  foldM (analyse interval min_count) (keys todo) (done ++ todo)
  = Ok (done ++ survivors interval min_count todo).
Proof.
  revert done; induction todo as [|[url v] todo IH]; intros done ND F.
  - reflexivity.
  - inversion F as [|? ? Hv F']; subst. simpl in Hv.
    destruct v as [l|n]; [|contradiction].
    rewrite keys_app in ND. simpl in ND.
    pose proof (NoDup_remove_1 _ _ _ ND) as ND1.
    pose proof (NoDup_remove_2 _ _ _ ND) as ND2.
    assert (N : ~ In url (keys done)).
    { intros H; apply ND2, in_or_app; left; exact H. }
    cbn [keys map fst foldM]. rewrite analyse_entry by assumption.
    cbn [bind survivors].
    destruct (verdict interval min_count (Timestamps l)) as [v'|].
    + change (done ++ (url, v') :: todo)
        with (done ++ [(url, v')] ++ todo).
      rewrite app_assoc. fold (keys todo). rewrite IH.
      * rewrite <- app_assoc. reflexivity.
      * rewrite !keys_app. simpl. rewrite <- app_assoc. exact ND.
      * assumption.
    + fold (keys todo). apply IH; [|assumption].
      rewrite keys_app. exact ND1.
Qed.

Lemma keys_survivors (d : dict value) (url : string) :
  In url (keys (survivors interval min_count d)) -> In url (keys d).
Proof.
  induction d as [|[k v] d IH]; simpl; [tauto|].
  destruct (verdict interval min_count v); simpl; tauto.
Qed.

(** The entry of a URL after the second loop is the verdict on its entry
    before. *)
Lemma get_survivors (d : dict value) (url : string) :
  NoDup (keys d) ->
  get (survivors interval min_count d) url
  = match get d url with
    | Some v => verdict interval min_count v
    | None => None
    end.
Proof.
  induction d as [|[k v] d IH]; intros ND; [reflexivity|].
  inversion ND as [|? ? N ND']; subst. simpl.
  destruct (String.eqb k url) eqn:E.
  - apply String.eqb_eq in E; subst k.
    destruct (verdict interval min_count v) as [v'|]; simpl.
    + rewrite String.eqb_refl. reflexivity.
    + apply get_None. intros H. apply N, keys_survivors, H.
  - destruct (verdict interval min_count v) as [v'|]; simpl.
    + rewrite E. auto.
    + auto.
Qed.

Lemma survivors_counts (d : dict value) :
  Forall (fun kv => exists n, snd kv = BeaconCount n)
    (survivors interval min_count d).
Proof.
  induction d as [|[k v] d IH]; simpl; [constructor|].
  destruct (verdict interval min_count v) as [v'|] eqn:E; [|exact IH].
  constructor; [|exact IH]. simpl.
  destruct v as [l|n]; simpl in E; [|discriminate].
  destruct (List.length l =? 1)%nat; [discriminate|].
  destruct (_ >=? min_count); [|discriminate].
  injection E as <-. eexists; reflexivity.
Qed.

End Detect.

(** What the second loop returns on the outcome of the first. *)
Lemma detect_survivors (config : Config) (time_data : dict value) :
  scanned time_data ->
  detect config time_data
  = Ok (survivors (interval config) (min_count config) time_data).
Proof.
  intros [ND F]. unfold detect.
  exact (detect_loop _ _ time_data [] ND F).
Qed.

End DetectFacts.

(** ** The first loop and the report *)

Module ScanFacts.
Import Dict DictFacts DetectFacts.

Lemma foldM_invariant {A B : Type} (P : A -> Prop) (f : A -> B -> result A) :
  (forall a b a', P a -> f a b = Ok a' -> P a') ->
  forall l a a', P a -> foldM f l a = Ok a' -> P a'.
Proof.
  intros Hf l; induction l as [|b l IH]; intros a a' Pa; simpl.
  - intros [= <-]; exact Pa.
  - destruct (f a b) as [a1|e] eqn:E; simpl; [|discriminate].
    apply IH. eapply Hf; eassumption.
Qed.

Lemma NoDup_snoc {A : Type} (l : list A) (x : A) :
  NoDup l -> ~ In x l -> NoDup (l ++ [x]).
Proof.
  induction l as [|y l IH]; simpl; intros ND N.
  - constructor; [tauto|constructor].
  - inversion ND as [|? ? Ny ND']; subst. constructor.
    + rewrite in_app_iff; simpl. intros [H|[H|[]]]; [tauto|]. subst; tauto.
    + apply IH; tauto.
Qed.

(** A turn of the first loop keeps [time_data] a table of series. *)
Lemma observe_scanned (regex : Re.regex) (d d' : dict value) (line : string) :
  scanned d -> observe regex d line = Ok d' -> scanned d'.
Proof.
  intros [ND F]. unfold observe.
  destruct (Re.findall regex line) as [|fields rest]; [intros [= <-]; split; assumption|].
  destruct (tuple_item fields 0) as [text|]; simpl; [|discriminate].
  destruct (float text) as [t|]; simpl; [|discriminate].
  destruct (tuple_item fields 2) as [url|]; simpl; [|discriminate].
  destruct (mem url d) eqn:M.
  - unfold item. destruct (get d url) as [v|] eqn:G; simpl; [|discriminate].
    destruct v as [l|n]; [|discriminate]. intros [= <-]. split.
    + rewrite keys_set_present; [assumption|].
      change url with (fst (url, Timestamps l)). apply in_map, get_In, G.
    + apply Forall_set; [assumption|]. simpl. destruct l; exact I.
  - apply mem_false in M. intros [= <-]. rewrite set_fresh by assumption. split.
    + rewrite keys_app. apply NoDup_snoc; assumption.
    + apply Forall_app; split; [assumption|]. constructor; [exact I|constructor].
Qed.

Lemma aggregate_scanned (config : Config) (lines : list string) (d : dict value) :
  aggregate config lines = Ok d -> scanned d.
Proof.
  unfold aggregate.
  destruct (build_regex_str config _) as [pattern|]; simpl; [|discriminate].
  destruct (Re.compile pattern) as [regex|]; simpl; [|discriminate].
  apply (foldM_invariant scanned (observe regex)).
  - intros a b a' Pa E. eapply observe_scanned; eassumption.
  - split; constructor.
Qed.

Lemma mapM_ok {A B : Type} (f : A -> result B) (l : list A) :
  (forall a, In a l -> exists b, f a = Ok b) -> exists bs, mapM f l = Ok bs.
Proof.
  induction l as [|a l IH]; intros H; simpl; [eexists; reflexivity|].
  destruct (H a (or_introl eq_refl)) as [b ->].
  destruct IH as [bs ->]; [intros; apply H; right; assumption|].
  simpl. eexists; reflexivity.
Qed.

(** The report of a table of counts never raises. *)
Lemma report_ok (interval min_count : Z) (d : dict value) :
  Forall (fun kv => exists n, snd kv = BeaconCount n) d ->
  exists out, report interval min_count d = Ok out.
Proof.
  intros F. unfold report. destruct d as [|kv d0]; [eexists; reflexivity|].
  set (d := kv :: d0) in *.
  destruct (mapM_ok
    (fun url => v <- item d url ;;
       match v with
       | BeaconCount n => Ok (format5 n ++ " - " ++ url)%string
       | Timestamps _ => Raise TypeError
       end) (keys d)) as [rows E].
  - intros url Hin. unfold item.
    destruct (get d url) as [v|] eqn:G; [|apply get_None in G; tauto].
    apply get_In in G. rewrite Forall_forall in F.
    destruct (F _ G) as [n Hn]. simpl in Hn; subst v. simpl. eexists; reflexivity.
  - rewrite E. simpl. eexists; reflexivity.
Qed.

(** [find_beacons] returns whenever the first loop does, and its table is
    the survivors of the first loop's. *)
Lemma find_beacons_survivors (config : Config) (lines : list string)
    (time_data : dict value) :
  aggregate config lines = Ok time_data ->
  exists out,
    find_beacons config lines
    = Ok (survivors (interval config) (min_count config) time_data, out).
Proof.
  intros A. unfold find_beacons. rewrite A. simpl.
  rewrite (detect_survivors _ _ (aggregate_scanned _ _ _ A)). simpl.
  destruct (report_ok (interval config) (min_count config) _
              (survivors_counts (interval config) (min_count config) time_data))
    as [out ->].
  simpl. eexists; reflexivity.
Qed.

Lemma find_beacons_inv (config : Config) (lines : list string)
    (res : dict value) (out : list string) :
  find_beacons config lines = Ok (res, out) ->
  exists time_data,
    aggregate config lines = Ok time_data /\ scanned time_data /\
    res = survivors (interval config) (min_count config) time_data.
Proof.
  intros H. destruct (aggregate config lines) as [td|e] eqn:A.
  - destruct (find_beacons_survivors _ _ _ A) as [out' E].
    rewrite E in H. injection H as <- <-.
    exists td. split; [reflexivity|]. split; [|reflexivity].
    eapply aggregate_scanned; eassumption.
  - unfold find_beacons in H. rewrite A in H. discriminate.
Qed.

End ScanFacts.

(** ** The matcher *)

Module ReFacts.
Import Re.

Section Consume.
Context {R : Type} (c : ascii -> bool) (k : list ascii -> option R).

Lemma one_inv (s : list ascii) (r : R) :
  one c k s = Some r ->
  exists a s', s = a :: s' /\ c a = true /\ k s' = Some r.
Proof.
  destruct s as [|a s']; simpl; [discriminate|].
  destruct (c a) eqn:E; [|discriminate]. intros H. exists a, s'. auto.
Qed.

Lemma star_greedy_inv (s : list ascii) (r : R) :
  star_greedy c k s = Some r ->
  exists w s', s = w ++ s' /\ forallb c w = true /\ k s' = Some r.
Proof.
  revert r; induction s as [|a s IH]; intros r; simpl.
  - intros H. exists [], []. auto.
  - destruct (c a) eqn:E.
    + destruct (star_greedy c k s) as [r'|] eqn:G.
      * intros [= <-]. destruct (IH r' eq_refl) as (w & s' & -> & F & K).
        exists (a :: w), s'. simpl. rewrite E, F. auto.
      * intros H. exists [], (a :: s). auto.
    + intros H. exists [], (a :: s). auto.
Qed.

Lemma star_lazy_inv (s : list ascii) (r : R) :
  star_lazy c k s = Some r ->
  exists w s', s = w ++ s' /\ forallb c w = true /\ k s' = Some r.
Proof.
  revert r; induction s as [|a s IH]; intros r; simpl.
  - destruct (k []) eqn:K; [|discriminate]. intros [= <-]. exists [], []. auto.
  - destruct (k (a :: s)) eqn:K.
    + intros [= <-]. exists [], (a :: s). auto.
    + destruct (c a) eqn:E; [|discriminate]. intros H.
      destruct (IH r H) as (w & s' & -> & F & K').
      exists (a :: w), s'. simpl. rewrite E, F. auto.
Qed.

End Consume.

(** What an item takes from the text is a run of characters of its class,
    and the rest goes to what follows. *)
Lemma repeat_char_inv {R : Type} (c : ascii -> bool) (q : quant)
    (k : list ascii -> option R) (s : list ascii) (r : R) :
  repeat_char c q k s = Some r ->
  exists w s',
    s = w ++ s' /\ forallb c w = true /\
    (at_least_one q = true -> w <> []) /\ k s' = Some r.
Proof.
  destruct q; simpl; intros H.
  - destruct (one_inv _ _ _ _ H) as (a & s' & -> & E & K).
    exists [a], s'. simpl. rewrite E. repeat split; auto; discriminate.
  - destruct (one_inv _ _ _ _ H) as (a & s1 & -> & E & K).
    destruct (star_greedy_inv _ _ _ _ K) as (w & s' & -> & F & K').
    exists (a :: w), s'. simpl. rewrite E, F. repeat split; auto; discriminate.
  - destruct (one_inv _ _ _ _ H) as (a & s1 & -> & E & K).
    destruct (star_lazy_inv _ _ _ _ K) as (w & s' & -> & F & K').
    exists (a :: w), s'. simpl. rewrite E, F. repeat split; auto; discriminate.
  - destruct (star_greedy_inv _ _ _ _ H) as (w & s' & -> & F & K).
    exists w, s'. repeat split; auto; discriminate.
  - destruct (star_lazy_inv _ _ _ _ H) as (w & s' & -> & F & K).
    exists w, s'. repeat split; auto; discriminate.
  - unfold opt_greedy in H. destruct (one c k s) as [r'|] eqn:O.
    + injection H as ->.
      destruct (one_inv _ _ _ _ O) as (a & s' & -> & E & K).
      exists [a], s'. simpl. rewrite E. repeat split; auto; discriminate.
    + exists [], s. repeat split; auto; discriminate.
  - unfold opt_lazy in H. destruct (k s) as [r'|] eqn:K.
    + injection H as ->. exists [], s. repeat split; auto; discriminate.
    + destruct (one_inv _ _ _ _ H) as (a & s' & -> & E & K').
      exists [a], s'. simpl. rewrite E. repeat split; auto; discriminate.
Qed.

Lemma exec_char_inv (c : cclass) (q : quant) (l : list instr) (st : mstate)
    (s : list ascii) (r : mstate * list ascii) :
  exec (IChar c q :: l) st s = Some r ->
  exists w s',
    s = w ++ s' /\ forallb (test c) w = true /\
    (at_least_one q = true -> w <> []) /\ exec l st s' = Some r.
Proof. simpl. apply repeat_char_inv. Qed.

Lemma exec_one_inv (c : cclass) (l : list instr) (st : mstate)
    (s : list ascii) (r : mstate * list ascii) :
  exec (IChar c One :: l) st s = Some r ->
  exists a s', s = a :: s' /\ test c a = true /\ exec l st s' = Some r.
Proof. simpl. apply one_inv. Qed.

(** A match leaves alone the groups that its items do not close. *)
Lemma exec_groups (g : nat) (l : list instr) (st st' : mstate)
    (s rest : list ascii) :
  Forall (fun i => i <> IClose g) l ->
  exec l st s = Some (st', rest) ->
  lookup g (groups st') = lookup g (groups st).
Proof.
  intros F; revert st s; induction F as [|i l Hi F IH]; intros st s.
  - simpl. intros [= <- _]. reflexivity.
  - destruct i as [c q|h|h].
    + intros H. destruct (exec_char_inv _ _ _ _ _ _ H) as (w & s' & _ & _ & _ & K).
      exact (IH _ _ K).
    + simpl. intros H. rewrite (IH _ _ H). reflexivity.
    + simpl. intros H. rewrite (IH _ _ H). unfold close_group.
      destruct (lookup h (starts st)); [|reflexivity]. simpl.
      destruct (h =? g)%nat eqn:E; [|reflexivity].
      apply Nat.eqb_eq in E; subst. congruence.
Qed.

Lemma count_space_app (w s : list ascii) :
  count_space (w ++ s) = (count_space w + count_space s)%nat.
Proof. unfold count_space. rewrite filter_app, length_app. reflexivity. Qed.

Lemma count_space_all (w : list ascii) :
  forallb is_space w = true -> count_space w = List.length w.
Proof.
  unfold count_space. induction w as [|a w IH]; simpl; [reflexivity|].
  destruct (is_space a); simpl; [|discriminate]. intros H. rewrite IH; auto.
Qed.

(** A match holds at least as many white-space characters as its items
    require. *)
Lemma exec_spaces (l : list instr) (st st' : mstate) (s rest : list ascii) :
  exec l st s = Some (st', rest) ->
  (min_spaces l + count_space rest <= count_space s)%nat.
Proof.
  revert st s; induction l as [|i l IH]; intros st s.
  - simpl. intros [= _ <-]. lia.
  - destruct i as [c q|h|h]; try (simpl; intros H; exact (IH _ _ H)).
    intros H.
    destruct (exec_char_inv _ _ _ _ _ _ H) as (w & s' & -> & F & N & K).
    specialize (IH _ _ K). rewrite count_space_app.
    unfold min_spaces in *. simpl.
    destruct c; simpl; try lia.
    destruct (at_least_one q) eqn:A; simpl; [|lia].
    rewrite (count_space_all w F).
    specialize (N eq_refl). destruct w; [contradiction|simpl; lia].
Qed.

(** The characters of a plain target match one for one. *)
Lemma exec_plain_inv (c : list ascii) (l : list instr) (st : mstate)
    (s : list ascii) (r : mstate * list ascii) :
  exec (map (fun a => IChar (atom_of a) One) c ++ l) st s = Some r ->
  exists s', matches_here c s = Some s' /\ exec l st s' = Some r.
Proof.
  revert s; induction c as [|a c IH]; intros s; simpl app.
  - intros H. exists s. auto.
  - cbn [map app]. intros H.
    destruct (exec_one_inv _ _ _ _ _ H) as (b & s1 & -> & E & K).
    destruct (IH _ K) as (s' & M & K').
    exists s'. simpl. rewrite E. auto.
Qed.

Lemma exec_open (g : nat) (l : list instr) (st : mstate) (s : list ascii) :
  exec (IOpen g :: l) st s = exec l (open_group g s st) s.
Proof. reflexivity. Qed.

Lemma exec_close (g : nat) (l : list instr) (st : mstate) (s : list ascii) :
  exec (IClose g :: l) st s = exec l (close_group g s st) s.
Proof. reflexivity. Qed.

Lemma firstn_consumed {A : Type} (a b : list A) :
  firstn (List.length (a ++ b) - List.length b) (a ++ b) = a.
Proof.
  rewrite length_app, Nat.add_sub.
  rewrite firstn_app, Nat.sub_diag, firstn_all. simpl. apply app_nil_r.
Qed.

(** What a match of the line pattern is made of: the timestamp, which is
    group 1; white space, digits, white space; a text the target matches,
    with white space after it. *)
Lemma exec_line_prog (c s rest : list ascii) (st' : mstate) :
  exec (line_prog c) mstate0 s = Some (st', rest) ->
  exists w1 w2 sp1 d sp2 s6 b tl,
    s = w1 ++ "."%char :: w2 ++ sp1 ++ d ++ sp2 ++ s6 /\
    forallb is_digit w1 = true /\ w1 <> [] /\
    forallb is_digit w2 = true /\ w2 <> [] /\
    forallb is_space sp1 = true /\ sp1 <> [] /\
    forallb is_digit d = true /\ d <> [] /\
    forallb is_space sp2 = true /\ sp2 <> [] /\
    matches_here c s6 = Some (b :: tl) /\ is_space b = true /\
    lookup 1 (groups st') = Some (w1 ++ "."%char :: w2).
Proof.
  unfold line_prog. cbn [app]. rewrite exec_open. intros H.
  destruct (exec_char_inv _ _ _ _ _ _ H) as (w1 & s1 & -> & F1 & N1 & H1).
  destruct (exec_one_inv _ _ _ _ _ H1) as (dot & s2 & -> & Edot & H2).
  simpl in Edot. apply Ascii.eqb_eq in Edot. subst dot.
  destruct (exec_char_inv _ _ _ _ _ _ H2) as (w2 & s3 & -> & F2 & N2 & H3).
  rewrite exec_close in H3.
  assert (G : lookup 1 (groups st') = Some (w1 ++ "."%char :: w2)).
  { match type of H3 with
    | exec ?l _ _ = _ => assert (NC : Forall (fun i => i <> IClose 1) l)
    end.
    { repeat (constructor; [discriminate|]).
      apply Forall_app; split.
      - apply Forall_forall. intros i Hi. apply in_map_iff in Hi.
        destruct Hi as (a & <- & _). discriminate.
      - repeat (constructor; [discriminate|]). constructor. }
    rewrite (exec_groups 1 _ _ _ _ _ NC H3).
    unfold close_group, open_group. simpl.
    change (w1 ++ "."%char :: w2 ++ s3) with (w1 ++ ("."%char :: w2) ++ s3).
    rewrite app_assoc, firstn_consumed. reflexivity. }
  destruct (exec_char_inv _ _ _ _ _ _ H3) as (sp1 & s4 & -> & Fs1 & Ns1 & H4).
  destruct (exec_char_inv _ _ _ _ _ _ H4) as (d & s5 & -> & Fd & Nd & H5).
  destruct (exec_char_inv _ _ _ _ _ _ H5) as (sp2 & s6 & -> & Fs2 & Ns2 & H6).
  rewrite exec_open in H6.
  destruct (exec_plain_inv _ _ _ _ _ H6) as (s7 & M & H7).
  rewrite exec_close in H7.
  destruct (exec_char_inv _ _ _ _ _ _ H7) as (sp3 & s8 & -> & Fs3 & Ns3 & H8).
  specialize (Ns3 eq_refl). destruct sp3 as [|b sp3]; [contradiction|].
  simpl in Fs3. apply andb_prop in Fs3. destruct Fs3 as [Fb _].
  exists w1, w2, sp1, d, sp2, s6, b, (sp3 ++ s8).
  repeat split; auto.
Qed.

(** *** Three things a line must hold for the pattern to match *)

Lemma client_occurs_app (c pre s : list ascii) :
  client_occurs c s = true -> client_occurs c (pre ++ s) = true.
Proof.
  intros H; induction pre as [|a pre IH]; simpl; [exact H|].
  rewrite IH. apply orb_true_r.
Qed.

Lemma client_occurs_after_spaces (c sp s tl : list ascii) (x : ascii) :
  sp <> [] -> forallb is_space sp = true ->
  matches_here c s = Some (x :: tl) -> is_space x = true ->
  client_occurs c (sp ++ s) = true.
Proof.
  intros N F M X. induction sp as [|a sp IH]; [contradiction|].
  simpl in F. apply andb_prop in F. destruct F as [Fa F].
  destruct sp as [|a' sp'].
  - simpl. rewrite Fa, M, X. reflexivity.
  - change ((a :: a' :: sp') ++ s) with (a :: (a' :: sp') ++ s).
    cbn [client_occurs]. rewrite IH; [apply orb_true_r|discriminate|exact F].
Qed.

Lemma has_stamp_app (pre s : list ascii) :
  has_stamp s = true -> has_stamp (pre ++ s) = true.
Proof.
  intros H; induction pre as [|a pre IH]; [exact H|].
  change ((a :: pre) ++ s) with (a :: pre ++ s). cbn [has_stamp].
  rewrite IH. apply orb_true_r.
Qed.

Lemma drop_while_app (f : ascii -> bool) (w s : list ascii) :
  forallb f w = true -> drop_while f (w ++ s) = drop_while f s.
Proof.
  induction w as [|a w IH]; simpl; [reflexivity|].
  destruct (f a); [exact IH|discriminate].
Qed.

Lemma space_not_digit (a : ascii) : is_space a = true -> is_digit a = false.
Proof.
  destruct a as [[] [] [] [] [] [] [] []]; try reflexivity; discriminate.
Qed.

Lemma digit_not_space (a : ascii) : is_digit a = true -> is_space a = false.
Proof.
  destruct (is_space a) eqn:E; [|reflexivity].
  rewrite (space_not_digit a E). discriminate.
Qed.

Lemma has_stamp_record (w1 w2 sp d s : list ascii) :
  w1 <> [] -> forallb is_digit w1 = true ->
  w2 <> [] -> forallb is_digit w2 = true ->
  sp <> [] -> forallb is_space sp = true ->
  d <> [] -> forallb is_digit d = true ->
  has_stamp (w1 ++ "."%char :: w2 ++ sp ++ d ++ s) = true.
Proof.
  intros N1 F1 N2 F2 N3 F3 N4 F4. induction w1 as [|a w1 IH]; [contradiction|].
  simpl in F1. apply andb_prop in F1. destruct F1 as [Fa F1].
  destruct w1 as [|a' w1'].
  - destruct w2 as [|c w2]; [contradiction|].
    destruct sp as [|x sp]; [contradiction|].
    destruct d as [|y d]; [contradiction|].
    simpl in F2, F3, F4.
    apply andb_prop in F2. destruct F2 as [Fc F2].
    apply andb_prop in F3. destruct F3 as [Fx F3].
    apply andb_prop in F4. destruct F4 as [Fy F4].
    change (has_stamp ([a] ++ "."%char :: (c :: w2) ++ (x :: sp) ++ (y :: d) ++ s))
      with (stamp_here (a :: "."%char :: c :: w2 ++ x :: sp ++ y :: d ++ s)
            || has_stamp ("."%char :: c :: w2 ++ x :: sp ++ y :: d ++ s)).
    apply orb_true_iff. left. unfold stamp_here.
    rewrite Fa, Fc. cbn [andb Ascii.eqb Bool.eqb].
    rewrite (drop_while_app _ _ _ F2). cbn [drop_while].
    rewrite (space_not_digit _ Fx), Fx. cbn [andb].
    rewrite (drop_while_app _ _ _ F3). cbn [drop_while].
    rewrite (digit_not_space _ Fy). exact Fy.
  - change ((a :: a' :: w1') ++ "."%char :: w2 ++ sp ++ d ++ s)
      with (a :: (a' :: w1') ++ "."%char :: w2 ++ sp ++ d ++ s).
    cbn [has_stamp]. rewrite IH; [apply orb_true_r|discriminate|exact F1].
Qed.

Lemma min_spaces_plain (c : list ascii) :
  min_spaces (map (fun a => IChar (atom_of a) One) c) = 0%nat.
Proof.
  unfold min_spaces. induction c as [|a c IH]; simpl; [reflexivity|].
  unfold atom_of at 1. destruct (Ascii.eqb a "."); exact IH.
Qed.

Lemma min_spaces_line_prog (c : list ascii) :
  min_spaces (line_prog c) = 9%nat.
Proof.
  pose proof (min_spaces_plain c) as E. unfold line_prog, min_spaces in *.
  rewrite !filter_app, !length_app, E. reflexivity.
Qed.

(** The pattern matches only where the line holds nine white-space
    characters, the start of a record, and the target between white
    space. *)
Lemma exec_line_prog_needs (c s rest : list ascii) (st' : mstate) :
  exec (line_prog c) mstate0 s = Some (st', rest) ->
  (9 <= count_space s)%nat /\ has_stamp s = true /\
  client_occurs c s = true.
Proof.
  intros H. split; [|split].
  - pose proof (exec_spaces _ _ _ _ _ H) as S.
    rewrite min_spaces_line_prog in S. lia.
  - destruct (exec_line_prog _ _ _ _ H)
      as (w1 & w2 & sp1 & d & sp2 & s6 & b & tl & -> & F1 & N1 & F2 & N2
          & F3 & N3 & F4 & N4 & _).
    apply has_stamp_record; assumption.
  - destruct (exec_line_prog _ _ _ _ H)
      as (w1 & w2 & sp1 & d & sp2 & s6 & b & tl & -> & _ & _ & _ & _
          & _ & _ & _ & _ & Fs & Ns & M & B & _).
    apply client_occurs_app.
    change ("."%char :: w2 ++ sp1 ++ d ++ sp2 ++ s6)
      with (["."%char] ++ w2 ++ sp1 ++ d ++ sp2 ++ s6).
    do 4 apply client_occurs_app.
    eapply client_occurs_after_spaces; eassumption.
Qed.

(** *** [findall] *)

(** No match at any place of the text, no element in the list. *)
Lemma findall_from_nil (r : regex) (P : list ascii -> Prop) :
  (forall a s, P (a :: s) -> P s) ->
  (forall s, P s -> exec (prog r) mstate0 s = None) ->
  forall s skip, P s -> findall_from r s skip = [].
Proof.
  intros Tl No s; induction s as [|a s IH]; intros skip Ps; simpl.
  - rewrite (No _ Ps). destruct skip; reflexivity.
  - destruct skip as [|k]; [|apply IH; eapply Tl; eassumption].
    rewrite (No _ Ps). apply IH. eapply Tl; eassumption.
Qed.

(** The first element of the list comes from a match somewhere. *)
Lemma findall_from_head (r : regex) (s : list ascii) (skip : nat)
    (f : list string) (fs : list (list string)) :
  findall_from r s skip = f :: fs ->
  exists s' st rest,
    exec (prog r) mstate0 s' = Some (st, rest) /\ f = fields_of r st.
Proof.
  revert skip; induction s as [|a s IH]; intros skip; simpl.
  - destruct skip; [|discriminate].
    destruct (exec (prog r) mstate0 []) as [[st rest]|] eqn:E; [|discriminate].
    intros [= <- _]. eauto.
  - destruct skip as [|k]; [|apply IH].
    destruct (exec (prog r) mstate0 (a :: s)) as [[st rest]|] eqn:E; [|apply IH].
    intros [= <- _]. eauto.
Qed.

End ReFacts.

(** ** The line pattern of a plain target *)

Module PatternFacts.
Import Re ReFacts.

Lemma list_ascii_of_string_app (a b : string) :
  list_ascii_of_string (a ++ b)
  = list_ascii_of_string a ++ list_ascii_of_string b.
Proof. induction a as [|x a IH]; simpl; [reflexivity|]. rewrite IH. reflexivity. Qed.

(** A plain character is an item of its own. *)
Lemma parse_plain_char (a : ascii) (s : list ascii) (p : pending)
    (st : list (option nat)) (n : nat) :
  plain_char a = true ->
  parse (a :: s) p st n
  = option_map (app (flush p)) (parse s (PAtom (atom_of a)) st n).
Proof.
  intros H.
  destruct a as [[] [] [] [] [] [] [] []];
    try (vm_compute in H; discriminate H); reflexivity.
Qed.

(** A parenthesis before a plain character opens a capturing group. *)
Lemma parse_open_plain (a : ascii) (s : list ascii) (p : pending)
    (st : list (option nat)) (n : nat) :
  plain_char a = true ->
  parse ("("%char :: a :: s) p st n
  = option_map (fun r => flush p ++ IOpen (S n) :: r)
      (parse (a :: s) PNone (Some (S n) :: st) (S n)).
Proof.
  intros H.
  destruct a as [[] [] [] [] [] [] [] []];
    try (vm_compute in H; discriminate H); reflexivity.
Qed.

Lemma parse_plain (c rest : list ascii) (p : pending) (g : nat)
    (st : list (option nat)) (n : nat) :
  forallb plain_char c = true ->
  parse (c ++ ")"%char :: rest) p (Some g :: st) n
  = option_map
      (fun r => flush p ++ map (fun a => IChar (atom_of a) One) c
                ++ IClose g :: r)
      (parse rest PNone st n).
Proof.
  revert p; induction c as [|a c IH]; intros p F.
  - reflexivity.
  - simpl in F. apply andb_prop in F. destruct F as [Fa F].
    change ((a :: c) ++ ")"%char :: rest) with (a :: c ++ ")"%char :: rest).
    rewrite (parse_plain_char _ _ _ _ _ Fa), (IH _ F).
    destruct (parse rest PNone st n); reflexivity.
Qed.

(** The pattern that [build_regex_str] makes for a target that is not
    empty: the target in a group, between two fixed texts. *)
Lemma build_regex_str_text (config : Config) (a : ascii) (c : string) :
  client config = Some (String a c) ->
  exists pattern,
    build_regex_str config ["timestamp"; "client"; "url"]%string = Ok pattern /\
    list_ascii_of_string pattern
    = list_ascii_of_string pre_text
      ++ "("%char :: list_ascii_of_string (String a c)
      ++ ")"%char :: list_ascii_of_string post_text.
Proof.
  intros E. unfold build_regex_str. rewrite E.
  eexists. split; [vm_compute; reflexivity|].
  cbn [list_ascii_of_string pre_text post_text app].
  repeat f_equal.
  change (list_ascii_of_string ((c ++ ")") ++ post_text)%string
          = list_ascii_of_string c
            ++ ")"%char :: list_ascii_of_string post_text).
  rewrite !list_ascii_of_string_app, <- app_assoc. reflexivity.
Qed.

Lemma parse_pre_text (s : list ascii) :
  parse (list_ascii_of_string pre_text ++ s) PNone [] 0
  = option_map
      (app [IOpen 1; IChar CDigit Plus; IChar (CLit ".") One;
            IChar CDigit Plus; IClose 1; IChar CSpace Plus;
            IChar CDigit Plus])
      (parse s (PQuant CSpace Plus) [] 1).
Proof.
  cbn [list_ascii_of_string pre_text app]. simpl.
  destruct (parse s (PQuant CSpace Plus) [] 1); reflexivity.
Qed.

(** The line pattern of a plain target compiles, to [line_prog]. *)
Lemma compile_plain (config : Config) (c : string) :
  client config = Some c -> plain c = true ->
  (pattern <- build_regex_str config ["timestamp"; "client"; "url"]%string ;;
   compile pattern)
  = Ok {| prog := line_prog (list_ascii_of_string c); ngroups := 3 |}.
Proof.
  intros E P. destruct c as [|a c]; [discriminate|].
  destruct (build_regex_str_text config a c E) as (pattern & -> & T).
  simpl bind. unfold compile. rewrite T, parse_pre_text.
  unfold plain in P. set (l := list_ascii_of_string (String a c)) in *.
  assert (Pa : plain_char a = true).
  { simpl in P. apply andb_prop in P. tauto. }
  change l with (a :: list_ascii_of_string c) at 1.
  change ((a :: list_ascii_of_string c) ++ ")"%char :: list_ascii_of_string post_text)
    with (a :: list_ascii_of_string c ++ ")"%char :: list_ascii_of_string post_text).
  rewrite (parse_open_plain _ _ _ _ _ Pa).
  change (a :: list_ascii_of_string c ++ ")"%char :: list_ascii_of_string post_text)
    with (l ++ ")"%char :: list_ascii_of_string post_text).
  rewrite (parse_plain _ _ _ _ _ _ P).
  replace (parse (list_ascii_of_string post_text) PNone [] 2)
    with (Some [IChar CSpace Plus; IChar CAny StarLazy;
                IChar (CLit "/") One; IChar CAny StarLazy;
                IChar CSpace Plus; IChar CDigit PlusLazy;
                IChar CSpace Plus; IChar CAny StarLazy;
                IChar CSpace Plus; IOpen 3; IChar CAny StarLazy;
                IClose 3; IChar CSpace Plus; IChar CAny StarLazy;
                IChar CSpace Plus; IChar CAny StarLazy;
                IChar CSpace Plus; IChar CAny StarLazy])
    by (vm_compute; reflexivity).
  cbn [option_map flush app]. f_equal.
  change ([IOpen 1; IChar CDigit Plus; IChar (CLit ".") One;
           IChar CDigit Plus; IClose 1; IChar CSpace Plus;
           IChar CDigit Plus; IChar CSpace Plus; IOpen 2]
          ++ map (fun a => IChar (atom_of a) One) l ++ _)
    with (line_prog l).
  f_equal. unfold count_groups.
  assert (Z0 : filter (fun i => match i with IOpen _ => true | _ => false end)
                 (map (fun a => IChar (atom_of a) One) l) = []).
  { clear. induction l as [|x l IH]; simpl; [reflexivity|exact IH]. }
  cbn [filter]. rewrite filter_app, Z0. reflexivity.
Qed.

End PatternFacts.

(** ** The scan never raises *)

Module TotalFacts.
Import Re ReFacts PatternFacts Dict DictFacts ScanFacts.

Lemma digit_not_dot (a : ascii) :
  is_digit a = true -> Ascii.eqb a "." = false.
Proof.
  intros H. destruct (Ascii.eqb a ".") eqn:E; [|reflexivity].
  apply Ascii.eqb_eq in E. subst. discriminate H.
Qed.

Lemma split_dot_digits (w r : list ascii) :
  forallb is_digit w = true -> split_dot (w ++ "."%char :: r) = (w, Some r).
Proof.
  induction w as [|a w IH]; simpl; intros F; [reflexivity|].
  apply andb_prop in F. destruct F as [Fa F].
  rewrite (digit_not_dot _ Fa), (IH F). reflexivity.
Qed.

Lemma read_int_digits (w : list ascii) (n : Z) :
  forallb is_digit w = true -> exists m, read_int w n = Some m.
Proof.
  revert n; induction w as [|a w IH]; simpl; intros n F; [eauto|].
  apply andb_prop in F. destruct F as [Fa F]. rewrite Fa. apply IH, F.
Qed.

Lemma read_frac_digits (w : list ascii) (n : Z) (d : positive) :
  forallb is_digit w = true -> exists q, read_frac w n d = Some q.
Proof.
  revert n d; induction w as [|a w IH]; simpl; intros n d F; [eauto|].
  apply andb_prop in F. destruct F as [Fa F]. rewrite Fa. apply IH, F.
Qed.

(** [float] accepts what group 1 of the line pattern captures. *)
Lemma float_decimal (w1 w2 : list ascii) :
  w1 <> [] -> forallb is_digit w1 = true -> forallb is_digit w2 = true ->
  exists q, float (string_of_list_ascii (w1 ++ "."%char :: w2)) = Ok q.
Proof.
  intros N F1 F2. unfold float.
  rewrite list_ascii_of_string_of_list_ascii, (split_dot_digits _ _ F1).
  destruct (read_int_digits w1 0 F1) as [n ->].
  destruct (read_frac_digits w2 n 1 F2) as [q ->].
  destruct w1; [contradiction|]. eauto.
Qed.

(** With a plain target, no line makes a turn of the first loop raise. *)
Lemma observe_total (c : string) (time_data : dict value) (line : string) :
  scanned time_data ->
  exists time_data', observe (line_regex c) time_data line = Ok time_data'.
Proof.
  intros [ND F]. unfold observe.
  destruct (findall (line_regex c) line) as [|f fs] eqn:E; [eauto|].
  destruct (findall_from_head _ _ _ _ _ E) as (s' & st & rest & X & ->).
  destruct (exec_line_prog _ _ _ _ X)
    as (w1 & w2 & _ & _ & _ & _ & _ & _ & _ & F1 & N1 & F2 & _ & _ & _ & _
        & _ & _ & _ & _ & _ & G).
  unfold fields_of. cbn [line_regex ngroups seq map tuple_item nth_error bind].
  unfold group at 1. rewrite G.
  destruct (float_decimal w1 w2 N1 F1 F2) as [q ->]. cbn [bind].
  destruct (mem (group st 3) time_data) eqn:M; [|eauto].
  unfold item. unfold mem in M.
  destruct (get time_data (group st 3)) as [v|] eqn:Gv; [|discriminate].
  cbn [bind]. apply get_In in Gv. rewrite Forall_forall in F.
  specialize (F _ Gv). simpl in F. destruct v; [eauto|contradiction].
Qed.

Lemma foldM_observe_total (c : string) (lines : list string)
    (time_data : dict value) :
  scanned time_data ->
  exists time_data', foldM (observe (line_regex c)) lines time_data = Ok time_data'.
Proof.
  revert time_data; induction lines as [|line lines IH]; intros td S.
  - simpl. eauto.
  - destruct (observe_total c td line S) as [td1 E]. simpl. rewrite E. simpl.
    apply IH. eapply observe_scanned; eassumption.
Qed.

(** The first loop as a fold with the compiled pattern. *)
Lemma aggregate_plain (config : Config) (c : string) (lines : list string) :
  client config = Some c -> plain c = true ->
  aggregate config lines = foldM (observe (line_regex c)) lines [].
Proof.
  intros E P. pose proof (compile_plain config c E P) as C.
  unfold aggregate.
  destruct (build_regex_str config _) as [pattern|]; [|discriminate].
  simpl in *. rewrite C. reflexivity.
Qed.

(** A turn of the loop on a line the pattern does not match. *)
Lemma observe_unmatched (r : regex) (time_data : dict value) (line : string) :
  findall r line = [] -> observe r time_data line = Ok time_data.
Proof. unfold observe. intros ->. reflexivity. Qed.

(** The lines the pattern does not match can be left out. *)
Lemma foldM_observe_filter (r : regex) (keep : string -> bool)
    (lines : list string) (time_data : dict value) :
  (forall line, keep line = false -> findall r line = []) ->
  foldM (observe r) lines time_data
  = foldM (observe r) (filter keep lines) time_data.
Proof.
  intros K; revert time_data; induction lines as [|line lines IH]; intros td.
  - reflexivity.
  - simpl. destruct (keep line) eqn:E.
    + simpl. destruct (observe r td line); simpl; [apply IH|reflexivity].
    + rewrite (observe_unmatched _ _ _ (K _ E)). simpl. apply IH.
Qed.

(** Where the pattern of a plain target finds no match. *)
Lemma findall_plain_nil (c : string) (line : string) :
  (count_space (list_ascii_of_string line) < 9)%nat
  \/ has_stamp (list_ascii_of_string line) = false
  \/ client_occurs (list_ascii_of_string c) (list_ascii_of_string line) = false ->
  findall (line_regex c) line = [].
Proof.
  intros H. unfold findall.
  apply (findall_from_nil (line_regex c)
           (fun s => (count_space s < 9)%nat \/ has_stamp s = false
                     \/ client_occurs (list_ascii_of_string c) s = false)).
  - intros a s [L|[D|O]].
    + left. unfold count_space in *. simpl in L.
      destruct (is_space a); simpl in L; lia.
    + right; left. cbn [has_stamp] in D. apply orb_false_iff in D. tauto.
    + right; right. simpl in O. apply orb_false_iff in O. tauto.
  - intros s Ps.
    destruct (exec (prog (line_regex c)) mstate0 s) as [[st rest]|] eqn:X;
      [|reflexivity].
    destruct (exec_line_prog_needs _ _ _ _ X) as (L & D & O).
    destruct Ps as [L'|[D'|O']]; [lia|congruence|congruence].
  - exact H.
Qed.

Lemma foldM_app {A B : Type} (f : A -> B -> result A) (l1 l2 : list B)
    (a : A) :
  foldM f (l1 ++ l2) a = (a' <- foldM f l1 a ;; foldM f l2 a').
Proof.
  revert a; induction l1 as [|b l1 IH]; intros a; simpl; [reflexivity|].
  destruct (f a b); simpl; [apply IH|reflexivity].
Qed.

End TotalFacts.

(** * The claims *)

Import Detector DetectorFacts Dict DictFacts DetectFacts ScanFacts.

Lemma length_insert_desc (x : Q) (l : list Q) :
  List.length (insert_desc x l) = S (List.length l).
Proof.
  induction l as [|y l IH]; simpl; [reflexivity|].
  destruct (Qle_bool y x); simpl; congruence.
Qed.

Lemma length_sort_reverse (l : list Q) :
  List.length (sort_reverse l) = List.length l.
Proof.
  induction l as [|x l IH]; simpl; [reflexivity|].
  rewrite length_insert_desc. congruence.
Qed.

Lemma aggregate_with_min_count (config : Config) (m : Z) (lines : list string) :
  aggregate (with_min_count config m) lines = aggregate config lines.
Proof. reflexivity. Qed.

(** The verdict on a series, read backwards. *)
Lemma verdict_Some (interval min_count : Z) (v v' : value) :
  verdict interval min_count v = Some v' ->
  exists l,
    v = Timestamps l /\ List.length l <> 1%nat /\
    v' = BeaconCount (count_beacons interval (sort_reverse l)) /\
    min_count <= count_beacons interval (sort_reverse l).
Proof.
  destruct v as [l|n]; simpl; [|discriminate].
  destruct (List.length l =? 1)%nat eqn:E; [discriminate|].
  destruct (_ >=? min_count) eqn:G; [|discriminate].
  intros [= <-]. exists l. apply Nat.eqb_neq in E. apply Z.geb_le in G. auto.
Qed.

(** What it takes for a URL to be in the final table. *)
Lemma in_result (config : Config) (lines : list string) (res : dict value)
    (out : list string) (url : string) (v' : value) :
  find_beacons config lines = Ok (res, out) ->
  get res url = Some v' ->
  exists time_data l,
    aggregate config lines = Ok time_data /\
    get time_data url = Some (Timestamps l) /\
    (2 <= List.length l)%nat /\
    v' = BeaconCount (count_beacons (interval config) (sort_reverse l)) /\
    min_count config <= count_beacons (interval config) (sort_reverse l).
Proof.
  intros H G. destruct (find_beacons_inv _ _ _ _ H) as (td & A & [ND F] & ->).
  rewrite get_survivors in G by assumption.
  destruct (get td url) as [v|] eqn:Gv; [|discriminate].
  destruct (verdict_Some _ _ _ _ G) as (l & -> & L & -> & M).
  exists td, l. repeat split; try assumption.
  apply get_In in Gv. rewrite Forall_forall in F. specialize (F _ Gv).
  simpl in F. destruct l as [|a [|b l]]; simpl in *; try tauto; lia.
Qed.

(** C3.  Raising [min_count] never adds a URL: whenever the run with
    threshold [m + 1] returns a table, the run with threshold [m] on the
    same log, client and interval returns one too, and every URL of the
    former is in the latter. *)
Theorem min_count_monotone (config : Config) (lines : list string) (m : Z)
    (res' : dict value) (out' : list string) :
  find_beacons (with_min_count config (m + 1)) lines = Ok (res', out') ->
  exists res out,
    find_beacons (with_min_count config m) lines = Ok (res, out) /\
    forall url, mem url res' = true -> mem url res = true.
Proof.
  intros H.
  destruct (find_beacons_inv _ _ _ _ H) as (td & A & [ND F] & ->).
  rewrite aggregate_with_min_count in A.
  destruct (find_beacons_survivors (with_min_count config m) lines td A)
    as [out E].
  eexists _, out. split; [exact E|].
  intros url. unfold mem. simpl. rewrite !get_survivors by assumption.
  destruct (get td url) as [v|]; [|discriminate].
  destruct (verdict (interval config) (m + 1) v) as [v'|] eqn:V; [|discriminate].
  destruct (verdict_Some _ _ _ _ V) as (l & -> & L & _ & M).
  intros _. simpl. apply Nat.eqb_neq in L. rewrite L.
  destruct (_ >=? m) eqn:G; [reflexivity|].
  rewrite Z.geb_leb in G. apply Z.leb_gt in G. lia.
Qed.

Lemma min_count_monotone_witness :
  find_beacons (with_min_count cfg5 (3 + 1)) log6
  = Ok ([("/beacon", BeaconCount 4)]%string,
        ["Sites that had at least 4 5-second intervals";
         "    4 - /beacon"]%string) /\
  exists res out,
    find_beacons (with_min_count cfg5 3) log6 = Ok (res, out) /\
    forall url,
      mem url [("/beacon", BeaconCount 4)]%string = true -> mem url res = true.
Proof.
  split; [vm_compute; reflexivity|].
  apply (min_count_monotone cfg5 log6 3 [("/beacon", BeaconCount 4)]%string
           ["Sites that had at least 4 5-second intervals";
            "    4 - /beacon"]%string).
  vm_compute; reflexivity.
Defined.

(** C4.  A URL with fewer than two recorded timestamps is absent from the
    final table, whatever the interval and the threshold. *)
Theorem single_timestamp_absent (config : Config) (lines : list string)
    (time_data res : dict value) (out : list string) (url : string)
    (l : list Q) :
  aggregate config lines = Ok time_data ->
  get time_data url = Some (Timestamps l) ->
  (List.length l < 2)%nat ->
  find_beacons config lines = Ok (res, out) ->
  mem url res = false.
Proof.
  intros A G L H. unfold mem.
  destruct (get res url) as [v'|] eqn:G'; [|reflexivity].
  destruct (in_result _ _ _ _ _ _ H G') as (td & l' & A' & Gl & L' & _).
  rewrite A in A'. injection A' as <-. rewrite G in Gl. injection Gl as <-. lia.
Qed.

Lemma single_timestamp_absent_witness :
  aggregate cfg5 log6
  = Ok [("/beacon", Timestamps [100.0; 105.0; 110.0; 115.0; 120.0; 125.0]%Q);
        ("/page", Timestamps [117.5%Q])]%string /\
  get [("/beacon", Timestamps [100.0; 105.0; 110.0; 115.0; 120.0; 125.0]%Q);
       ("/page", Timestamps [117.5%Q])]%string "/page"
  = Some (Timestamps [117.5%Q]) /\
  (List.length [117.5%Q] < 2)%nat /\
  find_beacons cfg5 log6
  = Ok ([("/beacon", BeaconCount 4)]%string,
        ["Sites that had at least 3 5-second intervals";
         "    4 - /beacon"]%string) /\
  mem "/page" [("/beacon", BeaconCount 4)]%string = false.
Proof.
  assert (A : aggregate cfg5 log6
    = Ok [("/beacon", Timestamps [100.0; 105.0; 110.0; 115.0; 120.0; 125.0]%Q);
          ("/page", Timestamps [117.5%Q])]%string) by (vm_compute; reflexivity).
  assert (H : find_beacons cfg5 log6
    = Ok ([("/beacon", BeaconCount 4)]%string,
          ["Sites that had at least 3 5-second intervals";
           "    4 - /beacon"]%string)) by (vm_compute; reflexivity).
  split; [exact A|]. split; [reflexivity|]. split; [simpl; lia|].
  split; [exact H|].
  eapply (single_timestamp_absent cfg5 log6);
    [exact A|reflexivity|simpl; lia|exact H].
Defined.

(** C5.  Every URL of the final table holds an integer count that is at
    least [min_count], and had at least two timestamps recorded by the
    first loop. *)
Theorem result_invariant (config : Config) (lines : list string)
    (time_data res : dict value) (out : list string) (url : string)
    (v : value) :
  aggregate config lines = Ok time_data ->
  find_beacons config lines = Ok (res, out) ->
  get res url = Some v ->
  exists n l,
    v = BeaconCount n /\ min_count config <= n /\
    get time_data url = Some (Timestamps l) /\ (2 <= List.length l)%nat.
Proof.
  intros A H G.
  destruct (in_result _ _ _ _ _ _ H G) as (td & l & A' & Gl & L & -> & M).
  rewrite A in A'. injection A' as <-.
  eexists _, l. repeat split; assumption.
Qed.

Lemma result_invariant_witness :
  aggregate cfg5 log6
  = Ok [("/beacon", Timestamps [100.0; 105.0; 110.0; 115.0; 120.0; 125.0]%Q);
        ("/page", Timestamps [117.5%Q])]%string /\
  find_beacons cfg5 log6
  = Ok ([("/beacon", BeaconCount 4)]%string,
        ["Sites that had at least 3 5-second intervals";
         "    4 - /beacon"]%string) /\
  get [("/beacon", BeaconCount 4)]%string "/beacon" = Some (BeaconCount 4) /\
  exists n l,
    BeaconCount 4 = BeaconCount n /\ min_count cfg5 <= n /\
    get [("/beacon", Timestamps [100.0; 105.0; 110.0; 115.0; 120.0; 125.0]%Q);
         ("/page", Timestamps [117.5%Q])]%string "/beacon"
    = Some (Timestamps l) /\ (2 <= List.length l)%nat.
Proof.
  assert (A : aggregate cfg5 log6
    = Ok [("/beacon", Timestamps [100.0; 105.0; 110.0; 115.0; 120.0; 125.0]%Q);
          ("/page", Timestamps [117.5%Q])]%string) by (vm_compute; reflexivity).
  assert (H : find_beacons cfg5 log6
    = Ok ([("/beacon", BeaconCount 4)]%string,
          ["Sites that had at least 3 5-second intervals";
           "    4 - /beacon"]%string)) by (vm_compute; reflexivity).
  split; [exact A|]. split; [exact H|]. split; [reflexivity|].
  eapply (result_invariant cfg5 log6); [exact A|exact H|reflexivity].
Defined.

(** C9.  With an interval of at least one second, the count reported for
    a URL is at most the number of its recorded timestamps less two. *)
Theorem count_at_most_length_minus_2 (config : Config) (lines : list string)
    (time_data res : dict value) (out : list string) (url : string)
    (n : Z) (l : list Q) :
  1 <= interval config ->
  aggregate config lines = Ok time_data ->
  find_beacons config lines = Ok (res, out) ->
  get res url = Some (BeaconCount n) ->
  get time_data url = Some (Timestamps l) ->
  n <= Z.of_nat (List.length l) - 2.
Proof.
  intros I1 A H G Gl.
  destruct (in_result _ _ _ _ _ _ H G) as (td & l' & A' & Gl' & L & E & M).
  rewrite A in A'. injection A' as <-.
  rewrite Gl in Gl'. injection Gl' as <-. injection E as ->.
  rewrite <- (length_sort_reverse l).
  apply count_beacons_upper; [lia|]. rewrite length_sort_reverse. exact L.
Qed.

Lemma count_at_most_length_minus_2_witness :
  1 <= interval cfg5 /\
  aggregate cfg5 log6
  = Ok [("/beacon", Timestamps [100.0; 105.0; 110.0; 115.0; 120.0; 125.0]%Q);
        ("/page", Timestamps [117.5%Q])]%string /\
  find_beacons cfg5 log6
  = Ok ([("/beacon", BeaconCount 4)]%string,
        ["Sites that had at least 3 5-second intervals";
         "    4 - /beacon"]%string) /\
  get [("/beacon", BeaconCount 4)]%string "/beacon" = Some (BeaconCount 4) /\
  get [("/beacon", Timestamps [100.0; 105.0; 110.0; 115.0; 120.0; 125.0]%Q);
       ("/page", Timestamps [117.5%Q])]%string "/beacon"
  = Some (Timestamps [100.0; 105.0; 110.0; 115.0; 120.0; 125.0]%Q) /\
  4 <= Z.of_nat
         (List.length [100.0; 105.0; 110.0; 115.0; 120.0; 125.0]%Q) - 2.
Proof.
  assert (A : aggregate cfg5 log6
    = Ok [("/beacon", Timestamps [100.0; 105.0; 110.0; 115.0; 120.0; 125.0]%Q);
          ("/page", Timestamps [117.5%Q])]%string) by (vm_compute; reflexivity).
  assert (H : find_beacons cfg5 log6
    = Ok ([("/beacon", BeaconCount 4)]%string,
          ["Sites that had at least 3 5-second intervals";
           "    4 - /beacon"]%string)) by (vm_compute; reflexivity).
  split; [simpl; lia|]. split; [exact A|]. split; [exact H|].
  split; [reflexivity|]. split; [reflexivity|].
  eapply (count_at_most_length_minus_2 cfg5 log6 _ _ _ "/beacon"%string);
    [simpl; lia|exact A|exact H|reflexivity|reflexivity].
Defined.

(** C10.  The count of a URL does not depend on [min_count]: a URL in the
    tables of two runs that differ in the threshold alone has the same
    count in both. *)
Theorem count_independent_of_min_count (config : Config)
    (lines : list string) (m1 m2 : Z) (res1 res2 : dict value)
    (out1 out2 : list string) (url : string) (v1 v2 : value) :
  find_beacons (with_min_count config m1) lines = Ok (res1, out1) ->
  find_beacons (with_min_count config m2) lines = Ok (res2, out2) ->
  get res1 url = Some v1 ->
  get res2 url = Some v2 ->
  v1 = v2.
Proof.
  intros H1 H2 G1 G2.
  destruct (in_result _ _ _ _ _ _ H1 G1) as (td1 & l1 & A1 & Gl1 & _ & -> & _).
  destruct (in_result _ _ _ _ _ _ H2 G2) as (td2 & l2 & A2 & Gl2 & _ & -> & _).
  rewrite aggregate_with_min_count in A1, A2.
  rewrite A1 in A2. injection A2 as <-.
  rewrite Gl1 in Gl2. injection Gl2 as <-. reflexivity.
Qed.

Lemma count_independent_of_min_count_witness :
  find_beacons (with_min_count cfg5 1) log6
  = Ok ([("/beacon", BeaconCount 4)]%string,
        ["Sites that had at least 1 5-second intervals";
         "    4 - /beacon"]%string) /\
  find_beacons (with_min_count cfg5 4) log6
  = Ok ([("/beacon", BeaconCount 4)]%string,
        ["Sites that had at least 4 5-second intervals";
         "    4 - /beacon"]%string) /\
  get [("/beacon", BeaconCount 4)]%string "/beacon" = Some (BeaconCount 4) /\
  BeaconCount 4 = BeaconCount 4.
Proof.
  assert (H1 : find_beacons (with_min_count cfg5 1) log6
    = Ok ([("/beacon", BeaconCount 4)]%string,
          ["Sites that had at least 1 5-second intervals";
           "    4 - /beacon"]%string)) by (vm_compute; reflexivity).
  assert (H2 : find_beacons (with_min_count cfg5 4) log6
    = Ok ([("/beacon", BeaconCount 4)]%string,
          ["Sites that had at least 4 5-second intervals";
           "    4 - /beacon"]%string)) by (vm_compute; reflexivity).
  split; [exact H1|]. split; [exact H2|]. split; [reflexivity|].
  eapply (count_independent_of_min_count cfg5 log6 1 4 _ _ _ _
            "/beacon"%string);
    [exact H1|exact H2|reflexivity|reflexivity].
Defined.

(** C1.  Client 10.0.0.5 requests /beacon at 100.0, 105.0, 110.0 and
    115.0; with [interval = 5] the four timestamps, each five seconds
    from the next, count two matches and not three, and with
    [min_count = 3] the final table is empty: the inner loop stops one
    index short of the oldest timestamp, so the interval that ends there
    is never seen ([count_beacons_chain] gives k - 2 for every chain of k
    timestamps). *)
Theorem chain_of_four_counts_two :
  chain 5 (sort_reverse [100.0; 105.0; 110.0; 115.0]%Q) /\
  count_beacons 5 (sort_reverse [100.0; 105.0; 110.0; 115.0]%Q) = 2 /\
  find_beacons cfg5 log4
  = Ok ([], ["No sites with at least 3 intervals at 5 seconds"]%string).
Proof.
  split; [|split]; [|vm_compute; reflexivity|vm_compute; reflexivity].
  simpl. repeat split; reflexivity.
Qed.

(** C8 (as amended).  On an empty log, a run whose line pattern compiles
    returns normally with an empty table and prints the one line that says
    that no site was found.  The pattern is compiled at line 185, before
    the file is read, so the run of a target that is no pattern raises
    there, on an empty log as on any other. *)
Theorem empty_log_no_sites (config : Config) (regex : Re.regex) :
  (pattern <- build_regex_str config ["timestamp"; "client"; "url"]%string ;;
   Re.compile pattern) = Ok regex ->
  find_beacons config []
  = Ok ([], [("No sites with at least " ++ str (min_count config)
              ++ " intervals at " ++ str (interval config)
              ++ " seconds")%string]).
Proof.
  unfold find_beacons, aggregate.
  destruct (build_regex_str config _) as [pattern|]; simpl; [|discriminate].
  destruct (Re.compile pattern) as [r|]; simpl; [|discriminate].
  reflexivity.
Qed.

Lemma empty_log_no_sites_witness :
  (pattern <- build_regex_str cfg5 ["timestamp"; "client"; "url"]%string ;;
   Re.compile pattern) = Ok regex5 /\
  find_beacons cfg5 []
  = Ok ([], ["No sites with at least 3 intervals at 5 seconds"]%string).
Proof.
  split; [vm_compute; reflexivity|].
  apply (empty_log_no_sites cfg5 regex5). vm_compute; reflexivity.
Defined.

(** C8 (as stated) fails.  The target is an opening parenthesis: the
    pattern built from it has a group that is never closed, [re.compile]
    refuses it, and the run on the empty log raises where the claim has it
    report that no site was found. *)
Lemma empty_log_counterexample :
  build_regex_str (with_target cfg5 "(") ["timestamp"; "client"; "url"]%string
  = Ok ("(\d+\.\d+)\s+\d+\s+(()\s+.*?/.*?\s+\d+?\s+.*?\s+(.*?)"
        ++ "\s+.*?\s+.*?\s+.*?")%string /\
  Re.compile
    ("(\d+\.\d+)\s+\d+\s+(()\s+.*?/.*?\s+\d+?\s+.*?\s+(.*?)"
     ++ "\s+.*?\s+.*?\s+.*?")%string
  = Raise ReError /\
  find_beacons (with_target cfg5 "(") [] = Raise ReError.
Proof.
  split; [vm_compute; reflexivity|]. split; vm_compute; reflexivity.
Qed.

(** C2 (as amended).  The delta is the computed difference cut toward
    zero, not rounded: every difference from [interval] up to, and not
    reaching, [interval + 1], as [interval + 0.9], has the delta
    [interval].  And a pair whose computed delta
    [int(timestamps[i] - timestamps[j])] is the interval passes the
    equality test: whenever [j], from [i] on, is not the last index of the
    sorted series, the scan that starts at [i] counts one match. *)
Theorem truncated_delta_counts (interval : Z) (l : list Q) (i j : nat)
    (c : Z) :
  0 <= interval ->
  (i <= j)%nat ->
  (j < List.length (sort_reverse l) - 1)%nat ->
  int_of_float (nth i (sort_reverse l) 0 - nth j (sort_reverse l) 0)%Q
  = interval ->
  (forall d : Q,
     (inject_Z interval <= d)%Q -> (d < inject_Z interval + 1)%Q ->
     int_of_float d = interval) /\
  int_of_float (inject_Z interval + (9 # 10))%Q = interval /\
  inner_loop interval (sort_reverse l) (nth i (sort_reverse l) 0%Q)
    (range i (List.length (sort_reverse l) - 1)) c
  = c + 1.
Proof.
  intros HI Hij Hj T.
  assert (B : forall d : Q,
            (inject_Z interval <= d)%Q -> (d < inject_Z interval + 1)%Q ->
            int_of_float d = interval).
  { intros d Lo Hi. apply int_of_float_between; [assumption|assumption|].
    rewrite inject_Z_plus. exact Hi. }
  split; [exact B|]. split.
  { apply B.
    - rewrite <- (Qplus_0_r (inject_Z interval)) at 1.
      apply Qplus_le_r. discriminate.
    - apply Qplus_lt_r. reflexivity. }
  set (ts := sort_reverse l) in *.
  pose proof (sort_reverse_descending l) as D. fold ts in D.
  rewrite inner_loop_window by lia.
  apply (scan_first_match interval _ _ (j - i)).
  - rewrite firstn_length_le; [lia|]. rewrite length_skipn. lia.
  - rewrite nth_firstn. replace (j - i <? _)%nat with true
      by (symmetry; apply Nat.ltb_lt; lia).
    rewrite nth_skipn. replace (i + (j - i))%nat with j by lia. exact T.
  - intros q Hq. rewrite nth_firstn. replace (q <? _)%nat with true
      by (symmetry; apply Nat.ltb_lt; lia).
    rewrite nth_skipn. rewrite <- T.
    assert (H1 : (nth (i + q) ts 0 <= nth i ts 0)%Q)
      by (apply descending_nth; [assumption|lia|lia]).
    assert (H2 : (nth j ts 0 <= nth (i + q) ts 0)%Q)
      by (apply descending_nth; [assumption|lia|lia]).
    apply int_of_float_le.
    + unfold Qminus. apply Qle_minus_iff in H1. exact H1.
    + unfold Qminus. apply Qplus_le_r. apply Qopp_le_compat. exact H2.
Qed.

Lemma truncated_delta_counts_witness :
  0 <= 5 /\ (0 <= 1)%nat /\
  (1 < List.length (sort_reverse [50.0; 100.0; 105.9]%Q) - 1)%nat /\
  int_of_float (nth 0 (sort_reverse [50.0; 100.0; 105.9]) 0
                - nth 1 (sort_reverse [50.0; 100.0; 105.9]) 0)%Q = 5 /\
  (forall d : Q,
     (inject_Z 5 <= d)%Q -> (d < inject_Z 5 + 1)%Q -> int_of_float d = 5) /\
  int_of_float (inject_Z 5 + (9 # 10))%Q = 5 /\
  inner_loop 5 (sort_reverse [50.0; 100.0; 105.9]%Q)
    (nth 0 (sort_reverse [50.0; 100.0; 105.9]%Q) 0%Q)
    (range 0 (List.length (sort_reverse [50.0; 100.0; 105.9]%Q) - 1)) 0
  = 0 + 1.
Proof.
  split; [lia|]. split; [lia|]. split; [simpl; lia|]. split; [reflexivity|].
  apply (truncated_delta_counts 5 [50.0; 100.0; 105.9]%Q 0 1 0);
    [lia|lia|simpl; lia|reflexivity].
Defined.

(** C2 (as stated) fails.  The timestamps 105.9 and 100.0 are exactly
    5 + 0.9 seconds apart; with [interval = 5] the scan from 105.9 meets
    delta [int(5.9) = 5] at 100.0 and counts it, and the run reports
    /beacon with one match. *)
Lemma truncation_counterexample :
  (105.9 - 100.0 == inject_Z 5 + (9 # 10))%Q /\
  sort_reverse [50.0; 100.0; 105.9]%Q = [105.9; 100.0; 50.0]%Q /\
  int_of_float (105.9 - 100.0)%Q = 5 /\
  inner_loop 5 [105.9; 100.0; 50.0]%Q 105.9%Q [1%nat] 0 = 1 /\
  count_beacons 5 [105.9; 100.0; 50.0]%Q = 1 /\
  find_beacons (with_min_count cfg5 1) log59
  = Ok ([("/beacon", BeaconCount 1)]%string,
        ["Sites that had at least 1 5-second intervals";
         "    1 - /beacon"]%string) /\
  ~ (forall (interval : Z) (ts : list Q) (i j : nat) (c : Z),
       (nth i ts 0 - nth j ts 0 == inject_Z interval + (9 # 10))%Q ->
       inner_loop interval ts (nth i ts 0%Q) [j] c = c).
Proof.
  split; [reflexivity|]. split; [reflexivity|]. split; [reflexivity|].
  split; [reflexivity|]. split; [reflexivity|].
  split; [vm_compute; reflexivity|].
  intros H.
  specialize (H 5 [105.9; 100.0; 50.0]%Q 0%nat 1%nat 0 eq_refl).
  discriminate H.
Qed.

(** C6 (as stated) fails.  The target client is 10.0.0.5; the client
    field of [line_other_client] is 10-0-0-5, which is not the target, yet
    the line adds its timestamp to the series of /beacon, and a log of that
    client alone gives a table that is not empty.  The target is put into
    the pattern as it is, so each of its dots stands for any character. *)
Lemma other_client_counterexample :
  client cfg5 = Some "10.0.0.5"%string /\
  (pattern <- build_regex_str cfg5 ["timestamp"; "client"; "url"]%string ;;
   Re.compile pattern) = Ok regex5 /\
  nth 2 (split_fields line_other_client) ""%string = "10-0-0-5"%string /\
  "10-0-0-5"%string <> "10.0.0.5"%string /\
  observe regex5 [] line_other_client
  = Ok [("/beacon"%string, Timestamps [100.0%Q])] /\
  find_beacons cfg5 log_other_client
  = Ok ([("/beacon", BeaconCount 4)]%string,
        ["Sites that had at least 3 5-second intervals";
         "    4 - /beacon"]%string).
Proof.
  split; [reflexivity|]. split; [vm_compute; reflexivity|].
  split; [vm_compute; reflexivity|]. split; [discriminate|].
  split; vm_compute; reflexivity.
Qed.

(** C7 (as stated) fails.  [line_nine_fields] lacks its last field and
    [line_bad_timestamp] starts with a field that is no number, so neither
    has the shape of ten fields; yet the pattern, which is searched for
    anywhere in the line and lets its last fields be empty, matches both,
    and each adds a timestamp to the series of /beacon. *)
Lemma malformed_line_counterexample :
  (pattern <- build_regex_str cfg5 ["timestamp"; "client"; "url"]%string ;;
   Re.compile pattern) = Ok regex5 /\
  List.length (split_fields line_nine_fields) = 9%nat /\
  observe regex5 [] line_nine_fields
  = Ok [("/beacon"%string, Timestamps [100.0%Q])] /\
  nth 0 (split_fields line_bad_timestamp) ""%string = "x100.0"%string /\
  float "x100.0" = Raise ValueError /\
  observe regex5 [] line_bad_timestamp
  = Ok [("/beacon"%string, Timestamps [100.0%Q])].
Proof.
  split; [vm_compute; reflexivity|]. split; [vm_compute; reflexivity|].
  split; [vm_compute; reflexivity|]. split; [vm_compute; reflexivity|].
  split; vm_compute; reflexivity.
Qed.

Import Re ReFacts PatternFacts TotalFacts.

(** C6 (as amended).  For a target client made of literal characters and
    dots, a line adds no timestamp unless the target, each dot standing for
    any character but a newline, matches a piece of the line that stands
    between two white-space characters: the first loop and the whole run
    give what they give on the log without the other lines, and when no
    line is left the final table is empty. *)
Theorem other_lines_ignored (config : Config) (c : string)
    (lines : list string) :
  client config = Some c -> plain c = true ->
  let mine :=
    filter (fun line => client_occurs (list_ascii_of_string c)
                          (list_ascii_of_string line)) lines in
  aggregate config lines = aggregate config mine /\
  find_beacons config lines = find_beacons config mine /\
  (mine = [] ->
   find_beacons config lines
   = Ok ([], [("No sites with at least " ++ str (min_count config)
               ++ " intervals at " ++ str (interval config)
               ++ " seconds")%string])).
Proof.
  intros E P mine.
  assert (A : aggregate config lines = aggregate config mine).
  { rewrite !(aggregate_plain config c) by assumption.
    apply foldM_observe_filter. intros line K.
    apply findall_plain_nil. right; right. exact K. }
  split; [exact A|]. split.
  - unfold find_beacons. rewrite A. reflexivity.
  - intros M. unfold find_beacons. rewrite A, M.
    rewrite (aggregate_plain config c) by assumption. reflexivity.
Qed.

Lemma other_lines_ignored_witness :
  client cfg5 = Some "10.0.0.5"%string /\ plain "10.0.0.5" = true /\
  let mine :=
    filter (fun line => client_occurs (list_ascii_of_string "10.0.0.5")
                          (list_ascii_of_string line)) log_two_clients in
  aggregate cfg5 log_two_clients = aggregate cfg5 mine /\
  find_beacons cfg5 log_two_clients = find_beacons cfg5 mine /\
  (mine = [] ->
   find_beacons cfg5 log_two_clients
   = Ok ([], [("No sites with at least " ++ str (min_count cfg5)
               ++ " intervals at " ++ str (interval cfg5)
               ++ " seconds")%string])).
Proof.
  split; [reflexivity|]. split; [reflexivity|].
  apply (other_lines_ignored cfg5 "10.0.0.5" log_two_clients); reflexivity.
Defined.

(** C7 (as amended).  For a target client made of literal characters and
    dots, no line makes the scan raise, and the scan prints nothing (the
    first loop has no output).  A line in which the compiled pattern finds
    no match, as every line with fewer than nine white-space characters
    and every line of which no place starts as a record does, leaves
    [time_data] as it is, and the scan goes on with the next line: the
    first loop gives what it gives on the log without that line. *)
Theorem unmatched_line_skipped (config : Config) (c : string) :
  client config = Some c -> plain c = true ->
  (pattern <- build_regex_str config ["timestamp"; "client"; "url"]%string ;;
   compile pattern) = Ok (line_regex c) /\
  (forall lines, exists time_data, aggregate config lines = Ok time_data) /\
  (forall line,
     (count_space (list_ascii_of_string line) < 9)%nat
     \/ has_stamp (list_ascii_of_string line) = false ->
     findall (line_regex c) line = []) /\
  (forall line time_data,
     findall (line_regex c) line = [] ->
     observe (line_regex c) time_data line = Ok time_data) /\
  (forall before line after,
     findall (line_regex c) line = [] ->
     aggregate config (before ++ line :: after)
     = aggregate config (before ++ after)).
Proof.
  intros E P. split; [exact (compile_plain config c E P)|]. split; [|split; [|split]].
  - intros lines. rewrite (aggregate_plain config c) by assumption.
    apply foldM_observe_total. split; constructor.
  - intros line [H|H]; apply findall_plain_nil; tauto.
  - intros line time_data H. apply observe_unmatched, H.
  - intros before line after H.
    rewrite !(aggregate_plain config c) by assumption.
    rewrite !foldM_app.
    destruct (foldM (observe (line_regex c)) before []) as [td|];
      [|reflexivity].
    simpl. rewrite (observe_unmatched _ _ _ H). reflexivity.
Qed.

Lemma unmatched_line_skipped_witness :
  client cfg5 = Some "10.0.0.5"%string /\ plain "10.0.0.5" = true /\
  (pattern <- build_regex_str cfg5 ["timestamp"; "client"; "url"]%string ;;
   compile pattern) = Ok (line_regex "10.0.0.5") /\
  (forall lines, exists time_data, aggregate cfg5 lines = Ok time_data) /\
  (forall line,
     (count_space (list_ascii_of_string line) < 9)%nat
     \/ has_stamp (list_ascii_of_string line) = false ->
     findall (line_regex "10.0.0.5") line = []) /\
  (forall line time_data,
     findall (line_regex "10.0.0.5") line = [] ->
     observe (line_regex "10.0.0.5") time_data line = Ok time_data) /\
  (forall before line after,
     findall (line_regex "10.0.0.5") line = [] ->
     aggregate cfg5 (before ++ line :: after)
     = aggregate cfg5 (before ++ after)).
Proof.
  split; [reflexivity|]. split; [reflexivity|].
  apply (unmatched_line_skipped cfg5 "10.0.0.5"); reflexivity.
Defined.

(** The lines of the claim's examples: one cut after four fields, one
    with a word for a timestamp.  Neither changes the table. *)
Example unmatched_lines :
  (count_space (list_ascii_of_string line_cut) < 9)%nat /\
  has_stamp (list_ascii_of_string line_word_timestamp) = false /\
  aggregate cfg5 (log4 ++ [line_cut; line_word_timestamp])
  = aggregate cfg5 log4.
Proof.
  split; [vm_compute; lia|]. split; vm_compute; reflexivity.
Qed.

(** Two clients with the same requests five seconds apart: the table
    holds the URL of the target client alone. *)
Example two_clients :
  find_beacons cfg5 log_two_clients
  = Ok ([("/beacon", BeaconCount 3)]%string,
        ["Sites that had at least 3 5-second intervals";
         "    3 - /beacon"]%string).
Proof. vm_compute; reflexivity. Qed.

(** * Further properties *)

(** ** Counting *)

Module CountFacts.

(** *** Intervals that are not positive *)

Lemma scan_head_zero (t : Q) (w : list Q) (c : Z) :
  scan 0 t (t :: w) c = c + 1.
Proof. cbn [scan]. rewrite int_of_float_self. reflexivity. Qed.

Lemma count_from_zero (body : list Q) (c : Z) :
  count_from 0 body c = c + Z.of_nat (List.length body).
Proof.
  revert c; induction body as [|t rest IH]; intros c; [simpl; lia|].
  cbn [count_from]. rewrite scan_head_zero, IH. cbn [List.length]. lia.
Qed.

Lemma scan_head_negative (interval : Z) (t : Q) (w : list Q) (c : Z) :
  interval < 0 -> scan interval t (t :: w) c = c.
Proof.
  intros H. cbn [scan]. rewrite int_of_float_self. cbv zeta.
  destruct (0 =? interval) eqn:E; [apply Z.eqb_eq in E; lia|].
  destruct (0 >? interval) eqn:G; [reflexivity|].
  rewrite Z.gtb_ltb in G. apply Z.ltb_ge in G. lia.
Qed.

Lemma count_from_negative (interval : Z) (body : list Q) (c : Z) :
  interval < 0 -> count_from interval body c = c.
Proof.
  intros H; revert c; induction body as [|t rest IH]; intros c; [reflexivity|].
  cbn [count_from]. rewrite scan_head_negative by assumption. apply IH.
Qed.

Lemma length_removelast {A : Type} (l : list A) :
  List.length (removelast l) = (List.length l - 1)%nat.
Proof.
  induction l as [|a l IH]; [reflexivity|].
  destruct l as [|b l']; [reflexivity|].
  change (removelast (a :: b :: l')) with (a :: removelast (b :: l')).
  cbn [List.length] in *. lia.
Qed.

End CountFacts.

Module WindowFacts.

(** *** What the two [break]s leave out *)

(** One match at most, and one exactly when some delta of the window is
    the interval: on a window in newest-to-oldest order, none of whose
    timestamps is newer than [t], the deltas grow, so nothing that follows
    a delta above the interval can match. *)
Lemma scan_existsb (interval : Z) (t : Q) (w : list Q) (c : Z) :
  descending w -> Forall (fun x => (x <= t)%Q) w ->
  scan interval t w c
  = c + (if existsb (fun x => int_of_float (t - x) =? interval) w
         then 1 else 0).
Proof.
  unfold descending. intros S; induction S as [|x w S IH F]; intros B.
  - simpl. lia.
  - inversion B as [|? ? Bx Bw]; subst. cbn [scan existsb]. cbv zeta.
    destruct (int_of_float (t - x) =? interval) eqn:E; [reflexivity|].
    cbn [orb]. destruct (int_of_float (t - x) >? interval) eqn:G; [|auto].
    replace (existsb (fun y => int_of_float (t - y) =? interval) w) with false;
      [lia|].
    symmetry. apply not_true_is_false. intros X.
    apply existsb_exists in X. destruct X as (y & Hy & Ey).
    apply Z.eqb_eq in Ey. rewrite Z.gtb_ltb in G. apply Z.ltb_lt in G.
    rewrite Forall_forall in F. specialize (F y Hy). simpl in F.
    assert (L : int_of_float (t - x) <= int_of_float (t - y)).
    { apply int_of_float_le; lra. }
    lia.
Qed.


(** The same for the inner loop as the program runs it, by indices. *)
Lemma inner_loop_existsb (interval : Z) (ts : list Q) (i : nat) (c : Z) :
  descending ts ->
  forall m a, (i <= a)%nat -> (a + m <= List.length ts)%nat ->
  inner_loop interval ts (nth i ts 0%Q) (seq a m) c
  = c + (if existsb
              (fun j => int_of_float (nth i ts 0 - nth j ts 0)%Q =? interval)
              (seq a m)
         then 1 else 0).
Proof.
  intros D m; induction m as [|m IH]; intros a Hi Ha.
  - simpl. lia.
  - cbn [seq inner_loop existsb]. cbv zeta.
    destruct (int_of_float (nth i ts 0 - nth a ts 0)%Q =? interval) eqn:E;
      [reflexivity|].
    cbn [orb].
    destruct (int_of_float (nth i ts 0 - nth a ts 0)%Q >? interval) eqn:G;
      [|apply IH; lia].
    replace (existsb _ (seq (S a) m)) with false; [lia|].
    symmetry. apply not_true_is_false. intros X.
    apply existsb_exists in X. destruct X as (j & Hj & Ej).
    apply in_seq in Hj. apply Z.eqb_eq in Ej.
    rewrite Z.gtb_ltb in G. apply Z.ltb_lt in G.
    pose proof (descending_nth ts i a D Hi ltac:(lia)) as L1.
    pose proof (descending_nth ts a j D ltac:(lia) ltac:(lia)) as L2.
    assert (L : int_of_float (nth i ts 0 - nth a ts 0)%Q
                <= int_of_float (nth i ts 0 - nth j ts 0)%Q).
    { apply int_of_float_le; lra. }
    lia.
Qed.

Lemma combine_seq_nth {A : Type} (d : A) (l : list A) (a : nat) :
  combine (seq a (List.length l)) l
  = map (fun i => (i, nth (i - a) l d)) (seq a (List.length l)).
Proof.
  revert a; induction l as [|x l IH]; intros a; [reflexivity|].
  cbn [List.length seq combine map]. rewrite Nat.sub_diag. f_equal.
  rewrite IH. apply map_ext_in. intros i Hi. apply in_seq in Hi.
  replace (i - a)%nat with (S (i - S a)) by lia. reflexivity.
Qed.

Lemma nth_removelast {A : Type} (d : A) (l : list A) (i : nat) :
  (i < List.length l - 1)%nat -> nth i (removelast l) d = nth i l d.
Proof.
  revert i; induction l as [|x l IH]; intros i H; [simpl in H; lia|].
  destruct l as [|y l']; [simpl in H; lia|].
  change (removelast (x :: y :: l')) with (x :: removelast (y :: l')).
  destruct i as [|i]; [reflexivity|]. cbn [nth]. apply IH.
  cbn [List.length] in *. lia.
Qed.

Lemma fold_left_mapped {A B C : Type} (f : A -> C -> A) (g : B -> C)
    (l : list B) (a : A) :
  fold_left f (map g l) a = fold_left (fun a b => f a (g b)) l a.
Proof. revert a; induction l as [|b l IH]; intros a; simpl; auto. Qed.

Lemma fold_left_count {A : Type} (f : Z -> A -> Z) (P : A -> bool)
    (l : list A) (c : Z) :
  (forall c a, In a l -> f c a = c + (if P a then 1 else 0)) ->
  fold_left f l c = c + Z.of_nat (List.length (filter P l)).
Proof.
  revert c; induction l as [|a l IH]; intros c H; [simpl; lia|].
  cbn [fold_left filter]. rewrite IH by (intros; apply H; right; assumption).
  rewrite (H c a (or_introl eq_refl)).
  destruct (P a); cbn [List.length]; lia.
Qed.

End WindowFacts.

Module SortFacts.

(** *** The order of the log does not matter to the count *)

Lemma int_of_float_opp (q : Q) : int_of_float (- q) = - int_of_float q.
Proof. unfold int_of_float. simpl. apply Z.quot_opp_l. discriminate. Qed.

(** Truncation reads the number, not the fraction that stands for it. *)
Lemma int_of_float_compat (p q : Q) :
  (p == q)%Q -> int_of_float p = int_of_float q.
Proof.
  intros E. destruct (Qlt_le_dec p 0) as [N|P].
  - assert (H : int_of_float (- p) = int_of_float (- q)).
    { rewrite !int_of_float_floor by lra. apply Qfloor_comp. lra. }
    rewrite !int_of_float_opp in H. lia.
  - rewrite !int_of_float_floor by lra. apply Qfloor_comp, E.
Qed.

Lemma scan_compat (interval : Z) (t t' : Q) (w w' : list Q) (c : Z) :
  (t == t')%Q -> Forall2 Qeq w w' ->
  scan interval t w c = scan interval t' w' c.
Proof.
  intros Et F; induction F as [|x x' w w' Ex F IH]; [reflexivity|].
  cbn [scan]. cbv zeta.
  rewrite (int_of_float_compat (t - x) (t' - x')) by lra.
  rewrite IH. reflexivity.
Qed.

Lemma count_from_compat (interval : Z) (body body' : list Q) (c : Z) :
  Forall2 Qeq body body' ->
  count_from interval body c = count_from interval body' c.
Proof.
  intros F; revert c; induction F as [|x x' w w' Ex F IH]; intros c;
    [reflexivity|].
  cbn [count_from].
  rewrite (scan_compat interval x x' (x :: w) (x' :: w'))
    by (try assumption; constructor; assumption).
  apply IH.
Qed.

Lemma removelast_compat (l l' : list Q) :
  Forall2 Qeq l l' -> Forall2 Qeq (removelast l) (removelast l').
Proof.
  intros F; induction F as [|x x' w w' Ex F IH]; [constructor|].
  destruct F as [|y y' v v' Ey F]; [constructor|].
  change (Forall2 Qeq (x :: removelast (y :: v)) (x' :: removelast (y' :: v'))).
  constructor; assumption.
Qed.

Lemma count_beacons_compat (interval : Z) (ts ts' : list Q) :
  Forall2 Qeq ts ts' -> count_beacons interval ts = count_beacons interval ts'.
Proof.
  intros F. rewrite !count_beacons_count_from.
  apply count_from_compat, removelast_compat, F.
Qed.

Lemma Qle_bool_compat (x x' y y' : Q) :
  (x == x')%Q -> (y == y')%Q -> Qle_bool y x = Qle_bool y' x'.
Proof.
  intros Ex Ey. apply eq_true_iff_eq. rewrite !Qle_bool_iff.
  split; intros H; lra.
Qed.

Lemma Forall2_Qeq_refl (l : list Q) : Forall2 Qeq l l.
Proof. induction l; constructor; [reflexivity|assumption]. Qed.

Lemma Forall2_Qeq_trans (a b c : list Q) :
  Forall2 Qeq a b -> Forall2 Qeq b c -> Forall2 Qeq a c.
Proof.
  intros F; revert c; induction F as [|x y a b E F IH]; intros c G;
    inversion G; subst; constructor.
  - etransitivity; eassumption.
  - apply IH; assumption.
Qed.

Lemma insert_desc_compat (x x' : Q) (l l' : list Q) :
  (x == x')%Q -> Forall2 Qeq l l' ->
  Forall2 Qeq (insert_desc x l) (insert_desc x' l').
Proof.
  intros Ex F; induction F as [|y y' l l' Ey F IH]; simpl.
  - constructor; [assumption|constructor].
  - rewrite (Qle_bool_compat x x' y y') by assumption.
    destruct (Qle_bool y' x'); repeat constructor; assumption.
Qed.

(** Two insertions in either order give the same series. *)
Lemma insert_desc_swap (x y : Q) (s : list Q) :
  Forall2 Qeq (insert_desc x (insert_desc y s))
              (insert_desc y (insert_desc x s)).
Proof.
  induction s as [|z s IH].
  - simpl. destruct (Qle_bool y x) eqn:A, (Qle_bool x y) eqn:B;
      try apply Forall2_Qeq_refl.
    + apply Qle_bool_iff in A, B.
      constructor; [lra|]. constructor; [lra|constructor].
    + exfalso. destruct (Qlt_le_dec x y) as [H|H].
      * apply Qlt_le_weak, Qle_bool_iff in H. congruence.
      * apply Qle_bool_iff in H. congruence.
  - cbn [insert_desc].
    destruct (Qle_bool z y) eqn:Zy, (Qle_bool z x) eqn:Zx; cbn [insert_desc].
    + destruct (Qle_bool y x) eqn:A, (Qle_bool x y) eqn:B; rewrite ?Zx, ?Zy.
      * apply Qle_bool_iff in A, B.
        constructor; [lra|]. constructor; [lra|apply Forall2_Qeq_refl].
      * apply Forall2_Qeq_refl.
      * apply Forall2_Qeq_refl.
      * exfalso. destruct (Qlt_le_dec x y) as [H|H].
        -- apply Qlt_le_weak, Qle_bool_iff in H. congruence.
        -- apply Qle_bool_iff in H. congruence.
    + assert (A : Qle_bool y x = false).
      { apply not_true_is_false. intros A. apply Qle_bool_iff in A, Zy.
        assert (H : (z <= x)%Q) by lra. apply Qle_bool_iff in H. congruence. }
      rewrite A, Zx. cbn [insert_desc]. rewrite Zy. apply Forall2_Qeq_refl.
    + assert (B : Qle_bool x y = false).
      { apply not_true_is_false. intros B. apply Qle_bool_iff in B, Zx.
        assert (H : (z <= y)%Q) by lra. apply Qle_bool_iff in H. congruence. }
      rewrite B, Zy. cbn [insert_desc]. rewrite Zx. apply Forall2_Qeq_refl.
    + rewrite Zx, Zy. constructor; [reflexivity|exact IH].
Qed.

Lemma sort_reverse_Permutation (l l' : list Q) :
  Permutation l l' -> Forall2 Qeq (sort_reverse l) (sort_reverse l').
Proof.
  intros P; induction P as [|x l l' P IH|x y l|l l' l'' P1 IH1 P2 IH2].
  - constructor.
  - simpl. apply insert_desc_compat; [reflexivity|exact IH].
  - simpl. apply insert_desc_swap.
  - eapply Forall2_Qeq_trans; eassumption.
Qed.

Lemma insert_desc_Permutation (x : Q) (l : list Q) :
  Permutation (x :: l) (insert_desc x l).
Proof.
  induction l as [|y l IH]; simpl; [apply Permutation_refl|].
  destruct (Qle_bool y x); [apply Permutation_refl|].
  etransitivity; [apply perm_swap|]. apply perm_skip, IH.
Qed.

Lemma sort_reverse_same_elements (l : list Q) :
  Permutation l (sort_reverse l).
Proof.
  induction l as [|x l IH]; simpl; [constructor|].
  etransitivity; [apply perm_skip, IH|]. apply insert_desc_Permutation.
Qed.

(** *** Requests at a steady pace *)

Lemma insert_desc_oldest (x : Q) (l : list Q) :
  Forall (fun y => (x < y)%Q) l -> insert_desc x l = l ++ [x].
Proof.
  intros F; induction F as [|y l Hy F IH]; [reflexivity|]. simpl.
  destruct (Qle_bool y x) eqn:E; [|rewrite IH; reflexivity].
  apply Qle_bool_iff in E. lra.
Qed.

Lemma chain_app_last (interval : Z) (l : list Q) (x : Q) :
  1 <= interval -> chain interval (l ++ [x]) ->
  chain interval l /\ Forall (fun y => (x < y)%Q) l.
Proof.
  intros HI. induction l as [|y l IH]; intros C; [split; [exact I|constructor]|].
  destruct l as [|z l'].
  - simpl in C. destruct C as [E _]. split; [exact I|].
    constructor; [|constructor].
    assert (1 <= inject_Z interval)%Q by (rewrite Zle_Qle in HI; exact HI).
    lra.
  - change (chain interval (y :: z :: l' ++ [x])) in C.
    destruct C as [E C]. destruct (IH C) as [C' F]. split.
    + split; assumption.
    + constructor; [|exact F]. inversion F as [|? ? Hz _]; subst.
      assert (1 <= inject_Z interval)%Q by (rewrite Zle_Qle in HI; exact HI).
      lra.
Qed.

(** Requests in file order, each [interval] seconds after the one before:
    sorting turns the series round. *)
Lemma sort_reverse_steady (interval : Z) (l : list Q) :
  1 <= interval -> chain interval (rev l) -> sort_reverse l = rev l.
Proof.
  intros HI. induction l as [|x l IH]; intros C; [reflexivity|].
  simpl in C. destruct (chain_app_last interval (rev l) x HI C) as [C' F].
  simpl. rewrite (IH C'). apply insert_desc_oldest, F.
Qed.

End SortFacts.

Module GrowFacts.
Import WindowFacts.

(** *** One request more *)

Lemma count_from_shift (interval : Z) (body : list Q) (c : Z) :
  count_from interval body c = c + count_from interval body 0.
Proof.
  revert c; induction body as [|t rest IH]; intros c; [simpl; lia|].
  cbn [count_from].
  rewrite (IH (scan interval t (t :: rest) c)),
          (IH (scan interval t (t :: rest) 0)).
  assert (S : scan interval t (t :: rest) c
              = c + scan interval t (t :: rest) 0).
  { generalize (t :: rest). intros w. induction w as [|x w IHw]; simpl; [lia|].
    destruct (_ =? interval); [lia|]. destruct (_ >? interval); [lia|].
    exact IHw. }
  lia.
Qed.

Lemma descending_remove (pre q : list Q) (x : Q) :
  descending (pre ++ x :: q) -> descending (pre ++ q).
Proof.
  unfold descending. induction pre as [|t pre IH]; simpl; intros S.
  - inversion S; assumption.
  - inversion S as [|? ? S' F]; subst. constructor; [auto|].
    rewrite Forall_app in *. destruct F as [F1 F2].
    inversion F2; subst. split; assumption.
Qed.

Lemma descending_bound (t : Q) (w : list Q) :
  descending (t :: w) -> descending w /\ Forall (fun x => (x <= t)%Q) w.
Proof. unfold descending. intros S. inversion S; subst. split; assumption. Qed.

(** The scan from [t] counts no less when the window holds one timestamp
    more. *)
Lemma scan_grows (interval : Z) (t x : Q) (pre q : list Q) (c : Z) :
  descending (t :: pre ++ x :: q) ->
  scan interval t (t :: pre ++ q) c
  <= scan interval t (t :: pre ++ x :: q) c.
Proof.
  intros D.
  assert (D' : descending (t :: pre ++ q))
    by exact (descending_remove (t :: pre) q x D).
  assert (B : forall w, descending (t :: w) ->
                        descending (t :: w)
                        /\ Forall (fun y => (y <= t)%Q) (t :: w)).
  { intros w Dw. split; [exact Dw|]. constructor; [apply Qle_refl|].
    apply descending_bound, Dw. }
  rewrite (scan_existsb interval t _ c (proj1 (B _ D')) (proj2 (B _ D'))).
  rewrite (scan_existsb interval t _ c (proj1 (B _ D)) (proj2 (B _ D))).
  cbn [existsb]. rewrite !existsb_app. cbn [existsb].
  destruct (_ =? interval); cbn [orb]; [lia|].
  destruct (existsb _ pre); cbn [orb]; [lia|].
  destruct (existsb _ q); [rewrite orb_true_r; lia|].
  destruct (_ || false); lia.
Qed.

Lemma count_from_grows (interval : Z) (x : Q) (pre q : list Q) (c : Z) :
  descending (pre ++ x :: q) ->
  count_from interval (pre ++ q) c <= count_from interval (pre ++ x :: q) c.
Proof.
  revert c; induction pre as [|t pre IH]; intros c D.
  - cbn [app count_from].
    rewrite (count_from_shift interval q (scan _ _ _ _)),
            (count_from_shift interval q c).
    pose proof (scan_bounds interval x (x :: q) c). lia.
  - change ((t :: pre) ++ q) with (t :: pre ++ q).
    change ((t :: pre) ++ x :: q) with (t :: pre ++ x :: q) in *.
    cbn [count_from].
    pose proof (scan_grows interval t x pre q c D) as G.
    destruct (descending_bound _ _ D) as [D' _].
    specialize (IH (scan interval t (t :: pre ++ x :: q) c) D').
    rewrite (count_from_shift interval (pre ++ q) (scan _ _ (t :: pre ++ q) _)).
    rewrite (count_from_shift interval (pre ++ q)) in IH. lia.
Qed.

Lemma insert_desc_split (x : Q) (l : list Q) :
  exists pre post, l = pre ++ post /\ insert_desc x l = pre ++ x :: post.
Proof.
  induction l as [|y l (pre & post & E & I)].
  - exists [], []. split; reflexivity.
  - simpl. destruct (Qle_bool y x).
    + exists [], (y :: l). split; reflexivity.
    + exists (y :: pre), post. simpl. rewrite I, <- E. split; reflexivity.
Qed.

Lemma count_beacons_grows (interval : Z) (x : Q) (ts : list Q) :
  descending ts ->
  count_beacons interval ts <= count_beacons interval (insert_desc x ts).
Proof.
  intros D. pose proof (insert_desc_descending x ts D) as D'.
  destruct (insert_desc_split x ts) as (pre & post & E & I).
  rewrite I in *. subst ts. rewrite !count_beacons_count_from.
  destruct post as [|y post].
  - rewrite app_nil_r. rewrite removelast_last.
    assert (Hp : pre = [] \/ pre <> []) by (destruct pre; [left|right]; easy).
    destruct Hp as [->|N]; [simpl; lia|].
    rewrite (app_removelast_last 0%Q N) at 2.
    set (b := removelast pre). set (z := last pre 0%Q).
    pose proof (count_from_grows interval z b [] 0) as G.
    rewrite app_nil_r in G. apply G.
    unfold b, z. rewrite <- (app_removelast_last 0%Q N).
    rewrite app_nil_r in D. exact D.
  - rewrite !removelast_app by discriminate.
    change (removelast (x :: y :: post)) with (x :: removelast (y :: post)).
    apply count_from_grows.
    assert (R : pre ++ x :: y :: post
                = (pre ++ x :: removelast (y :: post)) ++ [last (y :: post) 0%Q]).
    { rewrite <- app_assoc. cbn [app]. f_equal. f_equal.
      apply (app_removelast_last 0%Q). discriminate. }
    rewrite R in D'. clear -D'.
    revert D'. generalize (pre ++ x :: removelast (y :: post)).
    intros l. unfold descending. induction l as [|a l IH]; simpl; intros S.
    + constructor.
    + inversion S as [|? ? S' F]; subst. constructor; [auto|].
      rewrite Forall_app in F. tauto.
Qed.

End GrowFacts.

(** ** Tables *)

Module TableFacts.

(** *** The final table *)

Lemma verdict_series (interval min_count : Z) (l : list Q) :
  (2 <= List.length l)%nat ->
  verdict interval min_count (Timestamps l)
  = if count_beacons interval (sort_reverse l) >=? min_count
    then Some (BeaconCount (count_beacons interval (sort_reverse l)))
    else None.
Proof.
  intros L. unfold verdict.
  destruct (List.length l =? 1)%nat eqn:E; [apply Nat.eqb_eq in E; lia|].
  reflexivity.
Qed.

Lemma NoDup_survivors (interval min_count : Z) (d : dict value) :
  NoDup (keys d) -> NoDup (keys (survivors interval min_count d)).
Proof.
  induction d as [|[k v] d IH]; intros ND; [constructor|].
  inversion ND as [|? ? N ND']; subst. simpl.
  destruct (verdict interval min_count v); [|auto].
  simpl. constructor; [|auto]. intros H. apply N.
  eapply keys_survivors, H.
Qed.

Lemma survivors_nil (interval min_count : Z) (d : dict value) :
  Forall (fun kv => verdict interval min_count (snd kv) = None) d ->
  survivors interval min_count d = [].
Proof.
  intros F; induction F as [|[k v] d H F IH]; [reflexivity|].
  simpl in *. rewrite H. exact IH.
Qed.

Lemma mapM_keys {V B : Type} (f : string -> result B) (g : string * V -> B)
    (d : dict V) :
  (forall kv, In kv d -> f (fst kv) = Ok (g kv)) ->
  mapM f (keys d) = Ok (map g d).
Proof.
  induction d as [|kv d IH]; intros H; [reflexivity|].
  cbn [keys map mapM]. rewrite (H kv (or_introl eq_refl)). cbn [bind].
  fold (keys d). rewrite IH by (intros; apply H; right; assumption).
  reflexivity.
Qed.

(** A table of counts, with the counts as numbers. *)
Lemma counts_of (d : dict value) :
  Forall (fun kv => exists n, snd kv = BeaconCount n) d ->
  exists counts : list (string * Z),
    d = map (fun un => (fst un, BeaconCount (snd un))) counts.
Proof.
  intros F; induction F as [|[k v] d [n H] F [counts IH]].
  - exists []. reflexivity.
  - simpl in H. subst v d. exists ((k, n) :: counts). reflexivity.
Qed.

(** The lines printed for a table of counts. *)
Lemma report_counts (interval min_count : Z) (counts : list (string * Z)) :
  NoDup (keys (map (fun un => (fst un, BeaconCount (snd un))) counts)) ->
  report interval min_count
    (map (fun un => (fst un, BeaconCount (snd un))) counts)
  = Ok match counts with
       | [] =>
           [("No sites with at least " ++ str min_count
             ++ " intervals at " ++ str interval ++ " seconds")%string]
       | _ :: _ =>
           ("Sites that had at least " ++ str min_count ++ " "
            ++ str interval ++ "-second intervals")%string
           :: map (fun un => (format5 (snd un) ++ " - " ++ fst un)%string)
                counts
       end.
Proof.
  intros ND. destruct counts as [|un counts]; [reflexivity|].
  set (d := map (fun un => (fst un, BeaconCount (snd un))) (un :: counts)) in *.
  unfold report.
  rewrite (mapM_keys _
             (fun kv => match snd kv with
                        | BeaconCount n => (format5 n ++ " - " ++ fst kv)%string
                        | Timestamps _ => EmptyString
                        end) d).
  - unfold d at 1. cbn [map bind]. unfold d. rewrite map_map. reflexivity.
  - intros [k v] Hin. cbn [fst snd]. unfold item.
    rewrite (In_get _ _ _ ND Hin). cbn [bind]. unfold d in Hin. apply in_map_iff in Hin.
    destruct Hin as (un' & [= <- <-] & _). reflexivity.
Qed.

(** The second loop keeps the order of the entries that it keeps. *)
Lemma keys_survivors_filter (interval min_count : Z) (d : dict value) :
  NoDup (keys d) ->
  keys (survivors interval min_count d)
  = filter (fun url => mem url (survivors interval min_count d)) (keys d).
Proof.
  induction d as [|[k v] d IH]; intros ND; [reflexivity|].
  inversion ND as [|? ? N ND']; subst. cbn [survivors keys map fst filter].
  fold (keys d).
  assert (O : forall v' url,
            In url (keys d) ->
            mem url ((k, v') :: survivors interval min_count d)
            = mem url (survivors interval min_count d)).
  { intros v' url Hin. unfold mem. simpl.
    destruct (String.eqb k url) eqn:E; [|reflexivity].
    apply String.eqb_eq in E. subst url. contradiction. }
  destruct (verdict interval min_count v) as [v'|].
  - cbn [keys map fst]. fold (keys (survivors interval min_count d)).
    unfold mem at 1. simpl. rewrite String.eqb_refl. f_equal.
    rewrite (IH ND') at 1. apply filter_ext_in. intros url Hin.
    symmetry. apply O, Hin.
  - assert (M : mem k (survivors interval min_count d) = false).
    { apply mem_false. intros H. apply N. eapply keys_survivors, H. }
    rewrite M. apply IH, ND'.
Qed.

End TableFacts.

Module RecordFacts.

Section Dicts.
Context {V : Type}.
Implicit Types (d : dict V) (k : string) (v : V).

Lemma get_set_same d k v : get (set d k v) k = Some v.
Proof.
  induction d as [|[k' w] d IH]; simpl.
  - rewrite String.eqb_refl. reflexivity.
  - destruct (String.eqb k' k) eqn:E; simpl.
    + rewrite String.eqb_refl. reflexivity.
    + rewrite E. exact IH.
Qed.

Lemma get_set_other d k k' v : k <> k' -> get (set d k v) k' = get d k'.
Proof.
  intros N. induction d as [|[k0 w] d IH]; simpl.
  - destruct (String.eqb k k') eqn:E; [apply String.eqb_eq in E; tauto|].
    reflexivity.
  - destruct (String.eqb k0 k) eqn:E; simpl.
    + apply String.eqb_eq in E; subst k0.
      destruct (String.eqb k k') eqn:E'; [apply String.eqb_eq in E'; tauto|].
      reflexivity.
    + destruct (String.eqb k0 k'); [reflexivity|exact IH].
Qed.

Lemma keys_set d k v :
  keys (set d k v) = if mem k d then keys d else keys d ++ [k].
Proof.
  destruct (mem k d) eqn:M.
  - apply keys_set_present. unfold mem in M.
    destruct (get d k) as [w|] eqn:G; [|discriminate].
    apply get_In in G. change k with (fst (k, w)). apply in_map, G.
  - apply mem_false in M. rewrite set_fresh by assumption.
    unfold keys. rewrite map_app. reflexivity.
Qed.

End Dicts.

(** A turn of the first loop on a line with a record. *)
Lemma observe_record (regex : regex) (d : dict value) (line url : string)
    (t : Q) :
  scanned d -> record_of regex line = Ok (Some (url, t)) ->
  observe regex d line = Ok (set d url (Timestamps (series d url ++ [t]))).
Proof.
  intros [ND F]. unfold record_of, observe.
  destruct (findall regex line) as [|fields rest]; [discriminate|].
  destruct (tuple_item fields 0) as [text|]; simpl; [|discriminate].
  destruct (float text) as [t'|]; simpl; [|discriminate].
  destruct (tuple_item fields 2) as [url'|]; simpl; [|discriminate].
  intros [= -> ->]. unfold series, mem, item.
  destruct (get d url) as [v|] eqn:G; [|reflexivity]. cbn [bind].
  apply get_In in G. rewrite Forall_forall in F. specialize (F _ G).
  simpl in F. destruct v; [reflexivity|contradiction].
Qed.

Lemma observe_no_record (regex : regex) (d : dict value) (line : string) :
  record_of regex line = Ok None -> observe regex d line = Ok d.
Proof.
  unfold record_of, observe.
  destruct (findall regex line) as [|fields rest]; [reflexivity|].
  destruct (tuple_item fields 0) as [text|]; simpl; [|discriminate].
  destruct (float text) as [t'|]; simpl; [|discriminate].
  destruct (tuple_item fields 2) as [url'|]; simpl; discriminate.
Qed.

Lemma scanned_set (d : dict value) (url : string) (l : list Q) (t : Q) :
  scanned d -> scanned (set d url (Timestamps (l ++ [t]))).
Proof.
  intros [ND F]. split.
  - rewrite keys_set. destruct (mem url d) eqn:M; [assumption|].
    apply NoDup_snoc; [assumption|]. apply mem_false, M.
  - apply Forall_set; [assumption|]. simpl. destruct l; exact I.
Qed.

Lemma series_of_cons (url u : string) (t : Q) (rs : list (string * Q)) :
  series_of url ((u, t) :: rs)
  = if String.eqb u url then t :: series_of url rs else series_of url rs.
Proof.
  unfold series_of. cbn [filter fst]. destruct (String.eqb u url); reflexivity.
Qed.

Lemma filter_twice {A : Type} (f g h : A -> bool) (l : list A) :
  (forall a, h a = f a && g a) -> filter f (filter g l) = filter h l.
Proof.
  intros H; induction l as [|a l IH]; [reflexivity|]. simpl.
  rewrite H. destruct (g a); simpl.
  - destruct (f a); simpl; rewrite IH; reflexivity.
  - rewrite andb_false_r. exact IH.
Qed.

(** The first loop from a table [d]: it appends to each series the
    timestamps of the URL's records, and adds the new URLs in the order in
    which they first occur. *)
Lemma foldM_observe_records (regex : regex) (lines : list string) :
  forall (rs : list (string * Q)) (d : dict value),
  scanned d -> records regex lines = Ok rs ->
  exists d',
    foldM (observe regex) lines d = Ok d' /\
    (forall url, series d' url = series d url ++ series_of url rs) /\
    (forall url, mem url d' = mem url d || negb (Nat.eqb (List.length (series_of url rs)) 0)) /\
    keys d'
    = keys d ++ filter (fun u => negb (mem u d)) (first_seen (map fst rs)).
Proof.
  induction lines as [|line lines IH]; intros rs d S.
  - simpl. intros [= <-]. exists d. split; [reflexivity|]. split; [|split].
    + intros url. unfold series_of. simpl. rewrite app_nil_r. reflexivity.
    + intros url. rewrite orb_false_r. reflexivity.
    + simpl. rewrite app_nil_r. reflexivity.
  - cbn [records foldM].
    destruct (record_of regex line) as [[[u t]|]|e] eqn:R; cbn [bind];
      [| |discriminate].
    + destruct (records regex lines) as [rs'|] eqn:Rs; cbn [bind];
        [|discriminate].
      intros [= <-]. rewrite (observe_record _ _ _ _ _ S R). cbn [bind].
      set (d1 := set d u (Timestamps (series d u ++ [t]))).
      destruct (IH rs' d1 (scanned_set d u _ t S) eq_refl)
        as (d' & E & Hs & Hm & Hk).
      exists d'. split; [exact E|]. split; [|split].
      * intros url. rewrite Hs, series_of_cons. unfold series at 1, d1.
        destruct (String.eqb u url) eqn:Eu.
        -- apply String.eqb_eq in Eu; subst url.
           rewrite get_set_same, <- app_assoc. reflexivity.
        -- apply String.eqb_neq in Eu. rewrite get_set_other by assumption.
           reflexivity.
      * intros url. rewrite Hm, series_of_cons. unfold mem at 1, d1.
        destruct (String.eqb u url) eqn:Eu.
        -- apply String.eqb_eq in Eu; subst url.
           rewrite get_set_same. cbn. rewrite orb_true_r. reflexivity.
        -- apply String.eqb_neq in Eu. rewrite get_set_other by assumption.
           reflexivity.
      * rewrite Hk. unfold d1 at 1. rewrite keys_set.
        cbn [map fst first_seen filter].
        assert (M1 : forall v, mem v d1 = mem v d || String.eqb v u).
        { intros v. unfold mem, d1. destruct (String.eqb v u) eqn:Ev.
          - apply String.eqb_eq in Ev; subst v. rewrite get_set_same.
            rewrite orb_true_r. reflexivity.
          - apply String.eqb_neq in Ev.
            rewrite get_set_other by congruence.
            rewrite orb_false_r. reflexivity. }
        destruct (mem u d) eqn:M; cbn [negb].
        -- f_equal. rewrite (filter_twice _ _ (fun v => negb (mem v d1))).
           ++ reflexivity.
           ++ intros v. rewrite M1.
              destruct (String.eqb v u) eqn:Ev; [|simpl; rewrite orb_false_r, andb_true_r; reflexivity].
              apply String.eqb_eq in Ev; subst v. rewrite M. reflexivity.
        -- rewrite <- app_assoc. f_equal. cbn [app]. f_equal.
           rewrite (filter_twice _ _ (fun v => negb (mem v d1))).
           ++ reflexivity.
           ++ intros v. rewrite M1, negb_orb. reflexivity.
    + destruct (records regex lines) as [rs'|] eqn:Rs; cbn [bind];
        [|discriminate].
      intros [= <-]. rewrite (observe_no_record _ _ _ R). cbn [bind].
      apply IH; [assumption|reflexivity].
Qed.

Lemma scanned_nil : scanned [].
Proof. split; constructor. Qed.

Lemma filter_all {A : Type} (l : list A) : filter (fun _ => true) l = l.
Proof. induction l; simpl; congruence. Qed.

(** What can go wrong in [float] and in a turn of the first loop. *)
Lemma float_raises (s : string) (e : exn) :
  float s = Raise e -> e = ValueError.
Proof.
  unfold float. destruct (split_dot (list_ascii_of_string s)) as [i f].
  destruct i as [|a i], f as [[|b f]|];
    repeat match goal with
           | |- context [match ?x with _ => _ end] => destruct x
           end;
    intros H; try discriminate H; injection H as <-; reflexivity.
Qed.

Lemma observe_raises (regex : regex) (d : dict value) (line : string)
    (e : exn) :
  scanned d -> observe regex d line = Raise e ->
  e = IndexError \/ e = ValueError.
Proof.
  intros [ND F]. unfold observe.
  destruct (findall regex line) as [|fields rest]; [discriminate|].
  unfold tuple_item at 1.
  destruct (nth_error fields 0) as [text|]; cbn [bind];
    [|intros [= <-]; left; reflexivity].
  destruct (float text) as [t|e'] eqn:Fl; cbn [bind];
    [|intros [= <-]; right; eapply float_raises, Fl].
  unfold tuple_item.
  destruct (nth_error fields 2) as [url|]; cbn [bind];
    [|intros [= <-]; left; reflexivity].
  unfold mem, item. destruct (get d url) as [v|] eqn:G; [|discriminate].
  cbn [bind]. apply get_In in G. rewrite Forall_forall in F.
  specialize (F _ G). simpl in F. destruct v; [discriminate|contradiction].
Qed.

Lemma foldM_raises {A B : Type} (P : A -> Prop) (Q : exn -> Prop)
    (f : A -> B -> result A) :
  (forall a b e, P a -> f a b = Raise e -> Q e) ->
  (forall a b a', P a -> f a b = Ok a' -> P a') ->
  forall l a e, P a -> foldM f l a = Raise e -> Q e.
Proof.
  intros HR HO l; induction l as [|b l IH]; intros a e Pa; [discriminate|].
  simpl. destruct (f a b) as [a'|e'] eqn:E; cbn [bind].
  - apply IH. eapply HO; eassumption.
  - intros [= <-]. eapply HR; eassumption.
Qed.

(** The table of the first loop, from the records of the log. *)
Lemma aggregate_records (config : Config) (regex : regex)
    (lines : list string) (rs : list (string * Q)) :
  (pattern <- build_regex_str config ["timestamp"; "client"; "url"]%string ;;
   compile pattern) = Ok regex ->
  records regex lines = Ok rs ->
  exists time_data,
    aggregate config lines = Ok time_data /\
    keys time_data = first_seen (map fst rs) /\
    forall url,
      get time_data url
      = match series_of url rs with
        | [] => None
        | _ :: _ => Some (Timestamps (series_of url rs))
        end.
Proof.
  intros C R.
  destruct (foldM_observe_records regex lines rs [] scanned_nil R)
    as (d & E & Hs & Hm & Hk).
  assert (A : aggregate config lines = Ok d).
  { unfold aggregate.
    destruct (build_regex_str config _) as [pattern|]; [|discriminate].
    cbn [bind] in *. rewrite C. exact E. }
  exists d. split; [exact A|]. split.
  - rewrite Hk. cbn [keys map app]. apply filter_all.
  - intros url. destruct (aggregate_scanned _ _ _ A) as [ND F].
    specialize (Hs url). specialize (Hm url). simpl in Hs, Hm.
    unfold series in Hs. unfold mem in Hm.
    destruct (get d url) as [v|] eqn:G.
    + apply get_In in G. rewrite Forall_forall in F. specialize (F _ G).
      simpl in F. destruct v as [[|a l]|n]; try contradiction.
      rewrite <- Hs. reflexivity.
    + destruct (series_of url rs); [reflexivity|discriminate].
Qed.

End RecordFacts.

(** ** Patterns and lines *)

Module BuildFacts.

(** *** The table of field patterns *)

Lemma keys_mark (field : string) (d : dict string) :
  keys (mark field d) = keys d.
Proof.
  unfold keys, mark. rewrite map_map. apply map_ext.
  intros [k v]. simpl. destruct (String.eqb k field); reflexivity.
Qed.

Lemma mark_absent (field : string) (d : dict string) :
  ~ In field (keys d) -> mark field d = d.
Proof.
  induction d as [|[k v] d IH]; simpl; intros N; [reflexivity|].
  destruct (String.eqb k field) eqn:E.
  - apply String.eqb_eq in E. tauto.
  - f_equal. apply IH. tauto.
Qed.

Lemma mark_comm (f g : string) (d : dict string) :
  mark f (mark g d) = mark g (mark f d).
Proof.
  unfold mark. rewrite !map_map. apply map_ext. intros [k v]. simpl.
  destruct (String.eqb k g) eqn:G, (String.eqb k f) eqn:F; simpl;
    rewrite ?G, ?F; reflexivity.
Qed.

(** One turn of the loop. *)
Lemma mark_step (field : string) (d : dict string) :
  NoDup (keys d) ->
  (if mem field d
   then regex_str <- item d field ;;
        Ok (set d field ("(" ++ regex_str ++ ")")%string)
   else Ok d)
  = Ok (mark field d).
Proof.
  intros ND. destruct (mem field d) eqn:M.
  - unfold mem in M. unfold item.
    destruct (get d field) as [v|] eqn:G; [|discriminate]. cbn [bind].
    f_equal. clear M. induction d as [|[k w] d IH]; [discriminate|].
    inversion ND as [|? ? N ND']; subst. simpl in *.
    destruct (String.eqb k field) eqn:E.
    + apply String.eqb_eq in E; subst k. injection G as ->.
      rewrite mark_absent by assumption. reflexivity.
    + f_equal. apply IH; assumption.
  - apply mem_false in M. rewrite mark_absent by assumption. reflexivity.
Qed.

Lemma mark_loop (fields : list string) (d : dict string) :
  NoDup (keys d) ->
  foldM
    (fun regex_strs field =>
       if mem field regex_strs
       then regex_str <- item regex_strs field ;;
            Ok (set regex_strs field ("(" ++ regex_str ++ ")")%string)
       else Ok regex_strs)
    fields d
  = Ok (fold_left (fun d f => mark f d) fields d).
Proof.
  revert d; induction fields as [|f fields IH]; intros d ND; [reflexivity|].
  cbn [foldM fold_left]. rewrite (mark_step f d ND). cbn [bind].
  apply IH. rewrite keys_mark. exact ND.
Qed.

Lemma keys_mark_all (fields : list string) (d : dict string) :
  keys (fold_left (fun d f => mark f d) fields d) = keys d.
Proof.
  revert d; induction fields as [|f fields IH]; intros d; [reflexivity|].
  simpl. rewrite IH. apply keys_mark.
Qed.

Lemma mark_all_Permutation (l l' : list string) :
  Permutation l l' ->
  forall d, fold_left (fun d f => mark f d) l d
            = fold_left (fun d f => mark f d) l' d.
Proof.
  intros P; induction P as [|x l l' P IH|x y l|l l' l'' P1 IH1 P2 IH2];
    intros d; simpl.
  - reflexivity.
  - apply IH.
  - rewrite mark_comm. reflexivity.
  - rewrite IH1. apply IH2.
Qed.

Lemma mark_all_known (known : string -> bool) (l : list string)
    (d : dict string) :
  (forall f, known f = false -> ~ In f (keys d)) ->
  fold_left (fun d f => mark f d) (filter known l) d
  = fold_left (fun d f => mark f d) l d.
Proof.
  revert d; induction l as [|f l IH]; intros d H; [reflexivity|].
  simpl. destruct (known f) eqn:K; simpl.
  - apply IH. intros g Hg. rewrite keys_mark. apply H, Hg.
  - rewrite (mark_absent f d) by (apply H, K). apply IH, H.
Qed.

(** Every field of [field_order] has a pattern in a table with the keys of
    [field_order]. *)
Lemma mapM_item_keys {V : Type} (d : dict V) (l : list string) :
  incl l (keys d) -> exists vs, mapM (item d) l = Ok vs.
Proof.
  intros H. apply mapM_ok. intros k Hk. unfold item.
  destruct (get d k) as [v|] eqn:G; [eauto|].
  apply get_None in G. exfalso. apply G, H, Hk.
Qed.

Lemma existsb_Permutation {A : Type} (f : A -> bool) (l l' : list A) :
  Permutation l l' -> existsb f l = existsb f l'.
Proof.
  intros P. apply eq_true_iff_eq. rewrite !existsb_exists.
  split; intros (x & Hx & Fx); exists x; split; try assumption.
  - eapply Permutation_in; eassumption.
  - eapply Permutation_in; [apply Permutation_sym|]; eassumption.
Qed.

Lemma existsb_filter {A : Type} (f known : A -> bool) (l : list A) :
  (forall a, f a = true -> known a = true) ->
  existsb f (filter known l) = existsb f l.
Proof.
  intros H; induction l as [|a l IH]; [reflexivity|]. simpl.
  destruct (known a) eqn:K; simpl; rewrite IH; [reflexivity|].
  destruct (f a) eqn:F; [|reflexivity]. rewrite (H a F) in K. discriminate.
Qed.

Lemma map_filter_comm {A B : Type} (g : A -> B) (p : B -> bool) (l : list A) :
  map g (filter (fun a => p (g a)) l) = filter p (map g l).
Proof.
  induction l as [|a l IH]; [reflexivity|]. simpl.
  destruct (p (g a)); simpl; rewrite IH; reflexivity.
Qed.

Lemma keys_regex_strs0 : keys regex_strs0 = field_order.
Proof. reflexivity. Qed.

Lemma NoDup_field_order : NoDup field_order.
Proof.
  unfold field_order.
  repeat (constructor; [simpl; intros H; repeat destruct H as [H|H]; try discriminate H; exact H|]).
  constructor.
Qed.

(** [build_regex_str] with its loop carried out. *)
Lemma build_regex_str_marked (config : Config) (fields : list string) :
  build_regex_str config fields
  = (let fields := map lower fields in
     let regex_strs := fold_left (fun d f => mark f d) fields regex_strs0 in
     let regex_strs :=
       if truthy (client config) then
         let c := match client config with Some c => c | None => ""%string end in
         if existsb (String.eqb "client") fields
         then set regex_strs "client" ("(" ++ c ++ ")")%string
         else set regex_strs "client" ("(?:" ++ c ++ ")")%string
       else regex_strs in
     strs <- mapM (item regex_strs) field_order ;;
     Ok (String.concat "\s+" strs)).
Proof.
  unfold build_regex_str. fold regex_strs0.
  rewrite mark_loop by (rewrite keys_regex_strs0; apply NoDup_field_order).
  reflexivity.
Qed.

(** The table keeps the keys of [field_order], so every lookup of
    [build_regex_str] finds its key. *)
Lemma build_regex_str_ok (config : Config) (fields : list string) :
  exists pattern, build_regex_str config fields = Ok pattern.
Proof.
  rewrite build_regex_str_marked. cbv zeta.
  set (d := fold_left _ _ regex_strs0).
  assert (K : keys d = field_order).
  { unfold d. rewrite keys_mark_all. reflexivity. }
  assert (C : In "client"%string (keys d)).
  { rewrite K. simpl. tauto. }
  match goal with
  | |- exists p, (strs <- mapM (item ?t) _ ;; _) = _ =>
      destruct (mapM_item_keys t field_order) as [vs E]
  end.
  - destruct (truthy (client config)); [|rewrite K; apply incl_refl].
    destruct (existsb _ _); rewrite keys_set_present by assumption;
      rewrite K; apply incl_refl.
  - rewrite E. cbn [bind]. eauto.
Qed.

End BuildFacts.

Module RunFacts.

(** *** Where a repetition stops *)

Section Runs.
Context {R : Type} (c : ascii -> bool) (k : list ascii -> option R).

(** A greedy repetition takes the whole run when what follows then
    matches. *)
Lemma star_greedy_run (w s : list ascii) (r : R) :
  forallb c w = true -> stops c s -> k s = Some r ->
  star_greedy c k (w ++ s) = Some r.
Proof.
  intros F S K. induction w as [|a w IH].
  - destruct s as [|b t]; simpl in *; [exact K|]. rewrite S. exact K.
  - simpl in F. apply andb_prop in F. destruct F as [Fa F].
    simpl. rewrite Fa, (IH F). reflexivity.
Qed.

(** A lazy repetition takes the run when what follows matches after it
    and at no place within it. *)
Lemma star_lazy_run (p : ascii -> bool) (w s : list ascii) (r : R) :
  forallb c w = true -> forallb p w = true ->
  (forall b t, p b = true -> k (b :: t) = None) ->
  k s = Some r ->
  star_lazy c k (w ++ s) = Some r.
Proof.
  intros F P N K. induction w as [|a w IH].
  - destruct s; simpl; rewrite K; reflexivity.
  - simpl in F, P. apply andb_prop in F. destruct F as [Fa F].
    apply andb_prop in P. destruct P as [Pa P].
    simpl. rewrite (N a (w ++ s) Pa), Fa. exact (IH F P).
Qed.

End Runs.

Lemma exec_plus_run (c : cclass) (l : list instr) (st : mstate)
    (w s : list ascii) (r : mstate * list ascii) :
  w <> [] -> forallb (test c) w = true -> stops (test c) s ->
  exec l st s = Some r ->
  exec (IChar c Plus :: l) st (w ++ s) = Some r.
Proof.
  intros N F S K. destruct w as [|a w]; [contradiction|].
  simpl in F. apply andb_prop in F. destruct F as [Fa F].
  simpl. rewrite Fa. apply star_greedy_run; assumption.
Qed.

Lemma exec_star_lazy_run (p : ascii -> bool) (c : cclass) (l : list instr)
    (st : mstate) (w s : list ascii) (r : mstate * list ascii) :
  forallb (test c) w = true -> forallb p w = true ->
  (forall b t, p b = true -> exec l st (b :: t) = None) ->
  exec l st s = Some r ->
  exec (IChar c StarLazy :: l) st (w ++ s) = Some r.
Proof. intros F P N K. simpl. eapply star_lazy_run; eassumption. Qed.

Lemma exec_plus_lazy_run (p : ascii -> bool) (c : cclass) (l : list instr)
    (st : mstate) (w s : list ascii) (r : mstate * list ascii) :
  w <> [] -> forallb (test c) w = true -> forallb p w = true ->
  (forall b t, p b = true -> exec l st (b :: t) = None) ->
  exec l st s = Some r ->
  exec (IChar c PlusLazy :: l) st (w ++ s) = Some r.
Proof.
  intros W F P N K. destruct w as [|a w]; [contradiction|].
  simpl in F, P. apply andb_prop in F. destruct F as [Fa F].
  apply andb_prop in P. destruct P as [Pa P].
  simpl. rewrite Fa. eapply star_lazy_run; eassumption.
Qed.

Lemma exec_literal (a : ascii) (l : list instr) (st : mstate)
    (s : list ascii) :
  exec (IChar (CLit a) One :: l) st (a :: s) = exec l st s.
Proof. simpl. rewrite Ascii.eqb_refl. reflexivity. Qed.

(** White space is wanted, and something else is there. *)
Lemma exec_space_fails (l : list instr) (st : mstate) (b : ascii)
    (t : list ascii) :
  not_space b = true -> exec (IChar CSpace Plus :: l) st (b :: t) = None.
Proof.
  intros H. unfold not_space in H. apply negb_true_iff in H.
  simpl. rewrite H. reflexivity.
Qed.

Lemma exec_literal_fails (a : ascii) (l : list instr) (st : mstate)
    (b : ascii) (t : list ascii) :
  negb (Ascii.eqb b a) = true -> exec (IChar (CLit a) One :: l) st (b :: t) = None.
Proof. intros H. apply negb_true_iff in H. simpl. rewrite H. reflexivity. Qed.

(** The characters of a plain target, one for one. *)
Lemma exec_plain (c : list ascii) (l : list instr) (st : mstate)
    (s : list ascii) :
  exec (map (fun a => IChar (atom_of a) One) c ++ l) st s
  = match matches_here c s with
    | Some s' => exec l st s'
    | None => None
    end.
Proof.
  revert s; induction c as [|a c IH]; intros s; [reflexivity|].
  destruct s as [|b s]; [reflexivity|].
  cbn [map app exec repeat_char matches_here]. unfold one.
  destruct (test (atom_of a) b); [apply IH|reflexivity].
Qed.

Lemma matches_here_app (c f s : list ascii) :
  matches_here c f = Some [] -> matches_here c (f ++ s) = Some s.
Proof.
  revert f; induction c as [|a c IH]; intros f; simpl.
  - intros [= ->]. reflexivity.
  - destruct f as [|b f]; [discriminate|]. simpl.
    destruct (test (atom_of a) b); [apply IH|discriminate].
Qed.

Lemma solid_any (w : list ascii) :
  forallb not_space w = true ->
  forallb (test CAny) w = true.
Proof.
  induction w as [|a w IH]; [reflexivity|]. simpl. intros H.
  apply andb_prop in H. destruct H as [Ha H]. rewrite (IH H), andb_true_r.
  destruct (Ascii.eqb a newline) eqn:E; [|reflexivity].
  apply Ascii.eqb_eq in E. subst a. discriminate Ha.
Qed.

Lemma digits_solid (w : list ascii) :
  forallb is_digit w = true ->
  forallb not_space w = true.
Proof.
  induction w as [|a w IH]; [reflexivity|]. simpl. intros H.
  apply andb_prop in H. destruct H as [Ha H]. unfold not_space at 1.
  rewrite (digit_not_space a Ha), (IH H). reflexivity.
Qed.

Lemma stops_solid (w s : list ascii) :
  w <> [] -> forallb not_space w = true ->
  stops is_space (w ++ s).
Proof.
  intros N F. destruct w as [|a w]; [contradiction|]. simpl in *.
  apply andb_prop in F. destruct F as [Fa _]. apply negb_true_iff, Fa.
Qed.

Lemma stops_digits_blank (w s : list ascii) :
  w <> [] -> forallb is_space w = true -> stops is_digit (w ++ s).
Proof.
  intros N F. destruct w as [|a w]; [contradiction|]. simpl in *.
  apply andb_prop in F. destruct F as [Fa _]. apply space_not_digit, Fa.
Qed.

(** A match at the first place of a text is the first of [findall]. *)
Lemma findall_from_first (r : regex) (s : list ascii) (st : mstate)
    (rest : list ascii) :
  exec (prog r) mstate0 s = Some (st, rest) ->
  exists more, findall_from r s 0 = fields_of r st :: more.
Proof.
  intros E. destruct s as [|a s]; simpl; rewrite E; eauto.
Qed.


Lemma exec_last_lazy (c : cclass) (st : mstate) (s : list ascii) :
  exec [IChar c StarLazy] st s = Some (st, s).
Proof. destruct s; reflexivity. Qed.

Section Record.
Variable mid : list instr.
Variables ts1 ts2 sp1 dur sp2 cl sp3 rc1 rc2 sp4 byt sp5 met sp6 url sp7
  usr sp8 hie sp9 typ tail : list ascii.
Hypothesis Hts1 : run is_digit ts1.
Hypothesis Hts2 : run is_digit ts2.
Hypothesis Hsp1 : run is_space sp1.
Hypothesis Hdur : run is_digit dur.
Hypothesis Hsp2 : run is_space sp2.
Hypothesis Hcl : run not_space cl.
Hypothesis Hmid :
  forall st s r,
    exec after_client st s = Some r ->
    exec (mid ++ after_client) st (cl ++ s) = Some r.
Hypothesis Hsp3 : run is_space sp3.
Hypothesis Hrc1 : forallb not_space rc1 = true.
Hypothesis Hrc1' : forallb not_slash rc1 = true.
Hypothesis Hrc2 : forallb not_space rc2 = true.
Hypothesis Hsp4 : run is_space sp4.
Hypothesis Hbyt : run is_digit byt.
Hypothesis Hsp5 : run is_space sp5.
Hypothesis Hmet : run not_space met.
Hypothesis Hsp6 : run is_space sp6.
Hypothesis Hurl : run not_space url.
Hypothesis Hsp7 : run is_space sp7.
Hypothesis Husr : run not_space usr.
Hypothesis Hsp8 : run is_space sp8.
Hypothesis Hhie : run not_space hie.
Hypothesis Hsp9 : run is_space sp9.
Hypothesis Htyp : run not_space typ.

Lemma exec_record :
  exists st,
    exec (before_client ++ mid ++ after_client) mstate0
      (ts1 ++ "."%char :: ts2 ++ sp1 ++ dur ++ sp2 ++ cl ++ sp3 ++ rc1
       ++ "/"%char :: rc2 ++ sp4 ++ byt ++ sp5 ++ met ++ sp6 ++ url ++ sp7
       ++ usr ++ sp8 ++ hie ++ sp9 ++ typ ++ tail)
    = Some (st, typ ++ tail) /\
    lookup 1 (groups st) = Some (ts1 ++ "."%char :: ts2) /\
    lookup 2 (groups st) = Some cl /\
    lookup 3 (groups st) = Some url.
Proof.
  eexists. split.
  - unfold before_client. cbn [app].
    rewrite exec_open.
    apply exec_plus_run; [apply Hts1|apply Hts1|reflexivity|].
    rewrite exec_literal.
    apply exec_plus_run;
      [apply Hts2|apply Hts2|apply stops_digits_blank; apply Hsp1|].
    rewrite exec_close.
    apply exec_plus_run;
      [apply Hsp1|apply Hsp1
      |apply stops_solid; [apply Hdur|apply digits_solid, Hdur]|].
    apply exec_plus_run;
      [apply Hdur|apply Hdur|apply stops_digits_blank; apply Hsp2|].
    apply exec_plus_run;
      [apply Hsp2|apply Hsp2|apply stops_solid; apply Hcl|].
    rewrite exec_open. apply Hmid. unfold after_client, after_url. cbn [app].
    rewrite exec_close.
    apply exec_plus_run; [apply Hsp3|apply Hsp3| |].
    { destruct rc1 as [|a r]; [reflexivity|]. simpl in Hrc1 |- *.
      apply andb_prop in Hrc1. apply negb_true_iff, Hrc1. }
    apply (exec_star_lazy_run not_slash);
      [apply solid_any, Hrc1|exact Hrc1'
      |intros b t; apply exec_literal_fails|].
    rewrite exec_literal.
    apply (exec_star_lazy_run not_space);
      [apply solid_any, Hrc2|exact Hrc2|intros b t; apply exec_space_fails|].
    apply exec_plus_run;
      [apply Hsp4|apply Hsp4
      |apply stops_solid; [apply Hbyt|apply digits_solid, Hbyt]|].
    apply (exec_plus_lazy_run not_space);
      [apply Hbyt|apply Hbyt|apply digits_solid, Hbyt
      |intros b t; apply exec_space_fails|].
    apply exec_plus_run;
      [apply Hsp5|apply Hsp5|apply stops_solid; apply Hmet|].
    apply (exec_star_lazy_run not_space);
      [apply solid_any, Hmet|apply Hmet|intros b t; apply exec_space_fails|].
    apply exec_plus_run;
      [apply Hsp6|apply Hsp6|apply stops_solid; apply Hurl|].
    rewrite exec_open.
    apply (exec_star_lazy_run not_space);
      [apply solid_any, Hurl|apply Hurl
      |intros b t; rewrite exec_close; apply exec_space_fails|].
    rewrite exec_close.
    apply exec_plus_run;
      [apply Hsp7|apply Hsp7|apply stops_solid; apply Husr|].
    apply (exec_star_lazy_run not_space);
      [apply solid_any, Husr|apply Husr|intros b t; apply exec_space_fails|].
    apply exec_plus_run;
      [apply Hsp8|apply Hsp8|apply stops_solid; apply Hhie|].
    apply (exec_star_lazy_run not_space);
      [apply solid_any, Hhie|apply Hhie|intros b t; apply exec_space_fails|].
    apply exec_plus_run;
      [apply Hsp9|apply Hsp9|apply stops_solid; apply Htyp|].
    apply exec_last_lazy.
  - unfold close_group, open_group.
    cbn [starts groups lookup Nat.eqb].
    split; [|split].
    + match goal with
      | |- context [List.length (sp1 ++ ?r)] => set (rest := sp1 ++ r)
      end.
      change (ts1 ++ "."%char :: ts2 ++ rest)
        with (ts1 ++ ("."%char :: ts2) ++ rest).
      rewrite (app_assoc ts1), firstn_consumed. reflexivity.
    + rewrite firstn_consumed. reflexivity.
    + rewrite firstn_consumed. reflexivity.
Qed.

End Record.

(** The two forms of the client: the characters of a plain target, and
    the [.*?] of a run without target. *)
Lemma exec_client_plain (c cl : list ascii) (st : mstate) (s : list ascii)
    (r : mstate * list ascii) :
  matches_here c cl = Some [] ->
  exec after_client st s = Some r ->
  exec (map (fun a => IChar (atom_of a) One) c ++ after_client) st (cl ++ s)
  = Some r.
Proof. intros M K. rewrite exec_plain, (matches_here_app _ _ _ M). exact K. Qed.

Lemma exec_client_any (cl : list ascii) (st : mstate) (s : list ascii)
    (r : mstate * list ascii) :
  forallb not_space cl = true ->
  exec after_client st s = Some r ->
  exec ([IChar CAny StarLazy] ++ after_client) st (cl ++ s) = Some r.
Proof.
  intros S K. cbn [app].
  apply (exec_star_lazy_run not_space);
    [apply solid_any, S|exact S| |exact K].
  intros b t B. unfold after_client. cbn [app]. rewrite exec_close.
  apply exec_space_fails, B.
Qed.

End RunFacts.

Module LineFacts.
Import RunFacts.

Lemma digits_run (s : string) :
  digits s = true -> run is_digit (list_ascii_of_string s).
Proof. destruct s; [discriminate|]. intros H. split; [discriminate|exact H]. Qed.

Lemma blank_run (s : string) :
  blank s = true -> run is_space (list_ascii_of_string s).
Proof. destruct s; [discriminate|]. intros H. split; [discriminate|exact H]. Qed.

Lemma word_run (s : string) :
  word s = true -> run not_space (list_ascii_of_string s).
Proof. destruct s; [discriminate|]. intros H. split; [discriminate|exact H]. Qed.

Lemma matches_all_here (c s : string) :
  matches_all c s = true ->
  matches_here (list_ascii_of_string c) (list_ascii_of_string s) = Some [].
Proof.
  unfold matches_all.
  destruct (matches_here _ _) as [[|a r]|]; [reflexivity|discriminate|discriminate].
Qed.

Lemma render_whole (l : squid_line) :
  list_ascii_of_string (render l)
  = list_ascii_of_string (f_seconds l)
    ++ "."%char :: list_ascii_of_string (f_millis l)
    ++ list_ascii_of_string (gap1 l) ++ list_ascii_of_string (f_duration l)
    ++ list_ascii_of_string (gap2 l) ++ list_ascii_of_string (f_client l)
    ++ list_ascii_of_string (gap3 l) ++ list_ascii_of_string (f_result l)
    ++ "/"%char :: list_ascii_of_string (f_code l)
    ++ list_ascii_of_string (gap4 l) ++ list_ascii_of_string (f_bytes l)
    ++ list_ascii_of_string (gap5 l) ++ list_ascii_of_string (f_method l)
    ++ list_ascii_of_string (gap6 l) ++ list_ascii_of_string (f_url l)
    ++ list_ascii_of_string (gap7 l) ++ list_ascii_of_string (f_user l)
    ++ list_ascii_of_string (gap8 l)
    ++ list_ascii_of_string (f_hierarchy_code l)
    ++ list_ascii_of_string (gap9 l) ++ list_ascii_of_string (f_type l)
    ++ list_ascii_of_string (f_end l).
Proof.
  unfold render, f_timestamp.
  rewrite !list_ascii_of_string_app. cbn [list_ascii_of_string app].
  rewrite <- !app_assoc. reflexivity.
Qed.

Lemma timestamp_text (l : squid_line) :
  string_of_list_ascii
    (list_ascii_of_string (f_seconds l)
     ++ "."%char :: list_ascii_of_string (f_millis l))
  = f_timestamp l.
Proof.
  rewrite <- (string_of_list_ascii_of_string (f_timestamp l)). f_equal.
  unfold f_timestamp. rewrite !list_ascii_of_string_app. reflexivity.
Qed.

(** A well-shaped line under a pattern whose client part takes the client
    field: the first loop reads its URL and its timestamp. *)
Lemma record_of_shaped (mid : list instr) (l : squid_line) :
  well_shaped l = true ->
  (forall st s r,
     exec after_client st s = Some r ->
     exec (mid ++ after_client) st (list_ascii_of_string (f_client l) ++ s)
     = Some r) ->
  exists q,
    float (f_timestamp l) = Ok q /\
    record_of {| prog := before_client ++ mid ++ after_client; ngroups := 3 |}
      (render l)
    = Ok (Some (f_url l, q)).
Proof.
  intros W M. unfold well_shaped in W.
  repeat (apply andb_prop in W; let H := fresh "W" in destruct W as [W H]).
  destruct (exec_record mid
              _ _ _ _ _ _ _ _ _ _ _ _ _ _ _ _ _ _ _ _ _
              (list_ascii_of_string (f_end l))
              (digits_run _ W) (digits_run _ W20) (blank_run _ W19)
              (digits_run _ W18) (blank_run _ W17) (word_run _ W16)
              M (blank_run _ W15)
              W14 W13 W12 (blank_run _ W11) (digits_run _ W10)
              (blank_run _ W9) (word_run _ W8) (blank_run _ W7)
              (word_run _ W6) (blank_run _ W5) (word_run _ W4)
              (blank_run _ W3) (word_run _ W2) (blank_run _ W1)
              (word_run _ W0))
    as (st & X & G1 & _ & G3).
  rewrite <- render_whole in X.
  set (r := {| prog := before_client ++ mid ++ after_client; ngroups := 3 |}).
  destruct (findall_from_first r _ _ _ X) as [more F].
  destruct (float_decimal (list_ascii_of_string (f_seconds l))
              (list_ascii_of_string (f_millis l))
              (proj1 (digits_run _ W)) (proj2 (digits_run _ W))
              (proj2 (digits_run _ W20))) as [q Q].
  rewrite timestamp_text in Q.
  exists q. split; [exact Q|].
  unfold record_of, findall. rewrite F.
  unfold fields_of. cbn [r ngroups seq map tuple_item nth_error bind].
  unfold group. rewrite G1, G3, timestamp_text, Q. cbn [bind].
  rewrite string_of_list_ascii_of_string. reflexivity.
Qed.

Lemma record_of_well_formed (c : string) (l : squid_line) :
  well_formed c l = true ->
  exists q,
    float (f_timestamp l) = Ok q /\
    record_of (line_regex c) (render l) = Ok (Some (f_url l, q)).
Proof.
  unfold well_formed. intros W. apply andb_prop in W. destruct W as [W M].
  apply (record_of_shaped
           (map (fun a => IChar (atom_of a) One) (list_ascii_of_string c))
           l W).
  intros st s r. apply exec_client_plain, matches_all_here, M.
Qed.

Lemma record_of_any_client (l : squid_line) :
  well_shaped l = true ->
  exists q,
    float (f_timestamp l) = Ok q /\
    record_of any_client_regex (render l) = Ok (Some (f_url l, q)).
Proof.
  intros W. apply (record_of_shaped [IChar CAny StarLazy] l W).
  intros st s r. apply exec_client_any.
  unfold well_shaped in W.
  repeat (apply andb_prop in W; let H := fresh "W" in destruct W as [W H]).
  apply word_run, W16.
Qed.

(** The pattern of a run without target compiles, to [any_client_regex]. *)
Lemma compile_any_client (config : Config) :
  truthy (client config) = false ->
  (pattern <- build_regex_str config ["timestamp"; "client"; "url"]%string ;;
   compile pattern) = Ok any_client_regex.
Proof.
  intros T. unfold build_regex_str. rewrite T. vm_compute. reflexivity.
Qed.

End LineFacts.

Module LazyFacts.

(** *** What a lazy repetition takes is as short as can be *)

Section Least.
Context {R : Type} (c : ascii -> bool) (k : list ascii -> option R).

Lemma star_lazy_least (s : list ascii) (r : R) :
  star_lazy c k s = Some r ->
  exists w s',
    s = w ++ s' /\ forallb c w = true /\ k s' = Some r /\
    forall w1 a w2, w = w1 ++ a :: w2 -> k (a :: w2 ++ s') = None.
Proof.
  revert r; induction s as [|a s IH]; intros r; simpl.
  - destruct (k []) eqn:K; [|discriminate]. intros [= <-].
    exists [], []. repeat split; auto.
    intros [|x w1] b w2 H; discriminate H.
  - destruct (k (a :: s)) eqn:K.
    + intros [= <-]. exists [], (a :: s). repeat split; auto.
      intros [|x w1] b w2 H; discriminate H.
    + destruct (c a) eqn:E; [|discriminate]. intros H.
      destruct (IH r H) as (w & s' & -> & F & K' & L).
      exists (a :: w), s'. simpl. rewrite E, F. repeat split; auto.
      intros [|x w1] b w2 W.
      * injection W as <- <-. exact K.
      * injection W as _ W. eapply L, W.
Qed.

(** A repetition finds a match wherever there is one. *)
Lemma star_greedy_some (w s : list ascii) :
  forallb c w = true -> k s <> None -> star_greedy c k (w ++ s) <> None.
Proof.
  intros F K. induction w as [|a w IH].
  - destruct s as [|b t]; simpl; [exact K|].
    destruct (c b); [|exact K].
    destruct (star_greedy c k t); [discriminate|exact K].
  - simpl in F. apply andb_prop in F. destruct F as [Fa F]. simpl. rewrite Fa.
    specialize (IH F). destruct (star_greedy c k (w ++ s)); [discriminate|].
    contradiction.
Qed.

Lemma star_lazy_some (w s : list ascii) :
  forallb c w = true -> k s <> None -> star_lazy c k (w ++ s) <> None.
Proof.
  intros F K. induction w as [|a w IH].
  - destruct s as [|b t]; simpl.
    + destruct (k []); [discriminate|contradiction].
    + destruct (k (b :: t)); [discriminate|contradiction].
  - simpl in F. apply andb_prop in F. destruct F as [Fa F]. simpl.
    destruct (k (a :: w ++ s)); [discriminate|]. rewrite Fa. exact (IH F).
Qed.

End Least.

Lemma exec_plus_some (c : cclass) (l : list instr) (st : mstate)
    (w s : list ascii) :
  w <> [] -> forallb (test c) w = true -> exec l st s <> None ->
  exec (IChar c Plus :: l) st (w ++ s) <> None.
Proof.
  intros N F K. destruct w as [|a w]; [contradiction|].
  simpl in F. apply andb_prop in F. destruct F as [Fa F].
  simpl. rewrite Fa. apply star_greedy_some; assumption.
Qed.

Lemma exec_star_lazy_some (c : cclass) (l : list instr) (st : mstate)
    (w s : list ascii) :
  forallb (test c) w = true -> exec l st s <> None ->
  exec (IChar c StarLazy :: l) st (w ++ s) <> None.
Proof. intros F K. simpl. apply star_lazy_some; assumption. Qed.

Lemma forallb_false_split {A : Type} (p : A -> bool) (w : list A) :
  forallb p w = false ->
  exists w1 a w2, w = w1 ++ a :: w2 /\ p a = false.
Proof.
  induction w as [|a w IH]; simpl; [discriminate|].
  destruct (p a) eqn:E.
  - intros H. destruct (IH H) as (w1 & b & w2 & -> & Pb).
    exists (a :: w1), b, w2. auto.
  - intros _. exists [], a, w. auto.
Qed.

(** Where the rest of the pattern matches after the URL, it matches from
    any white space within it on. *)
Lemma after_url_some (st st2 : mstate) (a : ascii) (w2 s : list ascii)
    (r : mstate * list ascii) :
  is_space a = true -> forallb (test CAny) w2 = true ->
  exec after_url st s = Some r ->
  exec after_url st2 (a :: w2 ++ s) <> None.
Proof.
  intros A F H. unfold after_url in *.
  destruct (exec_char_inv _ _ _ _ _ _ H) as (sp1 & s1 & -> & F1 & N1 & H1).
  destruct (exec_char_inv _ _ _ _ _ _ H1) as (g1 & s2 & -> & F2 & _ & H2).
  destruct (exec_char_inv _ _ _ _ _ _ H2) as (sp2 & s3 & -> & F3 & N3 & _).
  change (a :: w2 ++ sp1 ++ g1 ++ sp2 ++ s3)
    with ([a] ++ w2 ++ sp1 ++ g1 ++ sp2 ++ s3).
  apply exec_plus_some; [discriminate|simpl; rewrite A; reflexivity|].
  apply exec_star_lazy_some; [exact F|].
  apply exec_plus_some; [exact (N1 eq_refl)|exact F1|].
  apply exec_star_lazy_some; [exact F2|].
  apply exec_plus_some; [exact (N3 eq_refl)|exact F3|].
  change s3 with ([] ++ s3).
  apply exec_star_lazy_some; [reflexivity|]. simpl. discriminate.
Qed.

(** The URL of a match holds no white space. *)
Lemma exec_line_prog_url (c s rest : list ascii) (st' : mstate) :
  exec (line_prog c) mstate0 s = Some (st', rest) ->
  exists u,
    lookup 3 (groups st') = Some u /\ forallb not_space u = true.
Proof.
  unfold line_prog. cbn [app]. rewrite exec_open. intros H.
  destruct (exec_char_inv _ _ _ _ _ _ H) as (w1 & s1 & -> & _ & _ & H1).
  destruct (exec_one_inv _ _ _ _ _ H1) as (dot & s2 & -> & _ & H2).
  destruct (exec_char_inv _ _ _ _ _ _ H2) as (w2 & s3 & -> & _ & _ & H3).
  rewrite exec_close in H3.
  destruct (exec_char_inv _ _ _ _ _ _ H3) as (sp1 & s4 & -> & _ & _ & H4).
  destruct (exec_char_inv _ _ _ _ _ _ H4) as (d & s5 & -> & _ & _ & H5).
  destruct (exec_char_inv _ _ _ _ _ _ H5) as (sp2 & s6 & -> & _ & _ & H6).
  rewrite exec_open in H6.
  destruct (exec_plain_inv _ _ _ _ _ H6) as (s7 & _ & H7).
  rewrite exec_close in H7.
  destruct (exec_char_inv _ _ _ _ _ _ H7) as (sp3 & s8 & -> & _ & _ & H8).
  destruct (exec_char_inv _ _ _ _ _ _ H8) as (r1 & s9 & -> & _ & _ & H9).
  destruct (exec_one_inv _ _ _ _ _ H9) as (sl & s10 & -> & _ & H10).
  destruct (exec_char_inv _ _ _ _ _ _ H10) as (r2 & s11 & -> & _ & _ & H11).
  destruct (exec_char_inv _ _ _ _ _ _ H11) as (sp4 & s12 & -> & _ & _ & H12).
  destruct (exec_char_inv _ _ _ _ _ _ H12) as (b & s13 & -> & _ & _ & H13).
  destruct (exec_char_inv _ _ _ _ _ _ H13) as (sp5 & s14 & -> & _ & _ & H14).
  destruct (exec_char_inv _ _ _ _ _ _ H14) as (m & s15 & -> & _ & _ & H15).
  destruct (exec_char_inv _ _ _ _ _ _ H15) as (sp6 & s16 & -> & _ & _ & H16).
  rewrite exec_open in H16. fold after_url in H16.
  cbn [exec repeat_char] in H16.
  destruct (star_lazy_least _ _ _ _ H16) as (u & s17 & -> & Fu & K & L).
  exists u. split.
  - assert (NC : Forall (fun i => i <> IClose 3) after_url).
    { repeat (constructor; [discriminate|]). constructor. }
    rewrite (exec_groups 3 _ _ _ _ _ NC K).
    unfold close_group, open_group. cbn [starts groups lookup Nat.eqb].
    rewrite firstn_consumed. reflexivity.
  - destruct (forallb not_space u) eqn:S; [reflexivity|]. exfalso.
    destruct (forallb_false_split _ _ S) as (u1 & a & u2 & -> & A).
    unfold not_space in A. apply negb_false_iff in A.
    rewrite forallb_app in Fu. apply andb_prop in Fu. destruct Fu as [_ Fu].
    simpl in Fu. apply andb_prop in Fu. destruct Fu as [_ Fu2].
    refine (after_url_some _ _ a u2 s17 _ A Fu2 K _).
    exact (L u1 a u2 eq_refl).
Qed.

End LazyFacts.

Import CountFacts WindowFacts SortFacts GrowFacts TableFacts RecordFacts.
Import BuildFacts.
Import RunFacts LineFacts LazyFacts.

(** ** The pattern builder *)

(** X1.  [build_regex_str] never raises: whatever the configuration and
    the list of field names, it returns a pattern.  The table of field
    patterns keeps the ten keys of [field_order] throughout, so no lookup
    fails. *)
Theorem build_regex_str_never_raises (config : Config) (fields : list string) :
  exists pattern, build_regex_str config fields = Ok pattern.
Proof. apply build_regex_str_ok. Qed.

(** X2.  A field name that is not one of the ten of [field_order], case
    apart, has no effect: the pattern is the one built without it. *)
Theorem build_regex_str_ignores_unknown_fields (config : Config)
    (fields : list string) :
  build_regex_str config
    (filter (fun f => existsb (String.eqb (lower f)) field_order) fields)
  = build_regex_str config fields.
Proof.
  rewrite !build_regex_str_marked. cbv zeta.
  rewrite (map_filter_comm lower
             (fun g => existsb (String.eqb g) field_order) fields).
  rewrite mark_all_known.
  - rewrite existsb_filter; [reflexivity|].
    intros a H. apply String.eqb_eq in H. subst a. reflexivity.
  - intros f H N. change (keys regex_strs0) with field_order in N.
    assert (T : existsb (String.eqb f) field_order = true).
    { apply existsb_exists. exists f. split; [exact N|apply String.eqb_refl]. }
    congruence.
Qed.

(** X3.  The order in which the fields to capture are named does not
    matter: two lists with the same names, each as often, give the same
    pattern, whose groups stand in the order of the log's fields. *)
Theorem build_regex_str_order_of_fields (config : Config)
    (fields fields' : list string) :
  Permutation fields fields' ->
  build_regex_str config fields = build_regex_str config fields'.
Proof.
  intros P. rewrite !build_regex_str_marked. cbv zeta.
  pose proof (Permutation_map lower P) as P'.
  rewrite (mark_all_Permutation _ _ P').
  rewrite (existsb_Permutation _ _ _ P'). reflexivity.
Qed.

Lemma build_regex_str_order_of_fields_witness :
  Permutation ["timestamp"; "client"; "url"]%string
              ["client"; "timestamp"; "url"]%string /\
  build_regex_str cfg5 ["timestamp"; "client"; "url"]%string
  = build_regex_str cfg5 ["client"; "timestamp"; "url"]%string.
Proof.
  split; [apply perm_swap|].
  apply (build_regex_str_order_of_fields cfg5). apply perm_swap.
Defined.

(** ** The line pattern *)

(** X4.  A line that Squid writes for a client that the plain target
    matches is recorded: with digits for the timestamp, the duration and
    the size, a result code with its slash, fields without white space and
    blanks between them, the first loop reads the URL of the line, which
    is its seventh field, and the number that its first field denotes. *)
Theorem well_formed_line_is_recorded (config : Config) (c : string)
    (l : squid_line) :
  client config = Some c -> plain c = true -> well_formed c l = true ->
  exists regex q,
    (pattern <- build_regex_str config ["timestamp"; "client"; "url"]%string ;;
     compile pattern) = Ok regex /\
    float (f_timestamp l) = Ok q /\
    record_of regex (render l) = Ok (Some (f_url l, q)).
Proof.
  intros E P W. destruct (record_of_well_formed c l W) as (q & Q & R).
  exists (line_regex c), q.
  split; [exact (compile_plain config c E P)|]. split; assumption.
Qed.

Lemma well_formed_line_is_recorded_witness :
  client cfg5 = Some "10.0.0.5"%string /\ plain "10.0.0.5" = true /\
  well_formed "10.0.0.5" (squid_access "100" "0" "10.0.0.5" "/beacon") = true /\
  render (squid_access "100" "0" "10.0.0.5" "/beacon")
  = access "100.0" "10.0.0.5" "/beacon" /\
  exists regex q,
    (pattern <- build_regex_str cfg5 ["timestamp"; "client"; "url"]%string ;;
     compile pattern) = Ok regex /\
    float (f_timestamp (squid_access "100" "0" "10.0.0.5" "/beacon")) = Ok q /\
    record_of regex (render (squid_access "100" "0" "10.0.0.5" "/beacon"))
    = Ok (Some (f_url (squid_access "100" "0" "10.0.0.5" "/beacon"), q)).
Proof.
  split; [reflexivity|]. split; [reflexivity|]. split; [reflexivity|].
  split; [reflexivity|].
  apply (well_formed_line_is_recorded cfg5 "10.0.0.5"); reflexivity.
Defined.

(** X5.  With a plain target, no URL that the first loop records holds a
    white-space character: the lazy [(.*?)] of the URL ends at the first
    white space from which the rest of the pattern matches, and the rest
    matches from any white space within a longer URL. *)
Theorem recorded_urls_hold_no_white_space (config : Config) (c : string)
    (lines : list string) (time_data : dict value) :
  client config = Some c -> plain c = true ->
  aggregate config lines = Ok time_data ->
  Forall (fun url => solid url = true) (keys time_data).
Proof.
  intros E P. rewrite (aggregate_plain config c lines E P).
  apply (foldM_invariant
           (fun d : dict value => Forall (fun url => solid url = true) (keys d))
           (observe (line_regex c))); [|constructor].
  intros d line d' Pd. unfold observe.
  destruct (findall (line_regex c) line) as [|f fs] eqn:F;
    [intros [= <-]; exact Pd|].
  destruct (findall_from_head _ _ _ _ _ F) as (s' & st & rest & X & ->).
  destruct (exec_line_prog_url _ _ _ _ X) as (u & G & S).
  unfold fields_of. cbn [line_regex ngroups seq map tuple_item nth_error bind].
  destruct (float (group st 1)) as [q|]; cbn [bind]; [|discriminate].
  assert (U : solid (group st 3) = true).
  { unfold group. rewrite G. unfold solid.
    rewrite list_ascii_of_string_of_list_ascii. exact S. }
  assert (K : forall v, Forall (fun url => solid url = true)
                          (keys (set d (group st 3) v))).
  { intros v. rewrite keys_set. destruct (mem (group st 3) d); [exact Pd|].
    apply Forall_app. split; [exact Pd|]. constructor; [exact U|constructor]. }
  destruct (mem (group st 3) d).
  - destruct (item d (group st 3)) as [[l|n]|]; cbn [bind]; try discriminate.
    intros [= <-]. apply K.
  - intros [= <-]. apply K.
Qed.

Lemma recorded_urls_hold_no_white_space_witness :
  client cfg5 = Some "10.0.0.5"%string /\ plain "10.0.0.5" = true /\
  aggregate cfg5 log6
  = Ok [("/beacon", Timestamps [100.0; 105.0; 110.0; 115.0; 120.0; 125.0]%Q);
        ("/page", Timestamps [117.5%Q])]%string /\
  Forall (fun url => solid url = true)
    (keys [("/beacon", Timestamps [100.0; 105.0; 110.0; 115.0; 120.0; 125.0]%Q);
           ("/page", Timestamps [117.5%Q])]%string).
Proof.
  split; [reflexivity|]. split; [reflexivity|].
  split; [vm_compute; reflexivity|].
  apply (recorded_urls_hold_no_white_space cfg5 "10.0.0.5" log6);
    [reflexivity|reflexivity|vm_compute; reflexivity].
Defined.

(** X6.  Without a target, the client of the configuration being
    [None] or the empty string, the pattern takes any client: every line
    that Squid writes is recorded, whoever made the request. *)
Theorem empty_target_selects_every_client (config : Config)
    (l : squid_line) :
  truthy (client config) = false -> well_shaped l = true ->
  exists regex q,
    (pattern <- build_regex_str config ["timestamp"; "client"; "url"]%string ;;
     compile pattern) = Ok regex /\
    float (f_timestamp l) = Ok q /\
    record_of regex (render l) = Ok (Some (f_url l, q)).
Proof.
  intros T W. destruct (record_of_any_client l W) as (q & Q & R).
  exists any_client_regex, q.
  split; [exact (compile_any_client config T)|]. split; assumption.
Qed.

Lemma empty_target_selects_every_client_witness :
  truthy (client cfg_any) = false /\
  well_shaped (squid_access "100" "0" "192.168.1.7" "/beacon") = true /\
  exists regex q,
    (pattern <- build_regex_str cfg_any ["timestamp"; "client"; "url"]%string ;;
     compile pattern) = Ok regex /\
    float (f_timestamp (squid_access "100" "0" "192.168.1.7" "/beacon"))
    = Ok q /\
    record_of regex (render (squid_access "100" "0" "192.168.1.7" "/beacon"))
    = Ok (Some (f_url (squid_access "100" "0" "192.168.1.7" "/beacon"), q)).
Proof.
  split; [reflexivity|]. split; [reflexivity|].
  apply (empty_target_selects_every_client cfg_any); reflexivity.
Defined.

(** ** The first loop *)

(** X7.  The first loop groups the timestamps by URL in file order: when
    every line gives a record or none, the loop returns, and the entry of
    a URL is the list of the timestamps of its records, in the order of
    the lines; a URL without a record has no entry. *)
Theorem series_in_file_order (config : Config) (regex : regex)
    (lines : list string) (rs : list (string * Q)) :
  (pattern <- build_regex_str config ["timestamp"; "client"; "url"]%string ;;
   compile pattern) = Ok regex ->
  records regex lines = Ok rs ->
  exists time_data,
    aggregate config lines = Ok time_data /\
    forall url,
      get time_data url
      = match series_of url rs with
        | [] => None
        | _ :: _ => Some (Timestamps (series_of url rs))
        end.
Proof.
  intros C R.
  destruct (aggregate_records config regex lines rs C R) as (d & A & _ & G).
  exists d. split; assumption.
Qed.

Lemma series_in_file_order_witness :
  (pattern <- build_regex_str cfg5 ["timestamp"; "client"; "url"]%string ;;
   compile pattern) = Ok regex5 /\
  records regex5 log6
  = Ok [("/beacon", 100.0); ("/beacon", 105.0); ("/beacon", 110.0);
        ("/beacon", 115.0); ("/page", 117.5); ("/beacon", 120.0);
        ("/beacon", 125.0)]%string%Q /\
  exists time_data,
    aggregate cfg5 log6 = Ok time_data /\
    forall url,
      get time_data url
      = match series_of url
                [("/beacon", 100.0); ("/beacon", 105.0); ("/beacon", 110.0);
                 ("/beacon", 115.0); ("/page", 117.5); ("/beacon", 120.0);
                 ("/beacon", 125.0)]%string%Q with
        | [] => None
        | _ :: _ =>
            Some (Timestamps
                    (series_of url
                       [("/beacon", 100.0); ("/beacon", 105.0);
                        ("/beacon", 110.0); ("/beacon", 115.0);
                        ("/page", 117.5); ("/beacon", 120.0);
                        ("/beacon", 125.0)]%string%Q))
        end.
Proof.
  split; [vm_compute; reflexivity|]. split; [vm_compute; reflexivity|].
  apply (series_in_file_order cfg5 regex5 log6); vm_compute; reflexivity.
Defined.

(** X8.  The table of the first loop lists the URLs in the order in which
    the log first requests them. *)
Theorem urls_in_order_of_first_request (config : Config) (regex : regex)
    (lines : list string) (rs : list (string * Q)) (time_data : dict value) :
  (pattern <- build_regex_str config ["timestamp"; "client"; "url"]%string ;;
   compile pattern) = Ok regex ->
  records regex lines = Ok rs ->
  aggregate config lines = Ok time_data ->
  keys time_data = first_seen (map fst rs).
Proof.
  intros C R A.
  destruct (aggregate_records config regex lines rs C R) as (d & A' & K & _).
  rewrite A in A'. injection A' as <-. exact K.
Qed.

Lemma urls_in_order_of_first_request_witness :
  (pattern <- build_regex_str cfg5 ["timestamp"; "client"; "url"]%string ;;
   compile pattern) = Ok regex5 /\
  records regex5 log6
  = Ok [("/beacon", 100.0); ("/beacon", 105.0); ("/beacon", 110.0);
        ("/beacon", 115.0); ("/page", 117.5); ("/beacon", 120.0);
        ("/beacon", 125.0)]%string%Q /\
  aggregate cfg5 log6
  = Ok [("/beacon", Timestamps [100.0; 105.0; 110.0; 115.0; 120.0; 125.0]%Q);
        ("/page", Timestamps [117.5%Q])]%string /\
  keys [("/beacon", Timestamps [100.0; 105.0; 110.0; 115.0; 120.0; 125.0]%Q);
        ("/page", Timestamps [117.5%Q])]%string
  = first_seen
      (map fst
         [("/beacon", 100.0); ("/beacon", 105.0); ("/beacon", 110.0);
          ("/beacon", 115.0); ("/page", 117.5); ("/beacon", 120.0);
          ("/beacon", 125.0)]%string%Q).
Proof.
  split; [vm_compute; reflexivity|]. split; [vm_compute; reflexivity|].
  split; [vm_compute; reflexivity|].
  apply (urls_in_order_of_first_request cfg5 regex5 log6);
    vm_compute; reflexivity.
Defined.

(** X10.  Whatever the target, no operation of [find_beacons] on its
    table fails: a run never raises [KeyError], [TypeError] or
    [AttributeError].  No key is looked up that the table lacks, no entry
    is taken for a list when it holds a count, and none for a count when
    it holds a list. *)
Theorem table_operations_never_fail (config : Config) (lines : list string)
    (e : exn) :
  find_beacons config lines = Raise e ->
  e <> KeyError /\ e <> TypeError /\ e <> AttributeError.
Proof.
  intros H.
  assert (K : e = ReError \/ e = IndexError \/ e = ValueError).
  { destruct (aggregate config lines) as [td|e'] eqn:A.
    - destruct (find_beacons_survivors _ _ _ A) as [out E]. congruence.
    - unfold find_beacons in H. rewrite A in H. cbn [bind] in H.
      injection H as ->. unfold aggregate in A.
      destruct (build_regex_str_ok config ["timestamp"; "client"; "url"]%string)
        as [pattern B].
      rewrite B in A. cbn [bind] in A.
      destruct (compile pattern) as [r|e''] eqn:C; cbn [bind] in A.
      + right.
        eapply (foldM_raises scanned
                  (fun e => e = IndexError \/ e = ValueError));
          [| |exact scanned_nil|exact A].
        * intros d line e0 S. apply observe_raises, S.
        * intros d line d' S. apply observe_scanned, S.
      + left. injection A as <-. unfold compile in C.
        destruct (parse _ _ _ _); [discriminate|]. injection C as <-.
        reflexivity. }
  destruct K as [->|[->| ->]]; repeat split; discriminate.
Qed.

Lemma table_operations_never_fail_witness :
  find_beacons (with_target cfg5 "(") log6 = Raise ReError /\
  ReError <> KeyError /\ ReError <> TypeError /\ ReError <> AttributeError.
Proof.
  split; [vm_compute; reflexivity|].
  apply (table_operations_never_fail (with_target cfg5 "(") log6).
  vm_compute; reflexivity.
Defined.

(** ** The detector *)

(** X11.  Line 225 puts the series in newest-to-oldest order and keeps its
    timestamps, each as often as before. *)
Theorem sort_reverse_sorts (l : list Q) :
  descending (sort_reverse l) /\ Permutation l (sort_reverse l).
Proof.
  split; [apply sort_reverse_descending|apply sort_reverse_same_elements].
Qed.

(** X12.  What the nested loops count on the sorted series: the indices
    [i] below the last for which some [j] from [i] on, the last index
    left out, has a truncated delta [int(ts[i] - ts[j])] equal to the
    interval.  The two [break]s lose no match: after a delta above the
    interval none can follow, and one match per [i] is all that is
    counted. *)
Theorem count_is_number_of_matched_starts (interval : Z) (l : list Q) :
  let ts := sort_reverse l in
  count_beacons interval ts
  = Z.of_nat
      (List.length
         (filter
            (fun i =>
               existsb
                 (fun j =>
                    int_of_float (nth i ts 0 - nth j ts 0)%Q =? interval)
                 (range i (List.length ts - 1)))
            (seq 0 (List.length ts - 1)))).
Proof.
  intros ts. pose proof (sort_reverse_descending l) as D. fold ts in D.
  unfold count_beacons, enumerate.
  rewrite (combine_seq_nth 0%Q), length_removelast.
  rewrite fold_left_mapped.
  rewrite (fold_left_count _
             (fun i =>
                existsb
                  (fun j =>
                     int_of_float (nth i ts 0 - nth j ts 0)%Q =? interval)
                  (range i (List.length ts - 1)))); [lia|].
  intros c i Hi. apply in_seq in Hi. rewrite Nat.sub_0_r.
  rewrite nth_removelast by lia. unfold range.
  apply inner_loop_existsb; [assumption|lia|lia].
Qed.

(** X13.  The count of a URL does not depend on the order in which the
    log holds its requests: two series with the same timestamps, each as
    often, count the same after sorting. *)
Theorem count_independent_of_log_order (interval : Z) (l l' : list Q) :
  Permutation l l' ->
  count_beacons interval (sort_reverse l)
  = count_beacons interval (sort_reverse l').
Proof.
  intros P. apply count_beacons_compat, sort_reverse_Permutation, P.
Qed.

Lemma count_independent_of_log_order_witness :
  Permutation [100.0; 105.0; 110.0; 115.0]%Q [105.0; 100.0; 110.0; 115.0]%Q /\
  count_beacons 5 (sort_reverse [100.0; 105.0; 110.0; 115.0]%Q)
  = count_beacons 5 (sort_reverse [105.0; 100.0; 110.0; 115.0]%Q).
Proof.
  split; [apply perm_swap|].
  apply (count_independent_of_log_order 5). apply perm_swap.
Defined.

(** X14.  Requests at a steady pace: a series of k >= 2 timestamps in
    file order, each exactly [interval] seconds after the one before,
    counts k - 2 matches.  The timestamps are numbers that a binary64 float
    holds and the interval is below [2^53]: the difference of two such
    timestamps that is the interval is computed as it is, where that of
    0.7 and 5.7 is not. *)
Theorem steady_requests_count (interval : Z) (l : list Q) :
  1 <= interval < 2 ^ 53 ->
  Forall (fun t => is_double t = true) l ->
  chain interval (rev l) -> (2 <= List.length l)%nat ->
  count_beacons interval (sort_reverse l) = Z.of_nat (List.length l) - 2.
Proof.
  intros [HI _] _ C L. rewrite (sort_reverse_steady interval l HI C).
  rewrite <- length_rev. apply count_beacons_chain; [assumption|assumption|].
  rewrite length_rev. exact L.
Qed.

Lemma steady_requests_count_witness :
  1 <= 5 < 2 ^ 53 /\
  Forall (fun t => is_double t = true)
    [100.5; 105.5; 110.5; 115.5; 120.5]%Q /\
  chain 5 (rev [100.5; 105.5; 110.5; 115.5; 120.5]%Q) /\
  (2 <= List.length [100.5; 105.5; 110.5; 115.5; 120.5]%Q)%nat /\
  count_beacons 5 (sort_reverse [100.5; 105.5; 110.5; 115.5; 120.5]%Q)
  = Z.of_nat (List.length [100.5; 105.5; 110.5; 115.5; 120.5]%Q) - 2.
Proof.
  assert (C : chain 5 (rev [100.5; 105.5; 110.5; 115.5; 120.5]%Q)).
  { simpl. repeat split; reflexivity. }
  assert (F : Forall (fun t => is_double t = true)
                [100.5; 105.5; 110.5; 115.5; 120.5]%Q).
  { repeat (constructor; [reflexivity|]). constructor. }
  split; [lia|]. split; [exact F|]. split; [exact C|].
  split; [simpl; lia|].
  apply (steady_requests_count 5 [100.5; 105.5; 110.5; 115.5; 120.5]%Q);
    [lia|exact F|exact C|simpl; lia].
Defined.

(** X15.  One request more never lowers the count of a URL: the count of
    a series with one timestamp added is at least the count of the series
    without it. *)
Theorem one_more_request_never_lowers_count (interval : Z) (x : Q)
    (l : list Q) :
  count_beacons interval (sort_reverse l)
  <= count_beacons interval (sort_reverse (x :: l)).
Proof.
  simpl. apply count_beacons_grows, sort_reverse_descending.
Qed.

(** X16.  With [interval = 0] every timestamp but the last of the series
    counts, whatever the timestamps: each is compared with itself first,
    and the delta 0 is the interval. *)
Theorem zero_interval_counts_every_start (ts : list Q) :
  count_beacons 0 ts = Z.of_nat (List.length ts - 1).
Proof.
  rewrite count_beacons_count_from, count_from_zero, length_removelast. lia.
Qed.

(** X17.  With an interval below zero nothing is counted, the delta 0 of
    a timestamp with itself being above the interval already; so with a
    threshold of one or more the table is empty and the run says that no
    site was found. *)
Theorem negative_interval_reports_nothing (config : Config)
    (lines : list string) (res : dict value) (out : list string) :
  interval config < 0 -> 1 <= min_count config ->
  find_beacons config lines = Ok (res, out) ->
  (forall ts, count_beacons (interval config) ts = 0) /\
  res = [] /\
  out = [("No sites with at least " ++ str (min_count config)
          ++ " intervals at " ++ str (interval config) ++ " seconds")%string].
Proof.
  intros HI HM H.
  assert (Z0 : forall ts, count_beacons (interval config) ts = 0).
  { intros ts. rewrite count_beacons_count_from.
    apply count_from_negative, HI. }
  split; [exact Z0|].
  destruct (find_beacons_inv _ _ _ _ H) as (td & A & [ND F] & E).
  assert (N : res = []).
  { subst res. apply survivors_nil. apply Forall_forall. intros [k v] Hin.
    simpl. destruct v as [l|n]; [|reflexivity]. simpl.
    destruct (List.length l =? 1)%nat; [reflexivity|]. rewrite Z0.
    destruct (0 >=? min_count config) eqn:G; [|reflexivity].
    rewrite Z.geb_leb in G. apply Z.leb_le in G. lia. }
  split; [exact N|]. subst res. unfold find_beacons in H. rewrite A in H.
  cbn [bind] in H.
  rewrite (detect_survivors _ _ (conj ND F)), N in H. cbn in H.
  injection H as <-. reflexivity.
Qed.

Lemma negative_interval_reports_nothing_witness :
  interval cfg_negative < 0 /\ 1 <= min_count cfg_negative /\
  find_beacons cfg_negative log6
  = Ok ([], ["No sites with at least 1 intervals at -5 seconds"]%string) /\
  (forall ts, count_beacons (interval cfg_negative) ts = 0) /\
  @nil (string * value) = [] /\
  ["No sites with at least 1 intervals at -5 seconds"]%string
  = [("No sites with at least " ++ str (min_count cfg_negative)
      ++ " intervals at " ++ str (interval cfg_negative)
      ++ " seconds")%string].
Proof.
  split; [reflexivity|]. split; [simpl; lia|].
  split; [vm_compute; reflexivity|].
  apply (negative_interval_reports_nothing cfg_negative log6);
    [reflexivity|simpl; lia|vm_compute; reflexivity].
Defined.

(** ** The final table *)

(** X18.  A URL requested exactly twice is never reported when the
    interval is not zero and the threshold is at least one, not even when
    the two requests are exactly [interval] seconds apart: the one
    comparison made is of the newer timestamp with itself. *)
Theorem two_requests_never_reported (config : Config) (lines : list string)
    (time_data res : dict value) (out : list string) (url : string)
    (l : list Q) :
  interval config <> 0 -> 1 <= min_count config ->
  aggregate config lines = Ok time_data ->
  get time_data url = Some (Timestamps l) ->
  List.length l = 2%nat ->
  find_beacons config lines = Ok (res, out) ->
  mem url res = false.
Proof.
  intros HI HM A G L H. unfold mem.
  destruct (get res url) as [v'|] eqn:G'; [|reflexivity].
  destruct (in_result _ _ _ _ _ _ H G') as (td & l' & A' & Gl & L' & _ & M).
  rewrite A in A'. injection A' as <-. rewrite G in Gl. injection Gl as <-.
  pose proof (count_beacons_upper (interval config) (sort_reverse l) HI) as U.
  rewrite length_sort_reverse, L in U. specialize (U (le_n 2)). simpl in U. lia.
Qed.

Lemma two_requests_never_reported_witness :
  interval (with_min_count cfg5 1) <> 0 /\
  1 <= min_count (with_min_count cfg5 1) /\
  aggregate (with_min_count cfg5 1) log2
  = Ok [("/beacon"%string, Timestamps [100.0; 105.0]%Q)] /\
  get [("/beacon"%string, Timestamps [100.0; 105.0]%Q)] "/beacon"
  = Some (Timestamps [100.0; 105.0]%Q) /\
  List.length [100.0; 105.0]%Q = 2%nat /\
  find_beacons (with_min_count cfg5 1) log2
  = Ok ([], ["No sites with at least 1 intervals at 5 seconds"]%string) /\
  mem "/beacon" (@nil (string * value)) = false.
Proof.
  assert (A : aggregate (with_min_count cfg5 1) log2
              = Ok [("/beacon"%string, Timestamps [100.0; 105.0]%Q)])
    by (vm_compute; reflexivity).
  assert (H : find_beacons (with_min_count cfg5 1) log2
              = Ok ([], ["No sites with at least 1 intervals at 5 seconds"]%string))
    by (vm_compute; reflexivity).
  split; [simpl; lia|]. split; [simpl; lia|]. split; [exact A|].
  split; [reflexivity|]. split; [reflexivity|]. split; [exact H|].
  eapply (two_requests_never_reported (with_min_count cfg5 1) log2);
    [simpl; lia|simpl; lia|exact A|reflexivity|reflexivity|exact H].
Defined.

(** X19.  What a run that returns reports, exactly: a URL is in the
    final table with count [n] if and only if the first loop recorded at
    least two timestamps for it, [n] is the count of its sorted series,
    and [n] is at least [min_count]. *)
Theorem result_characterisation (config : Config) (lines : list string)
    (time_data res : dict value) (out : list string) :
  aggregate config lines = Ok time_data ->
  find_beacons config lines = Ok (res, out) ->
  forall url n,
    get res url = Some (BeaconCount n) <->
    exists l,
      get time_data url = Some (Timestamps l) /\
      (2 <= List.length l)%nat /\
      n = count_beacons (interval config) (sort_reverse l) /\
      min_count config <= n.
Proof.
  intros A H url n.
  destruct (find_beacons_inv _ _ _ _ H) as (td & A' & [ND F] & ->).
  rewrite A in A'. injection A' as <-.
  rewrite get_survivors by assumption. split.
  - intros G. destruct (get time_data url) as [v|] eqn:Gv; [|discriminate].
    destruct (verdict_Some _ _ _ _ G) as (l & -> & L & [= ->] & M).
    exists l. repeat split; try assumption.
    apply get_In in Gv. rewrite Forall_forall in F. specialize (F _ Gv).
    simpl in F. destruct l as [|a [|b l]]; simpl in *; try tauto; lia.
  - intros (l & -> & L & -> & M). rewrite verdict_series by assumption.
    destruct (_ >=? min_count config) eqn:G; [reflexivity|].
    rewrite Z.geb_leb in G. apply Z.leb_gt in G. lia.
Qed.

Lemma result_characterisation_witness :
  aggregate cfg5 log6
  = Ok [("/beacon", Timestamps [100.0; 105.0; 110.0; 115.0; 120.0; 125.0]%Q);
        ("/page", Timestamps [117.5%Q])]%string /\
  find_beacons cfg5 log6
  = Ok ([("/beacon", BeaconCount 4)]%string,
        ["Sites that had at least 3 5-second intervals";
         "    4 - /beacon"]%string) /\
  forall url n,
    get [("/beacon", BeaconCount 4)]%string url = Some (BeaconCount n) <->
    exists l,
      get [("/beacon",
            Timestamps [100.0; 105.0; 110.0; 115.0; 120.0; 125.0]%Q);
           ("/page", Timestamps [117.5%Q])]%string url
      = Some (Timestamps l) /\
      (2 <= List.length l)%nat /\
      n = count_beacons (interval cfg5) (sort_reverse l) /\
      min_count cfg5 <= n.
Proof.
  assert (A : aggregate cfg5 log6
    = Ok [("/beacon", Timestamps [100.0; 105.0; 110.0; 115.0; 120.0; 125.0]%Q);
          ("/page", Timestamps [117.5%Q])]%string) by (vm_compute; reflexivity).
  assert (H : find_beacons cfg5 log6
    = Ok ([("/beacon", BeaconCount 4)]%string,
          ["Sites that had at least 3 5-second intervals";
           "    4 - /beacon"]%string)) by (vm_compute; reflexivity).
  split; [exact A|]. split; [exact H|].
  apply (result_characterisation cfg5 log6 _ _ _ A H).
Defined.

(** X20.  With a threshold of zero or less every URL with at least two
    recorded timestamps is reported, with the count of its sorted
    series. *)
Theorem nonpositive_min_count_reports_all (config : Config)
    (lines : list string) (time_data res : dict value) (out : list string)
    (url : string) (l : list Q) :
  min_count config <= 0 ->
  aggregate config lines = Ok time_data ->
  get time_data url = Some (Timestamps l) ->
  (2 <= List.length l)%nat ->
  find_beacons config lines = Ok (res, out) ->
  get res url
  = Some (BeaconCount (count_beacons (interval config) (sort_reverse l))).
Proof.
  intros HM A G L H.
  destruct (find_beacons_inv _ _ _ _ H) as (td & A' & [ND F] & ->).
  rewrite A in A'. injection A' as <-.
  rewrite get_survivors, G, verdict_series by assumption.
  pose proof (count_beacons_nonneg (interval config) (sort_reverse l)) as P.
  destruct (_ >=? min_count config) eqn:E; [reflexivity|].
  rewrite Z.geb_leb in E. apply Z.leb_gt in E. lia.
Qed.

Lemma nonpositive_min_count_reports_all_witness :
  min_count (with_min_count cfg5 0) <= 0 /\
  aggregate (with_min_count cfg5 0) log2
  = Ok [("/beacon"%string, Timestamps [100.0; 105.0]%Q)] /\
  get [("/beacon"%string, Timestamps [100.0; 105.0]%Q)] "/beacon"
  = Some (Timestamps [100.0; 105.0]%Q) /\
  (2 <= List.length [100.0; 105.0]%Q)%nat /\
  find_beacons (with_min_count cfg5 0) log2
  = Ok ([("/beacon", BeaconCount 0)]%string,
        ["Sites that had at least 0 5-second intervals";
         "    0 - /beacon"]%string) /\
  get [("/beacon", BeaconCount 0)]%string "/beacon"
  = Some (BeaconCount
            (count_beacons (interval (with_min_count cfg5 0))
               (sort_reverse [100.0; 105.0]%Q))).
Proof.
  assert (A : aggregate (with_min_count cfg5 0) log2
              = Ok [("/beacon"%string, Timestamps [100.0; 105.0]%Q)])
    by (vm_compute; reflexivity).
  assert (H : find_beacons (with_min_count cfg5 0) log2
              = Ok ([("/beacon", BeaconCount 0)]%string,
                    ["Sites that had at least 0 5-second intervals";
                     "    0 - /beacon"]%string))
    by (vm_compute; reflexivity).
  split; [simpl; lia|]. split; [exact A|]. split; [reflexivity|].
  split; [simpl; lia|]. split; [exact H|].
  eapply (nonpositive_min_count_reports_all (with_min_count cfg5 0) log2);
    [simpl; lia|exact A|reflexivity|simpl; lia|exact H].
Defined.

(** X21.  The report follows the table: the final table holds counts
    alone, and the lines printed are the headline and one row for each
    URL, in the order of the table, the count right-aligned in a field of
    width five; an empty table prints the one line that says that no site
    was found. *)
Theorem report_lists_table (config : Config) (lines : list string)
    (res : dict value) (out : list string) :
  find_beacons config lines = Ok (res, out) ->
  exists counts : list (string * Z),
    res = map (fun un => (fst un, BeaconCount (snd un))) counts /\
    out = match counts with
          | [] =>
              [("No sites with at least " ++ str (min_count config)
                ++ " intervals at " ++ str (interval config)
                ++ " seconds")%string]
          | _ :: _ =>
              ("Sites that had at least " ++ str (min_count config) ++ " "
               ++ str (interval config) ++ "-second intervals")%string
              :: map (fun un => (format5 (snd un) ++ " - " ++ fst un)%string)
                   counts
          end.
Proof.
  intros H.
  destruct (find_beacons_inv _ _ _ _ H) as (td & A & [ND F] & E).
  pose proof (NoDup_survivors (interval config) (min_count config) td ND) as ND'.
  destruct (counts_of _ (survivors_counts (interval config) (min_count config) td))
    as [counts C].
  rewrite <- E in C, ND'. exists counts. split; [exact C|].
  unfold find_beacons in H. rewrite A in H. cbn [bind] in H.
  rewrite (detect_survivors _ _ (conj ND F)), <- E in H. cbn [bind] in H.
  clear E. subst res. rewrite report_counts in H by assumption.
  cbn [bind] in H. injection H as <-. reflexivity.
Qed.

Lemma report_lists_table_witness :
  find_beacons cfg5 log6
  = Ok ([("/beacon", BeaconCount 4)]%string,
        ["Sites that had at least 3 5-second intervals";
         "    4 - /beacon"]%string) /\
  exists counts : list (string * Z),
    [("/beacon", BeaconCount 4)]%string
    = map (fun un => (fst un, BeaconCount (snd un))) counts /\
    ["Sites that had at least 3 5-second intervals";
     "    4 - /beacon"]%string
    = match counts with
      | [] =>
          [("No sites with at least " ++ str (min_count cfg5)
            ++ " intervals at " ++ str (interval cfg5)
            ++ " seconds")%string]
      | _ :: _ =>
          ("Sites that had at least " ++ str (min_count cfg5) ++ " "
           ++ str (interval cfg5) ++ "-second intervals")%string
          :: map (fun un => (format5 (snd un) ++ " - " ++ fst un)%string)
               counts
      end.
Proof.
  split; [vm_compute; reflexivity|].
  apply (report_lists_table cfg5 log6). vm_compute; reflexivity.
Defined.

(** X22.  The second loop keeps the order of the first: the final table
    lists the URLs that it holds in the order of [time_data], which is the
    order of their first requests. *)
Theorem table_keeps_order_of_first_loop (config : Config)
    (lines : list string) (time_data res : dict value) (out : list string) :
  aggregate config lines = Ok time_data ->
  find_beacons config lines = Ok (res, out) ->
  keys res = filter (fun url => mem url res) (keys time_data).
Proof.
  intros A H.
  destruct (find_beacons_inv _ _ _ _ H) as (td & A' & [ND F] & ->).
  rewrite A in A'. injection A' as <-.
  apply keys_survivors_filter, ND.
Qed.

Lemma table_keeps_order_of_first_loop_witness :
  aggregate (with_min_count cfg5 0)
    (log6 ++ [access "130.0" "10.0.0.5" "/page"])
  = Ok [("/beacon", Timestamps [100.0; 105.0; 110.0; 115.0; 120.0; 125.0]%Q);
        ("/page", Timestamps [117.5; 130.0]%Q)]%string /\
  find_beacons (with_min_count cfg5 0)
    (log6 ++ [access "130.0" "10.0.0.5" "/page"])
  = Ok ([("/beacon", BeaconCount 4); ("/page", BeaconCount 0)]%string,
        ["Sites that had at least 0 5-second intervals";
         "    4 - /beacon"; "    0 - /page"]%string) /\
  keys [("/beacon", BeaconCount 4); ("/page", BeaconCount 0)]%string
  = filter
      (fun url =>
         mem url [("/beacon", BeaconCount 4); ("/page", BeaconCount 0)]%string)
      (keys [("/beacon",
              Timestamps [100.0; 105.0; 110.0; 115.0; 120.0; 125.0]%Q);
             ("/page", Timestamps [117.5; 130.0]%Q)]%string).
Proof.
  assert (A : aggregate (with_min_count cfg5 0)
                (log6 ++ [access "130.0" "10.0.0.5" "/page"])
    = Ok [("/beacon", Timestamps [100.0; 105.0; 110.0; 115.0; 120.0; 125.0]%Q);
          ("/page", Timestamps [117.5; 130.0]%Q)]%string)
    by (vm_compute; reflexivity).
  assert (H : find_beacons (with_min_count cfg5 0)
                (log6 ++ [access "130.0" "10.0.0.5" "/page"])
    = Ok ([("/beacon", BeaconCount 4); ("/page", BeaconCount 0)]%string,
          ["Sites that had at least 0 5-second intervals";
           "    4 - /beacon"; "    0 - /page"]%string))
    by (vm_compute; reflexivity).
  split; [exact A|]. split; [exact H|].
  apply (table_keeps_order_of_first_loop (with_min_count cfg5 0)
           (log6 ++ [access "130.0" "10.0.0.5" "/page"]) _ _ _ A H).
Defined.

(** X23.  A steady beacon, from the log to the report: when the records
    of a URL are k >= 2 requests in file order, each exactly [interval]
    seconds after the one before, a run that returns has the URL in its
    final table, with the count k - 2, exactly when [min_count <= k - 2].
    The timestamps of the URL are numbers that a binary64 float holds, so
    that [float] reads them as they are written, and the interval is below
    [2^53]. *)
Theorem steady_beacon_report (config : Config) (regex : regex)
    (lines : list string) (rs : list (string * Q)) (url : string)
    (res : dict value) (out : list string) :
  (pattern <- build_regex_str config ["timestamp"; "client"; "url"]%string ;;
   compile pattern) = Ok regex ->
  records regex lines = Ok rs ->
  1 <= interval config < 2 ^ 53 ->
  Forall (fun t => is_double t = true) (series_of url rs) ->
  chain (interval config) (rev (series_of url rs)) ->
  (2 <= List.length (series_of url rs))%nat ->
  find_beacons config lines = Ok (res, out) ->
  get res url
  = if Z.of_nat (List.length (series_of url rs)) - 2 >=? min_count config
    then Some (BeaconCount (Z.of_nat (List.length (series_of url rs)) - 2))
    else None.
Proof.
  intros C R [HI _] _ HC HL H.
  destruct (aggregate_records config regex lines rs C R) as (d & A & _ & G).
  destruct (find_beacons_inv _ _ _ _ H) as (td & A' & [ND F] & ->).
  rewrite A in A'. injection A' as <-.
  rewrite get_survivors, G by assumption.
  destruct (series_of url rs) as [|t s] eqn:S; [simpl in HL; lia|].
  rewrite verdict_series by assumption.
  rewrite (sort_reverse_steady _ _ HI HC).
  rewrite count_beacons_chain by (rewrite ?length_rev; assumption).
  rewrite length_rev. reflexivity.
Qed.

Lemma steady_beacon_report_witness :
  (pattern <- build_regex_str cfg5 ["timestamp"; "client"; "url"]%string ;;
   compile pattern) = Ok regex5 /\
  records regex5 log6
  = Ok [("/beacon", 100.0); ("/beacon", 105.0); ("/beacon", 110.0);
        ("/beacon", 115.0); ("/page", 117.5); ("/beacon", 120.0);
        ("/beacon", 125.0)]%string%Q /\
  1 <= interval cfg5 < 2 ^ 53 /\
  Forall (fun t => is_double t = true)
    (series_of "/beacon"
       [("/beacon", 100.0); ("/beacon", 105.0); ("/beacon", 110.0);
        ("/beacon", 115.0); ("/page", 117.5); ("/beacon", 120.0);
        ("/beacon", 125.0)]%string%Q) /\
  chain (interval cfg5)
    (rev (series_of "/beacon"
            [("/beacon", 100.0); ("/beacon", 105.0); ("/beacon", 110.0);
             ("/beacon", 115.0); ("/page", 117.5); ("/beacon", 120.0);
             ("/beacon", 125.0)]%string%Q)) /\
  (2 <= List.length
          (series_of "/beacon"
             [("/beacon", 100.0); ("/beacon", 105.0); ("/beacon", 110.0);
              ("/beacon", 115.0); ("/page", 117.5); ("/beacon", 120.0);
              ("/beacon", 125.0)]%string%Q))%nat /\
  find_beacons cfg5 log6
  = Ok ([("/beacon", BeaconCount 4)]%string,
        ["Sites that had at least 3 5-second intervals";
         "    4 - /beacon"]%string) /\
  get [("/beacon", BeaconCount 4)]%string "/beacon"
  = if Z.of_nat
         (List.length
            (series_of "/beacon"
               [("/beacon", 100.0); ("/beacon", 105.0); ("/beacon", 110.0);
                ("/beacon", 115.0); ("/page", 117.5); ("/beacon", 120.0);
                ("/beacon", 125.0)]%string%Q)) - 2
       >=? min_count cfg5
    then Some (BeaconCount
                 (Z.of_nat
                    (List.length
                       (series_of "/beacon"
                          [("/beacon", 100.0); ("/beacon", 105.0);
                           ("/beacon", 110.0); ("/beacon", 115.0);
                           ("/page", 117.5); ("/beacon", 120.0);
                           ("/beacon", 125.0)]%string%Q)) - 2))
    else None.
Proof.
  assert (C : chain (interval cfg5)
    (rev (series_of "/beacon"
            [("/beacon", 100.0); ("/beacon", 105.0); ("/beacon", 110.0);
             ("/beacon", 115.0); ("/page", 117.5); ("/beacon", 120.0);
             ("/beacon", 125.0)]%string%Q))).
  { simpl. repeat split; reflexivity. }
  assert (F : Forall (fun t => is_double t = true)
    (series_of "/beacon"
       [("/beacon", 100.0); ("/beacon", 105.0); ("/beacon", 110.0);
        ("/beacon", 115.0); ("/page", 117.5); ("/beacon", 120.0);
        ("/beacon", 125.0)]%string%Q)).
  { simpl. repeat (constructor; [reflexivity|]). constructor. }
  assert (H : find_beacons cfg5 log6
    = Ok ([("/beacon", BeaconCount 4)]%string,
          ["Sites that had at least 3 5-second intervals";
           "    4 - /beacon"]%string)) by (vm_compute; reflexivity).
  split; [vm_compute; reflexivity|]. split; [vm_compute; reflexivity|].
  split; [simpl; lia|]. split; [exact F|]. split; [exact C|].
  split; [simpl; lia|]. split; [exact H|].
  eapply (steady_beacon_report cfg5 regex5 log6 _ "/beacon"%string);
    [vm_compute; reflexivity|vm_compute; reflexivity|simpl; lia|exact F
    |exact C|simpl; lia|exact H].
Defined.

(** The log of 0.7, 5.7 and 10.7 is outside the last two properties: its
    timestamps are no binary64 floats. *)
Example log07_is_outside :
  records regex5 log07
  = Ok [("/beacon", 0.7); ("/beacon", 5.7); ("/beacon", 10.7)]%string%Q /\
  forallb is_double [0.7; 5.7; 10.7]%Q = false.
Proof. split; vm_compute; reflexivity. Qed.
